(** * SublimeREPL: the subprocess REPL (repls/subprocess_repl.py)

    A shallow embedding of [win_find_executable], [SubprocessRepl] and
    [SubprocessReplVenv], together with the properties of environment
    construction, virtual-environment resolution, executable lookup, byte
    reading and process termination that their documentation states.

    Conventions of the embedding.
    - A Python [str] and a Python [bytes] are both a [string]; a character is a
      code point (resp. a byte) below 256.
    - A Python [dict] is an association list without duplicate keys that keeps
      insertion order, as CPython does.
    - A dict that the code mutates in place lives in a store ([heap]) and is
      passed around by its location, so that two names for one object see the
      same updates.
    - Methods run in a state-and-exception monad: the state survives a raised
      exception, as the effects of a Python statement survive the exception a
      later statement raises. *)

From Stdlib Require Import String Ascii List Bool Arith Lia.
Import ListNotations.
Open Scope list_scope.
Open Scope string_scope.

(** ** Exceptions and results *)

Inductive exn : Type :=
| Unsupported (msgs : list string)   (* class Unsupported(Exception), with its [msgs] *)
| KeyError (key : string)
| IndexError
| ValueError
| TypeError
| UnicodeEncodeError
| UnicodeDecodeError
| BrokenPipeError
| OSError
| OutsideModel.                      (* the input leaves the fragment of Python embedded here *)

Inductive result (A : Type) : Type :=
| Ok (a : A)
| Raise (e : exn).
Arguments Ok {A} a.
Arguments Raise {A} e.

Definition rbind {A B} (r : result A) (k : A -> result B) : result B :=
  match r with
  | Ok a => k a
  | Raise e => Raise e
  end.

(** ** Characters *)

Definition chr (n : nat) : ascii := ascii_of_nat n.

Definition LF : ascii := chr 10.
Definition CR : ascii := chr 13.

Definition str1 (c : ascii) : string := String c EmptyString.

(** The line boundaries of [str.splitlines] that are below 256:
    \n \r \v \f \x1c \x1d \x1e \x85 (and the pair \r\n, handled by the
    splitter). *)
Definition is_line_boundary (c : ascii) : bool :=
  let n := nat_of_ascii c in
  Nat.eqb n 10 || Nat.eqb n 13 || Nat.eqb n 11 || Nat.eqb n 12
  || Nat.eqb n 28 || Nat.eqb n 29 || Nat.eqb n 30 || Nat.eqb n 133.

Definition is_digit (c : ascii) : bool :=
  let n := nat_of_ascii c in Nat.leb 48 n && Nat.leb n 57.

Fixpoint all_chars (p : ascii -> bool) (s : string) : bool :=
  match s with
  | EmptyString => true
  | String c r => p c && all_chars p r
  end.

Definition nonempty (s : string) : bool :=
  match s with
  | EmptyString => false
  | String _ _ => true
  end.

(** ** The string methods the module calls *)

(** [s.split(sep, 1)] for a one-character separator: one piece when [sep]
    does not occur, otherwise the text before and after its first
    occurrence. *)
Fixpoint split1 (sep : ascii) (s : string) : string * option string :=
  match s with
  | EmptyString => (EmptyString, None)
  | String c r =>
      if Ascii.eqb c sep then (EmptyString, Some r)
      else let (a, b) := split1 sep r in (String c a, b)
  end.

(** [s.split(sep)] for a one-character separator: every occurrence splits,
    and the empty string gives one empty piece. *)
Fixpoint split (sep : ascii) (s : string) : list string :=
  match s with
  | EmptyString => [EmptyString]
  | String c r =>
      if Ascii.eqb c sep then EmptyString :: split sep r
      else match split sep r with
           | [] => [str1 c]
           | p :: ps => String c p :: ps
           end
  end.

(** [sep.join(pieces)]. *)
Fixpoint join (sep : string) (pieces : list string) : string :=
  match pieces with
  | [] => EmptyString
  | [p] => p
  | p :: ps => p ++ sep ++ join sep ps
  end.

(** [s.splitlines()]: [cur] is the line being read. *)
Fixpoint splitlines_from (cur : string) (s : string) : list string :=
  match s with
  | EmptyString => if nonempty cur then [cur] else []
  | String c r =>
      if Ascii.eqb c CR then
        match r with
        | String d r' =>
            if Ascii.eqb d LF then cur :: splitlines_from EmptyString r'
            else cur :: splitlines_from EmptyString r
        | EmptyString => cur :: splitlines_from EmptyString r
        end
      else if is_line_boundary c then cur :: splitlines_from EmptyString r
      else splitlines_from (cur ++ str1 c) r
  end.

Definition splitlines (s : string) : list string := splitlines_from EmptyString s.

(** [list.insert(i, x)]: an index past the end appends. *)
Fixpoint list_insert {A} (i : nat) (x : A) (l : list A) : list A :=
  match i, l with
  | O, _ => x :: l
  | S _, [] => [x]
  | S j, y :: r => y :: list_insert j x r
  end.

(** ** Dictionaries *)

Module PyDict.

Definition t (V : Type) : Type := list (string * V).

Definition empty {V} : t V := [].

(** [d.get(k)] *)
Fixpoint get {V} (d : t V) (k : string) : option V :=
  match d with
  | [] => None
  | (k', v) :: r => if String.eqb k' k then Some v else get r k
  end.

(** [k in d] *)
Definition mem {V} (d : t V) (k : string) : bool :=
  match get d k with
  | Some _ => true
  | None => false
  end.

(** [d[k] = v]: an existing key keeps its position. *)
Fixpoint set {V} (d : t V) (k : string) (v : V) : t V :=
  match d with
  | [] => [(k, v)]
  | (k', v') :: r =>
      if String.eqb k' k then (k, v) :: r else (k', v') :: set r k v
  end.

(** [d.update(e)] *)
Definition update {V} (d e : t V) : t V :=
  fold_left (fun acc kv => set acc (fst kv) (snd kv)) e d.

(** [dict(pairs)] *)
Definition of_pairs {V} (pairs : list (string * V)) : t V := update empty pairs.

(** [d.keys()] and [d.items()] *)
Definition keys {V} (d : t V) : list string := map fst d.
Definition items {V} (d : t V) : list (string * V) := d.

(** the truth value of a dict: it is not empty *)
Definition truthy {V} (d : t V) : bool :=
  match d with
  | [] => false
  | _ :: _ => true
  end.

End PyDict.

Definition dict : Type := PyDict.t string.

(** ** [str.format] with the environment as keyword arguments

    Literal text is copied, a doubled brace gives one brace, and a field
    [{name}] is replaced by [env[name]].  The replacement text is written to
    the output and never scanned again.  A field that uses a conversion, a
    format specification, an attribute or an index ([!], [:], [.], [[]) or a
    nested brace is outside the embedded fragment.  Errors come in reading
    order, as CPython renders the string field by field. *)

Definition is_field_special (c : ascii) : bool :=
  Ascii.eqb c "{" || Ascii.eqb c "!" || Ascii.eqb c ":"
  || Ascii.eqb c "." || Ascii.eqb c "[".

(** a field name that is a plain key: no brace and none of the characters
    that start a conversion, a specification, an attribute or an index *)
Definition plain_name (name : string) : bool :=
  all_chars (fun c => negb (is_field_special c || Ascii.eqb c "}")) name.

(** the value of the field [name]: an empty or numeric name is a positional
    argument, and [format] gets none *)
Definition format_field (env : dict) (name : string) : result string :=
  if all_chars is_digit name then Raise IndexError
  else match PyDict.get env name with
       | Some v => Ok v
       | None => Raise (KeyError name)
       end.

(** [field] is [None] in literal text and [Some name] inside a field whose
    name read so far is [name]. *)
Fixpoint format_from (env : dict) (field : option string) (s : string)
  : result string :=
  match s with
  | EmptyString =>
      match field with
      | None => Ok EmptyString
      | Some _ => Raise ValueError     (* expected '}' before end of string *)
      end
  | String c r =>
      match field with
      | Some name =>
          if Ascii.eqb c "}" then
            rbind (format_field env name) (fun v =>
            rbind (format_from env None r) (fun out => Ok (v ++ out)))
          else if is_field_special c then Raise OutsideModel
          else format_from env (Some (name ++ str1 c)) r
      | None =>
          if Ascii.eqb c "{" then
            match r with
            | String d r' =>
                if Ascii.eqb d "{" then
                  rbind (format_from env None r') (fun out => Ok (String "{" out))
                else format_from env (Some EmptyString) r
            | EmptyString => Raise ValueError   (* Single '{' encountered *)
            end
          else if Ascii.eqb c "}" then
            match r with
            | String d r' =>
                if Ascii.eqb d "}" then
                  rbind (format_from env None r') (fun out => Ok (String "}" out))
                else Raise ValueError           (* Single '}' encountered *)
            | EmptyString => Raise ValueError
            end
          else rbind (format_from env None r) (fun out => Ok (String c out))
      end
  end.

Definition format (template : string) (env : dict) : result string :=
  format_from env None template.

(** ** [os.path]

    The module reaches the file system through [os.path], whose functions
    depend on the platform.  They are gathered in a record, with the POSIX
    flavour ([posixpath]) spelled out. *)

Record ospath : Type := {
  semicolon_pathsep : bool;            (* os.pathsep is ';', as on Windows; ':' otherwise *)
  dirname : string -> string;
  basename : string -> string;
  splitext : string -> string * string;
  path_join : string -> string -> string
}.

Definition pathsep (P : ospath) : ascii :=
  if semicolon_pathsep P then ";" else ":".

(** the text before and after the last [sep] of [s], if there is one *)
Fixpoint rpartition (sep : ascii) (s : string) : option (string * string) :=
  match s with
  | EmptyString => None
  | String c r =>
      match rpartition sep r with
      | Some (a, b) => Some (String c a, b)
      | None => if Ascii.eqb c sep then Some (EmptyString, r) else None
      end
  end.

(** [s.rstrip(c)] *)
Fixpoint rstrip (c : ascii) (s : string) : string :=
  match s with
  | EmptyString => EmptyString
  | String d r =>
      match rstrip c r with
      | EmptyString => if Ascii.eqb d c then EmptyString else str1 d
      | r' => String d r'
      end
  end.

Definition ends_with (c : ascii) (s : string) : bool :=
  match rpartition c s with
  | Some (_, EmptyString) => true
  | _ => false
  end.

Definition starts_with (c : ascii) (s : string) : bool :=
  match s with
  | String d _ => Ascii.eqb d c
  | EmptyString => false
  end.

Module Posix.

(** [head, tail = p[:i], p[i:]] with [i = p.rfind('/') + 1] *)
Definition split_at_sep (p : string) : string * string :=
  match rpartition "/" p with
  | Some (a, b) => (a ++ "/", b)
  | None => (EmptyString, p)
  end.

Definition basename (p : string) : string := snd (split_at_sep p).

Definition dirname (p : string) : string :=
  let head := fst (split_at_sep p) in
  if nonempty head && negb (all_chars (Ascii.eqb "/") head)
  then rstrip "/" head else head.

(** [genericpath._splitext]: the extension starts at the last dot of the
    last component, unless only dots precede it there. *)
Definition splitext (p : string) : string * string :=
  let (head, tail) := split_at_sep p in
  match rpartition "." tail with
  | Some (before, after) =>
      if all_chars (Ascii.eqb ".") before then (p, EmptyString)
      else (head ++ before, String "." after)
  | None => (p, EmptyString)
  end.

Definition join (a b : string) : string :=
  if starts_with "/" b then b
  else if negb (nonempty a) || ends_with "/" a then a ++ b
  else a ++ "/" ++ b.

End Posix.

Definition posixpath : ospath := {|
  semicolon_pathsep := false;
  dirname := Posix.dirname;
  basename := Posix.basename;
  splitext := Posix.splitext;
  path_join := Posix.join
|}.

(** ** [win_find_executable] *)

Section FindExecutable.

Variable P : ospath.
Variable exists_ : string -> bool.     (* os.path.exists *)

(** the inner loop: the extensions of one directory *)
Fixpoint find_in_directory (directory base : string) (extensions : list string)
  : option string :=
  match extensions with
  | [] => None
  | extension :: rest =>
      let filepath := path_join P directory (base ++ extension) in
      if exists_ filepath then Some filepath
      else find_in_directory directory base rest
  end.

(** the outer loop: the directories of PATH *)
Fixpoint find_in_directories (dirs : list string) (base : string)
         (extensions : list string) : option string :=
  match dirs with
  | [] => None
  | directory :: rest =>
      match find_in_directory directory base extensions with
      | Some filepath => Some filepath
      | None => find_in_directories rest base extensions
      end
  end.

Definition win_find_executable (executable : string) (env : dict)
  : option string :=
  if nonempty (dirname P executable) then Some executable
  else
    let path := match PyDict.get env "PATH" with
                | Some p => p
                | None => EmptyString
                end in
    let pathext := match PyDict.get env "PATHEXT" with
                   | Some e => if nonempty e then e else ".EXE"
                   | None => ".EXE"
                   end in
    let dirs := split (pathsep P) path in
    let (base, ext) := splitext P executable in
    let extensions := if nonempty ext then [ext]
                      else split (pathsep P) pathext in
    find_in_directories dirs base extensions.

(** The lookup as the documentation words it: the candidates are the PATH
    directories in order, each combined with the extensions in order, and
    the answer is the first candidate that exists. *)
Definition search_extensions (executable : string) (env : dict) : list string :=
  let ext := snd (splitext P executable) in
  if nonempty ext then [ext]
  else match PyDict.get env "PATHEXT" with
       | Some e => if nonempty e then split (pathsep P) e else [".EXE"]
       | None => [".EXE"]
       end.

Definition search_candidates (executable : string) (env : dict) : list string :=
  let dirs := split (pathsep P)
                (match PyDict.get env "PATH" with
                 | Some p => p
                 | None => EmptyString
                 end) in
  flat_map (fun d =>
              map (fun e => path_join P d (fst (splitext P executable) ++ e))
                  (search_extensions executable env))
           dirs.

Definition first_existing_candidate (executable : string) (env : dict)
  : option string :=
  if nonempty (dirname P executable) then Some executable
  else find exists_ (search_candidates executable env).

End FindExecutable.

(** ** The state-and-exception monad *)

Definition M (S A : Type) : Type := S -> result A * S.

Definition ret {S A} (a : A) : M S A := fun s => (Ok a, s).

Definition raise {S A} (e : exn) : M S A := fun s => (Raise e, s).

Definition bind {S A B} (m : M S A) (k : A -> M S B) : M S B :=
  fun s =>
    match m s with
    | (Ok a, s') => k a s'
    | (Raise e, s') => (Raise e, s')
    end.

Definition gets {S A} (f : S -> A) : M S A := fun s => (Ok (f s), s).

Definition modify {S} (f : S -> S) : M S unit := fun s => (Ok tt, f s).

Definition lift {S A} (r : result A) : M S A := fun s => (r, s).

(** [try: m  except: handler] with a bare [except]; leaving the embedded
    fragment is not a Python exception and is not caught. *)
Definition try_except {S A} (m : M S A) (handler : M S A) : M S A :=
  fun s =>
    match m s with
    | (Ok a, s') => (Ok a, s')
    | (Raise OutsideModel, s') => (Raise OutsideModel, s')
    | (Raise _, s') => handler s'
    end.

Declare Scope monad_scope.
Delimit Scope monad_scope with monad.
Notation "x <- c ;; k" := (bind c (fun x => k))
  (at level 61, c at next level, right associativity) : monad_scope.
Notation "c ;;; k" := (bind c (fun _ => k))
  (at level 61, right associativity) : monad_scope.
Open Scope monad_scope.

(** [for x in xs: body x] *)
Fixpoint for_each {S A} (xs : list A) (body : A -> M S unit) : M S unit :=
  match xs with
  | [] => ret tt
  | x :: rest => body x ;;; for_each rest body
  end.

(** ** The host: platform, settings and the processes the module talks to *)

Definition bytes : Type := string.

Definition loc : Type := nat.

(** A child process as the module sees it: whether it has exited, what its
    standard input has received, and what its standard output still holds. *)
Record proc : Type := {
  exited : bool;
  stdin_received : bytes;
  stdout_pending : bytes
}.

(** a command as [Popen] accepts it *)
Inductive command : Type :=
| CmdNone                              (* the default, [cmd=None] *)
| CmdStr (s : string)
| CmdList (argv : list string).

Inductive event : Type :=
| RanGetenv (argv : list string)       (* subprocess.check_output(getenv_command) *)
| ShowedError                          (* sublime.error_message *)
| RanSource (script py_ver : string)   (* bash --login -c '. SCRIPT PY_VER; env' *)
| StartedAutocomplete
| Spawned (cmd : command) (cwd : option string) (env : dict)
| SpawnedFilter (cwd : option string) (env : dict).

Record world : Type := {
  heap : list dict;                    (* the dict objects, by location *)
  VENVS_ENVIRON : PyDict.t dict;       (* the module-level cache *)
  events : list event;                 (* oldest first *)
  procs : list proc                    (* the children, by handle *)
}.

(** the options read from SublimeREPL.sublime-settings; an unset option and
    an empty one are both falsy and both written as the empty value *)
Record settings : Type := {
  getenv_command : list string;
  default_extend_env : dict;
  autocomplete_server_ip : string;
  python_virtualenv_paths : list string;
  use_wrapped : bool;
  force_source : bool;
  conda_minor : nat;
  debug : bool
}.

Record host : Type := {
  POSIX : bool;                        (* os.name == 'posix' *)
  NT : bool;                           (* os.name == 'nt' *)
  PY3 : bool;
  os_path : ospath;
  os_environ : dict;
  path_exists : string -> bool;        (* os.path.exists *)
  expanduser : string -> string;       (* os.path.expanduser *)
  glob : string -> list string;        (* glob.glob *)
  encoder : string -> result bytes;    (* self.encoder(text)[0] *)
  getenv_output : list string -> option string;
      (* the decoded output of the getenv command; None when running it fails *)
  source_stdout : string -> string -> string;
      (* the decoded output of sourcing SCRIPT with argument PY_VER *)
  autocomplete_port : string;          (* str(port) of the started server *)
  can_spawn : command -> bool          (* whether Popen finds and starts it *)
}.

(** *** Store and trace primitives *)

Fixpoint list_set {A} (i : nat) (x : A) (l : list A) : list A :=
  match l, i with
  | [], _ => []
  | _ :: r, O => x :: r
  | y :: r, S j => y :: list_set j x r
  end.

Definition set_heap (hp : list dict) (w : world) : world :=
  {| heap := hp; VENVS_ENVIRON := VENVS_ENVIRON w;
     events := events w; procs := procs w |}.

Definition set_cache (c : PyDict.t dict) (w : world) : world :=
  {| heap := heap w; VENVS_ENVIRON := c;
     events := events w; procs := procs w |}.

Definition set_events (es : list event) (w : world) : world :=
  {| heap := heap w; VENVS_ENVIRON := VENVS_ENVIRON w;
     events := es; procs := procs w |}.

Definition set_procs (ps : list proc) (w : world) : world :=
  {| heap := heap w; VENVS_ENVIRON := VENVS_ENVIRON w;
     events := events w; procs := ps |}.

(** a new dict object *)
Definition alloc (d : dict) : M world loc :=
  fun w => (Ok (length (heap w)), set_heap (heap w ++ [d])%list w).

Definition deref (l : loc) : M world dict :=
  fun w =>
    match nth_error (heap w) l with
    | Some d => (Ok d, w)
    | None => (Raise OutsideModel, w)
    end.

Definition store (l : loc) (d : dict) : M world unit :=
  modify (fun w => set_heap (list_set l d (heap w)) w).

Definition emit (e : event) : M world unit :=
  modify (fun w => set_events (events w ++ [e])%list w).

(** [d[k]] *)
Definition getitem {V} (d : PyDict.t V) (k : string) : result V :=
  match PyDict.get d k with
  | Some v => Ok v
  | None => Raise (KeyError k)
  end.

(** [obj[k] = v] on the dict at [l] *)
Definition setitem (l : loc) (k v : string) : M world unit :=
  d <- deref l ;; store l (PyDict.set d k v).

(** [obj.update(e)] on the dict at [l] *)
Definition update_in_place (l : loc) (e : dict) : M world unit :=
  d <- deref l ;; store l (PyDict.update d e).

(** the truth value of an argument that is [None] or a dict *)
Definition truthy_arg (a : option loc) : M world bool :=
  match a with
  | None => ret false
  | Some l => d <- deref l ;; ret (PyDict.truthy d)
  end.

(** ** [SubprocessRepl.getenv] *)

(** [previous_pair[1] += text] on the last pair of the list *)
Fixpoint append_to_last (pairs : list (string * string)) (text : string)
  : option (list (string * string)) :=
  match pairs with
  | [] => None
  | [(k, v)] => Some [(k, v ++ text)]
  | p :: r => option_map (cons p) (append_to_last r text)
  end.

(** the loop over [kw_pairs]: [split1] gives one piece or two *)
Fixpoint sanitize_kw_pairs (kw_pairs : list (string * option string))
         (santized_kw_pairs : list (string * string))
  : result (list (string * string)) :=
  match kw_pairs with
  | [] => Ok santized_kw_pairs
  | (piece, None) :: rest =>
      match append_to_last santized_kw_pairs (str1 LF ++ piece) with
      | Some pairs => sanitize_kw_pairs rest pairs
      | None => Raise IndexError          (* santized_kw_pairs[-1] on [] *)
      end
  | (key, Some value) :: rest =>
      sanitize_kw_pairs rest (santized_kw_pairs ++ [(key, value)])%list
  end.

(** from the decoded output of the command to the environment *)
Definition parse_getenv_output (output : string) : result dict :=
  let lines := splitlines output in
  let kw_pairs := map (split1 "=") lines in
  rbind (sanitize_kw_pairs kw_pairs []) (fun pairs => Ok (PyDict.of_pairs pairs)).

Definition list_truthy {A} (l : list A) : bool :=
  match l with
  | [] => false
  | _ :: _ => true
  end.

Definition getenv (h : host) (st : settings) : M world dict :=
  if list_truthy (getenv_command st) && POSIX h then
    try_except
      (emit (RanGetenv (getenv_command st)) ;;;
       match getenv_output h (getenv_command st) with
       | Some output => lift (parse_getenv_output output)
       | None => raise OSError
       end)
      (emit ShowedError ;;; ret (os_environ h))
  else ret (os_environ h).

(** ** [SubprocessRepl.interpolate_extend_env] *)

Fixpoint interpolate_items (env : dict) (items : list (string * string))
         (new_env : dict) : result dict :=
  match items with
  | [] => Ok new_env
  | (key, val) :: rest =>
      rbind (format val env) (fun text =>
      interpolate_items env rest (PyDict.set new_env key text))
  end.

Definition interpolate_extend_env (env extend_env : dict) : result dict :=
  interpolate_items env (PyDict.items extend_env) PyDict.empty.

(** ** [SubprocessRepl.env] *)

(** the loop that fills [bytes_env]: only [UnicodeDecodeError] is caught *)
Fixpoint encode_items (enc : string -> result bytes)
         (items : list (string * string)) (bytes_env : dict) : result dict :=
  match items with
  | [] => Ok bytes_env
  | (k, v) :: rest =>
      match enc k with
      | Raise UnicodeDecodeError => encode_items enc rest bytes_env
      | Raise e => Raise e
      | Ok enc_k =>
          match enc v with
          | Raise UnicodeDecodeError => encode_items enc rest bytes_env
          | Raise e => Raise e
          | Ok enc_v => encode_items enc rest (PyDict.set bytes_env enc_k enc_v)
          end
      end
  end.

(** [env if env else self.getenv(settings)]: the object the build works on *)
Definition base_env (h : host) (st : settings) (env : option loc) : M world loc :=
  supplied <- truthy_arg env ;;
  match env, supplied with
  | Some l, true => ret l
  | _, _ => d <- getenv h st ;; alloc d
  end.

(** the first half of [env]: the two interpolation phases, in place *)
Definition extend_in_place (st : settings) (updated_env : loc)
           (extend_env : option loc) : M world unit :=
  (if PyDict.truthy (default_extend_env st) then
     d <- deref updated_env ;;
     new_env <- lift (interpolate_extend_env d (default_extend_env st)) ;;
     update_in_place updated_env new_env
   else ret tt) ;;;
  has_extend <- truthy_arg extend_env ;;
  match extend_env, has_extend with
  | Some le, true =>
      d <- deref updated_env ;;
      e <- deref le ;;
      new_env <- lift (interpolate_extend_env d e) ;;
      update_in_place updated_env new_env
  | _, _ => ret tt
  end.

Definition env (h : host) (st : settings) (env_arg extend_env : option loc)
  : M world dict :=
  updated_env <- base_env h st env_arg ;;
  extend_in_place st updated_env extend_env ;;;
  d <- deref updated_env ;;
  lift (encode_items (encoder h) (PyDict.items d) PyDict.empty).

(** ** Codecs *)

Definition is_ascii (c : ascii) : bool := Nat.ltb (nat_of_ascii c) 128.

(** [codecs.getencoder("ascii")]: a code point from 128 on cannot be
    encoded, and the failure of an encoder is a [UnicodeEncodeError]. *)
Definition ascii_encoder (text : string) : result bytes :=
  if all_chars is_ascii text then Ok text else Raise UnicodeEncodeError.

(** [text.encode("utf-8")] on code points below 256 *)
Fixpoint utf8_encode (text : string) : bytes :=
  match text with
  | EmptyString => EmptyString
  | String c r =>
      let n := nat_of_ascii c in
      if Nat.ltb n 128 then String c (utf8_encode r)
      else String (chr (192 + n / 64)) (String (chr (128 + n mod 64)) (utf8_encode r))
  end.

(** [data.decode("utf-8")]; a well-formed sequence for a code point from 256
    on has no image in [string]. *)
Fixpoint utf8_decode (data : bytes) : result string :=
  match data with
  | EmptyString => Ok EmptyString
  | String b r =>
      let n := nat_of_ascii b in
      if Nat.ltb n 128 then rbind (utf8_decode r) (fun s => Ok (String b s))
      else if Nat.leb 194 n && Nat.leb n 195 then
        match r with
        | String b2 r' =>
            let m := nat_of_ascii b2 in
            if Nat.leb 128 m && Nat.leb m 191 then
              rbind (utf8_decode r')
                    (fun s => Ok (String (chr ((n - 192) * 64 + (m - 128))) s))
            else Raise UnicodeDecodeError
        | EmptyString => Raise UnicodeDecodeError
        end
      else if Nat.leb 196 n && Nat.leb n 244 then Raise OutsideModel
      else Raise UnicodeDecodeError
  end.

(** ** [SubprocessRepl.__init__] *)

Record repl : Type := {
  _autocomplete_server : bool;         (* whether a server object is held *)
  _filt_warns : bool;
  _cmd : command;
  _soft_quit : string;
  _killed : bool;
  popen : nat;                         (* handle of the primary process *)
  filt : nat                           (* handle of the filter; the primary's when there is none *)
}.

(** [cmd[0]] *)
Definition command_head (cmd : command) : result string :=
  match cmd with
  | CmdNone => Raise TypeError
  | CmdStr EmptyString => Raise IndexError
  | CmdStr (String c _) => Ok (str1 c)
  | CmdList [] => Raise IndexError
  | CmdList (a :: _) => Ok a
  end.

(** [cmd[1:]] of a list *)
Definition command_tail (cmd : command) : list string :=
  match cmd with
  | CmdList (_ :: rest) => rest
  | _ => []
  end.

(** [SubprocessRepl.cmd] *)
Definition cmd (h : host) (c : command) (env : dict) : result command :=
  if negb (NT h) then Ok c
  else
    let _cmd := match c with
                | CmdStr s => Ok [s]
                | CmdList l => Ok l
                | CmdNone => Raise TypeError
                end in
    rbind _cmd (fun argv =>
    match argv with
    | [] => Raise IndexError
    | first :: rest =>
        match win_find_executable (os_path h) (path_exists h) first env with
        | Some executable =>
            if nonempty executable then Ok (CmdList (executable :: rest))
            else Ok (CmdList argv)
        | None => Ok (CmdList argv)
        end
    end).

(** [SubprocessRepl.cwd] *)
Definition cwd (h : host) (dir : option string) : option string :=
  match dir with
  | Some d => if nonempty d && path_exists h d then Some d else None
  | None => None
  end.

(** the loop that turns the bytes environment back into strings *)
Fixpoint decode_items (items : list (string * string)) (strings_env : dict)
  : result dict :=
  match items with
  | [] => Ok strings_env
  | (k, v) :: rest =>
      rbind (utf8_decode k) (fun dk =>
      rbind (utf8_decode v) (fun dv =>
      decode_items rest (PyDict.set strings_env dk dv)))
  end.

(** [Popen(...)]: a new child, running, with empty pipes *)
Definition spawn (h : host) (c : command) (e : event) : M world nat :=
  if can_spawn h c then
    emit e ;;;
    (fun w => (Ok (length (procs w)),
               set_procs (procs w ++ [{| exited := false;
                                         stdin_received := EmptyString;
                                         stdout_pending := EmptyString |}])%list w))
  else raise OSError.

Definition SubprocessRepl_init (h : host) (st : settings)
           (cmd_arg : command) (env_arg : option loc) (cwd_arg : option string)
           (extend_env : option loc) (soft_quit : string)
           (autocomplete_server filt_warns : bool) : M world repl :=
  first <- lift (command_head cmd_arg) ;;
  if String.eqb first "[unsupported]" then
    raise (Unsupported (command_tail cmd_arg))
  else
    (if autocomplete_server then emit StartedAutocomplete else ret tt) ;;;
    e <- env h st env_arg extend_env ;;
    let port := if autocomplete_server then autocomplete_port h else "None" in
    let e := PyDict.set e "SUBLIMEREPL_AC_PORT" (utf8_encode port) in
    let e := PyDict.set e "SUBLIMEREPL_AC_IP"
                        (utf8_encode (autocomplete_server_ip st)) in
    e <- (if PY3 h then lift (decode_items (PyDict.items e) PyDict.empty)
          else ret e) ;;
    c <- lift (cmd h cmd_arg e) ;;
    p <- spawn h c (Spawned c (cwd h cwd_arg) e) ;;
    f <- (if filt_warns
          then spawn h (CmdStr "cat") (SpawnedFilter (cwd h cwd_arg) e)
          else ret p) ;;
    ret {| _autocomplete_server := autocomplete_server;
           _filt_warns := filt_warns;
           _cmd := c;
           _soft_quit := soft_quit;
           _killed := false;
           popen := p;
           filt := f |}.

(** ** Reading, writing and killing *)

(** A REPL object together with the world it lives in. *)
Record session : Type := {
  self : repl;
  os : world
}.

Definition in_world {A} (m : M world A) : M session A :=
  fun s =>
    let (r, w) := m (os s) in
    (r, {| self := self s; os := w |}).

Definition get_proc (pid : nat) : M world proc :=
  fun w =>
    match nth_error (procs w) pid with
    | Some p => (Ok p, w)
    | None => (Raise OutsideModel, w)
    end.

Definition put_proc (pid : nat) (p : proc) : M world unit :=
  modify (fun w => set_procs (list_set pid p (procs w)) w).

(** [out.read(1)] on a blocking pipe: the next byte, or nothing once the
    stream is closed and drained.  The non-POSIX branch of [read_bytes]
    repeats it while the byte is a carriage return. *)
Fixpoint read_skipping_cr (stream : bytes) : bytes * bytes :=
  match stream with
  | EmptyString => (EmptyString, EmptyString)
  | String byte rest =>
      if Ascii.eqb byte CR then read_skipping_cr rest
      else (str1 byte, rest)
  end.

(** [k] carriage returns *)
Fixpoint cr_run (k : nat) : bytes :=
  match k with
  | O => EmptyString
  | S j => String CR (cr_run j)
  end.

(** [SubprocessRepl.read_bytes].  What the POSIX branch returns depends on
    how much the descriptor holds when [select] reports it ready, which the
    embedding does not describe. *)
Definition read_bytes (h : host) : M session bytes :=
  if POSIX h then raise OutsideModel
  else
    r <- gets self ;;
    in_world (p <- get_proc (filt r) ;;
              let (byte, rest) := read_skipping_cr (stdout_pending p) in
              put_proc (filt r) {| exited := exited p;
                                   stdin_received := stdin_received p;
                                   stdout_pending := rest |} ;;;
              ret byte).

(** a process after [data] has reached its standard input *)
Definition receive (p : proc) (data : bytes) : proc :=
  {| exited := exited p;
     stdin_received := stdin_received p ++ data;
     stdout_pending := stdout_pending p |}.

(** a process after it has been killed *)
Definition mark_exited (p : proc) : proc :=
  {| exited := true;
     stdin_received := stdin_received p;
     stdout_pending := stdout_pending p |}.

(** [si.write(bytes); si.flush()] on the primary's input pipe.  Nothing is
    sent for an empty payload; sending to a process that has exited fails
    with a broken pipe. *)
Definition write_bytes (data : bytes) : M session unit :=
  r <- gets self ;;
  in_world (p <- get_proc (popen r) ;;
            if nonempty data then
              if exited p then raise BrokenPipeError
              else put_proc (popen r) (receive p data)
            else ret tt).

(** the errors of a write to a pipe: [BrokenPipeError] is an [OSError] *)
Definition is_write_error (e : exn) : bool :=
  match e with
  | BrokenPipeError | OSError => true
  | _ => false
  end.

(** [try: m  except OSError: pass] *)
Definition ignoring_write_errors (m : M session unit) : M session unit :=
  fun s =>
    match m s with
    | (Ok a, s') => (Ok a, s')
    | (Raise e, s') => if is_write_error e then (Ok tt, s') else (Raise e, s')
    end.

(** Modelled from the spec: [Repl.write], defined in the base class outside
    this file.  The soft-quit payload is written "to the primary's input
    (best-effort, ignore write errors since the process may already be
    exiting)".  [kill] and [write_bytes] below have no handler of their own,
    so it is this method that encodes the text with the REPL's encoder, hands
    the bytes to [write_bytes] and ignores an error of the write.  An error
    of the encoder is not an error of the write and is not ignored. *)
Definition write (h : host) (text : string) : M session unit :=
  data <- lift (encoder h text) ;;
  ignoring_write_errors (write_bytes data).

(** Modelled from the spec: [Popen.kill] of killableprocess, outside this
    file; it "force-kills" the process, and is taken not to fail on a
    process that is already gone. *)
Definition proc_kill (pid : nat) : M world unit :=
  p <- get_proc pid ;;
  put_proc pid (mark_exited p).

Definition set_killed (b : bool) : M session unit :=
  modify (fun s =>
    {| self := {| _autocomplete_server := _autocomplete_server (self s);
                  _filt_warns := _filt_warns (self s);
                  _cmd := _cmd (self s);
                  _soft_quit := _soft_quit (self s);
                  _killed := b;
                  popen := popen (self s);
                  filt := filt (self s) |};
       os := os s |}).

(** [SubprocessRepl.kill] *)
Definition kill (h : host) : M session unit :=
  set_killed true ;;;
  r <- gets self ;;
  write h (_soft_quit r) ;;;
  in_world (proc_kill (popen r)) ;;;
  if _filt_warns r then in_world (proc_kill (filt r)) else ret tt.

(** the session once the flag is set *)
Definition flagged (s : session) : session :=
  snd (set_killed true s).

(** a computation that leaves the REPL object as it is, whatever it returns *)
Definition keeps_self {A} (m : M session A) : Prop :=
  forall s, self (snd (m s)) = self s.

(** [SubprocessRepl.is_alive] *)
Definition is_alive : M session bool :=
  r <- gets self ;;
  p <- in_world (get_proc (popen r)) ;;
  let a := negb (exited p) in
  b <- (if _filt_warns r
        then (f <- in_world (get_proc (filt r)) ;; ret (negb (exited f)))
        else ret true) ;;
  ret (a && b).

(** ** [SubprocessReplVenv] *)

(** [sorted(set(xs))] *)
Fixpoint insert_unique (x : string) (l : list string) : list string :=
  match l with
  | [] => [x]
  | y :: r =>
      if String.eqb x y then l
      else if String.ltb x y then x :: l
      else y :: insert_unique x r
  end.

Definition sorted_set (xs : list string) : list string :=
  fold_right insert_unique [] xs.

(** [SubprocessReplVenv.scan_for_virtualenvs] *)
Definition scan_for_virtualenvs (h : host) (venv_paths : list string)
           (conda_min : nat) : list string :=
  let P := os_path h in
  let bin_dir := if NT h then "Scripts" else "bin" in
  sorted_set
    (flat_map
       (fun venv_path =>
          let p := expanduser h venv_path in
          if Nat.eqb conda_min 3 then
            map (dirname P)
                (glob h (path_join P (path_join P (path_join P p "*") bin_dir)
                                   "activate"))
          else glob h (path_join P (path_join P p "*") bin_dir))
       venv_paths).

(** [{basename(dirname(d)): d for d in scan_for_virtualenvs(venv_paths)}] *)
Definition venvs_bin_dir (h : host) (st : settings) : dict :=
  PyDict.of_pairs
    (map (fun d => (basename (os_path h) (dirname (os_path h) d), d))
         (scan_for_virtualenvs h (python_virtualenv_paths st) 4)).

(** [{k: join(v, 'wrappers/conda') for k, v in venvs_bin_dir.items()}]; the
    keys of a dict are distinct, so the comprehension maps over its items *)
Definition wrappers_dir (h : host) (st : settings) : dict :=
  map (fun kv => (fst kv, path_join (os_path h) (snd kv) "wrappers/conda"))
      (PyDict.items (venvs_bin_dir h st)).

(** the dict that [shell_source] builds: every line must split in two *)
Fixpoint pairs_of_lines (lines : list string) : result (list (string * string)) :=
  match lines with
  | [] => Ok []
  | line :: rest =>
      match split1 "=" line with
      | (key, Some value) =>
          rbind (pairs_of_lines rest) (fun pairs => Ok ((key, value) :: pairs))
      | (_, None) => Raise ValueError   (* dictionary update sequence element has length 1 *)
      end
  end.

Definition parse_source_output (output : string) : result dict :=
  rbind (pairs_of_lines (splitlines output))
        (fun pairs => Ok (PyDict.of_pairs pairs)).

(** [SubprocessReplVenv.shell_source]: one login shell per call *)
Definition shell_source (h : host) (script py_ver : string) : M world dict :=
  emit (RanSource script py_ver) ;;;
  lift (parse_source_output (source_stdout h script py_ver)).

Definition cache_set (version : string) (d : dict) : M world unit :=
  modify (fun w => set_cache (PyDict.set (VENVS_ENVIRON w) version d) w).

(** the directory whose [activate] script is sourced for [version] *)
Definition activate_dir (h : host) (st : settings) (version : string)
  : result string :=
  if Nat.eqb (conda_minor st) 3 then
    getitem (venvs_bin_dir h st) version
  else
    match python_virtualenv_paths st with
    | [] => Raise IndexError             (* venv_paths[0] *)
    | root :: _ => Ok (path_join (os_path h) (dirname (os_path h) root) "bin")
    end.

(** the body of the loop [for version in venvs_bin_dir.keys()] *)
Definition source_version (h : host) (st : settings) (version : string)
  : M world unit :=
  dir <- lift (activate_dir h st version) ;;
  d <- shell_source h (path_join (os_path h) dir "activate") version ;;
  cache_set version d.

Definition is_root_or_base (py_ver : string) : bool :=
  String.eqb py_ver "root" || String.eqb py_ver "base".

Definition option_truthy (o : option string) : bool :=
  match o with
  | Some s => nonempty s
  | None => false
  end.

(** Lines 369-375 of [SubprocessReplVenv.__init__]: the two defaults are
    written into the caller's [extend_env], and the version tag is read back
    from it. *)
Definition default_extend_keys (le : loc) : M world string :=
  e <- deref le ;;
  (if PyDict.mem e "PY_VERSION" then ret tt
   else setitem le "PY_VERSION" "py3") ;;;
  e <- deref le ;;
  (if PyDict.mem e "PYTHONIOENCODING" then ret tt
   else setitem le "PYTHONIOENCODING" "utf-8") ;;;
  e <- deref le ;;
  lift (getitem e "PY_VERSION").

(** what [default_extend_keys] leaves in the dict, and the tag it reads *)
Definition with_venv_defaults (e : dict) : dict :=
  let e1 := if PyDict.mem e "PY_VERSION" then e
            else PyDict.set e "PY_VERSION" "py3" in
  if PyDict.mem e1 "PYTHONIOENCODING" then e1
  else PyDict.set e1 "PYTHONIOENCODING" "utf-8".

Definition requested_version (e : dict) : string :=
  match PyDict.get e "PY_VERSION" with
  | Some v => v
  | None => "py3"
  end.

(** Lines 379-382: the wrapper branch. *)
Definition prepend_wrappers (h : host) (st : settings) (conda_env : loc)
           (py_ver : string) : M world unit :=
  ce <- deref conda_env ;;
  old <- lift (getitem ce "PATH") ;;
  let path := split ":" old in
  w <- lift (getitem (wrappers_dir h st) py_ver) ;;
  let path := list_insert 0 w path in
  b <- lift (getitem (venvs_bin_dir h st) py_ver) ;;
  let path := list_insert 1 b path in
  setitem conda_env "PATH" (join ":" path).

(** Lines 387-397: the cache is filled unless it holds the tag and no
    re-sourcing is forced. *)
Definition fill_cache (h : host) (st : settings) (py_ver : string) : M world unit :=
  cache <- gets VENVS_ENVIRON ;;
  match PyDict.get cache py_ver with
  | Some _ =>
      if force_source st
      then for_each (PyDict.keys (venvs_bin_dir h st)) (source_version h st)
      else ret tt
  | None =>
      for_each (PyDict.keys (venvs_bin_dir h st)) (source_version h st)
  end.

(** Line 400: the cached environment of the tag is interpolated against the
    base and merged into it. *)
Definition merge_cached (conda_env : loc) (py_ver : string) : M world unit :=
  cache <- gets VENVS_ENVIRON ;;
  delta <- lift (getitem cache py_ver) ;;
  ce <- deref conda_env ;;
  new_env <- lift (interpolate_extend_env ce delta) ;;
  update_in_place conda_env new_env.

(** [SubprocessReplVenv.__init__] up to the call of the parent constructor:
    the environment object that is handed on.  The default value of
    [extend_env] is one dict object made when the class is defined; a caller
    that leaves the argument out passes the location of that object. *)
Definition SubprocessReplVenv_resolve (h : host) (st : settings)
           (env_arg extend_env : option loc) : M world loc :=
  conda_env <- base_env h st env_arg ;;
  match extend_env with
  | None => raise TypeError            (* 'PY_VERSION' not in None *)
  | Some le =>
      py_ver <- default_extend_keys le ;;
      (if use_wrapped st && option_truthy (PyDict.get (wrappers_dir h st) py_ver)
       then prepend_wrappers h st conda_env py_ver
       else if negb (is_root_or_base py_ver) then
         fill_cache h st py_ver ;;;
         merge_cached conda_env py_ver
       else ret tt) ;;;
      ret conda_env
  end.

Definition SubprocessReplVenv_init (h : host) (st : settings)
           (cmd_arg : command) (env_arg : option loc) (cwd_arg : option string)
           (extend_env : option loc) (soft_quit : string)
           (autocomplete_server filt_warns : bool) : M world repl :=
  conda_env <- SubprocessReplVenv_resolve h st env_arg extend_env ;;
  ce <- deref conda_env ;;
  _ <- lift (getitem ce "PATH") ;;     (* print('PATH used:', conda_env['PATH']) *)
  SubprocessRepl_init h st cmd_arg (Some conda_env) cwd_arg extend_env
                      soft_quit autocomplete_server filt_warns.

(** the number of login shells started for sourcing in a trace *)
Definition is_source (e : event) : bool :=
  match e with
  | RanSource _ _ => true
  | _ => false
  end.

Definition sourcing_count (w : world) : nat :=
  length (filter is_source (events w)).

(** the number of subprocesses of any kind started in a trace *)
Definition is_subprocess (e : event) : bool :=
  match e with
  | RanGetenv _ | RanSource _ _ | Spawned _ _ _ | SpawnedFilter _ _ => true
  | ShowedError | StartedAutocomplete => false
  end.

Definition subprocess_count (w : world) : nat :=
  length (filter is_subprocess (events w)).

(** ** Footprints in the store *)

(** [m] allocates nothing and writes to no dict object outside [ls],
    whether it returns or raises. *)
Definition writes_within {A} (ls : list loc) (m : M world A) : Prop :=
  forall w,
    length (heap (snd (m w))) = length (heap w)
    /\ forall j, ~ In j ls -> nth_error (heap (snd (m w))) j = nth_error (heap w) j.

(** [m] starts no login shell for sourcing and leaves the cache alone,
    whether it returns or raises. *)
Definition no_sourcing {A} (m : M world A) : Prop :=
  forall w,
    sourcing_count (snd (m w)) = sourcing_count w
    /\ VENVS_ENVIRON (snd (m w)) = VENVS_ENVIRON w.

(** sourcing for [version] goes through: the script is located and the dump
    it prints splits into pairs *)
Definition sources_cleanly (h : host) (st : settings) (version : string) : Prop :=
  exists dir d,
    activate_dir h st version = Ok dir
    /\ parse_source_output
         (source_stdout h (path_join (os_path h) dir "activate") version) = Ok d.

(** ** Sample hosts, used to run the definitions on concrete inputs *)

Module Sample.

(** a home directory for [~] *)
Definition home_expanduser (p : string) : string :=
  match p with
  | String "~" rest => "/home/sam" ++ rest
  | _ => p
  end.

(** what sourcing the activation script of [py_ver] prints *)
Definition activation_output (script py_ver : string) : string :=
  "VIRTUAL_ENV=/home/sam/envs/" ++ py_ver ++ str1 LF
  ++ "PATH=/home/sam/envs/" ++ py_ver ++ "/bin:/usr/bin" ++ str1 LF.

(** a POSIX host whose disk holds the environments [found] under ~/envs *)
Definition posix_host (found : list string) : host := {|
  POSIX := true;
  NT := false;
  PY3 := true;
  os_path := posixpath;
  os_environ := [("PATH", "/usr/bin"); ("HOME", "/home/sam")];
  path_exists := fun _ => false;
  expanduser := home_expanduser;
  glob := fun pattern =>
            if String.eqb pattern "/home/sam/envs/*/bin" then found else [];
  encoder := ascii_encoder;
  getenv_output := fun _ => None;
  source_stdout := activation_output;
  autocomplete_port := "0";
  can_spawn := fun _ => true
|}.

Definition one_env_host : host := posix_host ["/home/sam/envs/py3/bin"].

Definition two_env_host : host :=
  posix_host ["/home/sam/envs/py3/bin"; "/home/sam/envs/py2/bin"].

(** a non-POSIX host *)
Definition windows_host : host := {|
  POSIX := false;
  NT := true;
  PY3 := true;
  os_path := posixpath;
  os_environ := [("PATH", "/usr/bin"); ("PATHEXT", ".EXE")];
  path_exists := String.eqb "/usr/bin/python.EXE";
  expanduser := home_expanduser;
  glob := fun _ => [];
  encoder := ascii_encoder;
  getenv_output := fun _ => None;
  source_stdout := activation_output;
  autocomplete_port := "0";
  can_spawn := fun _ => true
|}.

Definition sample_settings (wrapped : bool) : settings := {|
  getenv_command := [];
  default_extend_env := [];
  autocomplete_server_ip := "127.0.0.1";
  python_virtualenv_paths := ["~/envs"];
  use_wrapped := wrapped;
  force_source := false;
  conda_minor := 3;
  debug := false
|}.

(** a world that holds the given dict objects and nothing else *)
Definition world_of (objects : list dict) : world := {|
  heap := objects;
  VENVS_ENVIRON := [];
  events := [];
  procs := []
|}.

(** base [{"NAME": "sam"}] at location 0, extension templates
    [{"GREETING": "hi {NAME}"}] at location 1 *)
Definition greeting_world : world :=
  world_of [[("NAME", "sam")]; [("GREETING", "hi {NAME}")]].

(** base [{"PATH": "/usr/bin"}] at location 0 and an extend_env that asks
    for [py3] at location 1 *)
Definition venv_world : world :=
  world_of [[("PATH", "/usr/bin")]; [("PY_VERSION", "py3")]].

(** a host like [h] whose sourcing prints [output] for every script *)
Definition printing (h : host) (output : string) : host := {|
  POSIX := POSIX h;
  NT := NT h;
  PY3 := PY3 h;
  os_path := os_path h;
  os_environ := os_environ h;
  path_exists := path_exists h;
  expanduser := expanduser h;
  glob := glob h;
  encoder := encoder h;
  getenv_output := getenv_output h;
  source_stdout := fun _ _ => output;
  autocomplete_port := autocomplete_port h;
  can_spawn := can_spawn h
|}.

(** settings whose default templates give A = "{HOME}/a" *)
Definition settings_with_defaults : settings := {|
  getenv_command := [];
  default_extend_env := [("A", "{HOME}/a")];
  autocomplete_server_ip := "127.0.0.1";
  python_virtualenv_paths := ["~/envs"];
  use_wrapped := false;
  force_source := false;
  conda_minor := 3;
  debug := false
|}.

(** base [{"HOME": "/h", "B": "old"}] at location 0, caller templates
    [{"B": "{A}:{B}"}] at location 1 *)
Definition phases_world : world :=
  world_of [[("HOME", "/h"); ("B", "old")]; [("B", "{A}:{B}")]].

(** the dump FOO=bar / baz / QUX=1 *)
Definition multiline_dump : string :=
  "FOO=bar" ++ str1 LF ++ "baz" ++ str1 LF ++ "QUX=1".

(** a process whose output still holds \r \n o k *)
Definition crlf_proc : proc := {|
  exited := false;
  stdin_received := EmptyString;
  stdout_pending := String CR (String LF "ok")
|}.

(** a REPL without filter that reads from [crlf_proc] *)
Definition reading_session : session := {|
  self := {| _autocomplete_server := false;
             _filt_warns := false;
             _cmd := CmdList ["python"];
             _soft_quit := EmptyString;
             _killed := false;
             popen := 0;
             filt := 0 |};
  os := {| heap := []; VENVS_ENVIRON := []; events := [];
           procs := [crlf_proc] |}
|}.

(** a REPL whose primary process is running, with a soft-quit payload *)
Definition running_session (soft_quit : string) (filtered : bool) : session := {|
  self := {| _autocomplete_server := false;
             _filt_warns := filtered;
             _cmd := CmdList ["python"];
             _soft_quit := soft_quit;
             _killed := false;
             popen := 0;
             filt := if filtered then 1 else 0 |};
  os := {| heap := [];
           VENVS_ENVIRON := [];
           events := [];
           procs := [{| exited := false; stdin_received := EmptyString;
                        stdout_pending := EmptyString |};
                     {| exited := false; stdin_received := EmptyString;
                        stdout_pending := EmptyString |}] |}
|}.

End Sample.

(** ** Further methods and helpers *)

(** [SubprocessRepl.available_signals]: the loop over the items of
    [signal.__dict__], which keeps the names that start with SIG *)
Fixpoint collect_signals {V} (items : list (string * V)) (signals : PyDict.t V)
  : PyDict.t V :=
  match items with
  | [] => signals
  | (k, v) :: rest =>
      if negb (String.prefix "SIG" k) then collect_signals rest signals
      else collect_signals rest (PyDict.set signals k v)
  end.

Definition available_signals {V} (signal_dict : PyDict.t V) : PyDict.t V :=
  collect_signals (PyDict.items signal_dict) PyDict.empty.

(** [signal.SIGTERM] *)
Definition SIGTERM : nat := 15.

(** A session together with the signals handed to its processes, oldest
    first, each with the handle it went to. *)
Record signalling : Type := {
  target : session;
  delivered : list (nat * nat)
}.

Definition in_session {A} (m : M session A) : M signalling A :=
  fun s =>
    let (r, t) := m (target s) in
    (r, {| target := t; delivered := delivered s |}).

(** Modelled from the spec: [Popen.send_signal] of killableprocess, outside
    this file; the signal is "delivered" to the process, which is recorded. *)
Definition deliver (pid sig : nat) : M signalling unit :=
  modify (fun s => {| target := target s;
                      delivered := (delivered s ++ [(pid, sig)])%list |}).

(** [SubprocessRepl.send_signal] *)
Definition send_signal (sig : nat) : M signalling unit :=
  (if Nat.eqb sig SIGTERM then in_session (set_killed true) else ret tt) ;;;
  alive <- in_session is_alive ;;
  if alive then
    r <- gets (fun s => self (target s)) ;;
    deliver (popen r) sig ;;;
    if _filt_warns r then deliver (filt r) sig else ret tt
  else ret tt.

(** the bytes of a stream that are not carriage returns *)
Fixpoint remove_cr (stream : bytes) : bytes :=
  match stream with
  | EmptyString => EmptyString
  | String c rest =>
      if Ascii.eqb c CR then remove_cr rest else String c (remove_cr rest)
  end.

(** at most [n] calls of [read_bytes], stopping at the first empty result,
    with what they returned put together *)
Fixpoint read_many (h : host) (n : nat) : M session bytes :=
  match n with
  | O => ret EmptyString
  | S k =>
      b <- read_bytes h ;;
      if nonempty b then (rest <- read_many h k ;; ret (b ++ rest))
      else ret EmptyString
  end.

(** each element is below the next one *)
Fixpoint ascending (l : list string) : Prop :=
  match l with
  | [] => True
  | x :: r =>
      match r with
      | [] => True
      | y :: _ => String.ltb x y = true
      end /\ ascending r
  end.

(** what one root contributes to [found_dirs] in [scan_for_virtualenvs] *)
Definition globbed_dirs (h : host) (conda_min : nat) (venv_path : string)
  : list string :=
  let P := os_path h in
  let bin_dir := if NT h then "Scripts" else "bin" in
  let p := expanduser h venv_path in
  if Nat.eqb conda_min 3 then
    map (dirname P)
        (glob h (path_join P (path_join P (path_join P p "*") bin_dir) "activate"))
  else glob h (path_join P (path_join P p "*") bin_dir).

(** the tag of a binary directory: the name of the directory above it *)
Definition tag_of (h : host) (bin_directory : string) : string :=
  basename (os_path h) (dirname (os_path h) bin_directory).

(** the pairs that [env] keeps: those whose key and value both encode *)
Definition encoded_pairs (enc : string -> result bytes)
           (items : list (string * string)) : list (string * string) :=
  flat_map (fun kv =>
              match enc (fst kv), enc (snd kv) with
              | Ok a, Ok b => [(a, b)]
              | _, _ => []
              end) items.

(** the encoder answers, or fails with the error that [env] catches *)
Definition encodes_or_decode_error (enc : string -> result bytes) (text : string)
  : Prop :=
  match enc text with
  | Ok _ => True
  | Raise UnicodeDecodeError => True
  | Raise _ => False
  end.

(** whether a dump line holds an equals sign *)
Definition has_equals (line : string) : bool :=
  match snd (split1 "=" line) with
  | Some _ => true
  | None => false
  end.

(** the process that [spawn] adds to the table *)
Definition fresh_proc : proc :=
  {| exited := false;
     stdin_received := EmptyString;
     stdout_pending := EmptyString |}.

(** [m] leaves one part of the world alone, whether it returns or raises *)
Definition keeps {X A} (part : world -> X) (m : M world A) : Prop :=
  forall w, part (snd (m w)) = part w.

(** what [getenv] records when it is called: the login shell when a command
    is configured on POSIX, and the error message when that failed *)
Definition getenv_events (h : host) (st : settings) (shown : bool) : list event :=
  if list_truthy (getenv_command st) && POSIX h
  then RanGetenv (getenv_command st) :: (if shown then [ShowedError] else [])
  else [].

Module Case.

(** an encoder that fails the way a Python 2 codec fails on a byte string
    that is not ASCII *)
Definition strict_bytes_encoder (text : string) : result bytes :=
  if all_chars is_ascii text then Ok text else Raise UnicodeDecodeError.

(** settings with default templates and forced re-sourcing *)
Definition forcing_settings : settings := {|
  getenv_command := [];
  default_extend_env := [];
  autocomplete_server_ip := "127.0.0.1";
  python_virtualenv_paths := ["~/envs"];
  use_wrapped := false;
  force_source := true;
  conda_minor := 3;
  debug := false
|}.

(** two roots that both hold an environment called py3 *)
Definition two_roots_settings : settings := {|
  getenv_command := [];
  default_extend_env := [];
  autocomplete_server_ip := "127.0.0.1";
  python_virtualenv_paths := ["~/envs"; "~/other"];
  use_wrapped := false;
  force_source := false;
  conda_minor := 4;
  debug := false
|}.

Definition two_roots_host : host := {|
  POSIX := true;
  NT := false;
  PY3 := true;
  os_path := posixpath;
  os_environ := [("PATH", "/usr/bin")];
  path_exists := fun _ => false;
  expanduser := Sample.home_expanduser;
  glob := fun pattern =>
            if String.eqb pattern "/home/sam/other/*/bin"
            then ["/home/sam/other/py3/bin"]
            else if String.eqb pattern "/home/sam/envs/*/bin"
            then ["/home/sam/envs/py3/bin"; "/home/sam/envs/py2/bin"]
            else [];
  encoder := ascii_encoder;
  getenv_output := fun _ => None;
  source_stdout := Sample.activation_output;
  autocomplete_port := "0";
  can_spawn := fun _ => true
|}.

(** base HOME = /h at location 0, caller templates that name a variable
    nobody defines at location 1 *)
Definition missing_name_world : world :=
  Sample.world_of [[("HOME", "/h")]; [("B", "{MISSING}")]].

(** a base without PATH at location 0 and a request for the root
    environment at location 1 *)
Definition pathless_root_world : world :=
  Sample.world_of [[("HOME", "/h")]; [("PY_VERSION", "root")]].

(** a request for an environment that is not on disk *)
Definition unknown_tag_world : world :=
  Sample.world_of [[("PATH", "/usr/bin")]; [("PY_VERSION", "py9")]].

(** a world whose cache already holds py3 *)
Definition cached_world : world := {|
  heap := [[("PATH", "/usr/bin")]; [("PY_VERSION", "py3")]];
  VENVS_ENVIRON := [("py3", [("OLD", "1")])];
  events := [];
  procs := []
|}.

(** a few names of the signal module *)
Definition signal_names : PyDict.t nat :=
  [("SIGINT", 2); ("Signals", 0); ("SIGTERM", 15); ("signal", 1)].

(** a signalling state around a running, filtered REPL *)
Definition quiet_signalling : signalling := {|
  target := Sample.running_session "quit" true;
  delivered := []
|}.

(** settings that take the base environment from a login shell *)
Definition login_settings : settings := {|
  getenv_command := ["/bin/bash"; "--login"; "-c"; "env"];
  default_extend_env := [];
  autocomplete_server_ip := "127.0.0.1";
  python_virtualenv_paths := [];
  use_wrapped := false;
  force_source := false;
  conda_minor := 3;
  debug := false
|}.

(** a POSIX host whose login shell prints two variables *)
Definition login_host : host := {|
  POSIX := true;
  NT := false;
  PY3 := true;
  os_path := posixpath;
  os_environ := [("PATH", "/usr/bin")];
  path_exists := fun _ => false;
  expanduser := Sample.home_expanduser;
  glob := fun _ => [];
  encoder := ascii_encoder;
  getenv_output := fun _ => Some ("PATH=/usr/bin" ++ str1 LF ++ "HOME=/home/sam");
  source_stdout := Sample.activation_output;
  autocomplete_port := "0";
  can_spawn := fun _ => true
|}.

End Case.

(** * Properties *)

(** ** Strings *)

Lemma append_nil_r (s : string) : s ++ EmptyString = s.
Proof. induction s as [|c r IH]; simpl; [reflexivity|now rewrite IH]. Qed.

Lemma append_assoc (a b c : string) : (a ++ b) ++ c = a ++ (b ++ c).
Proof. induction a as [|x r IH]; simpl; [reflexivity|now rewrite IH]. Qed.

(** ** Dictionaries and the store *)

Lemma get_set_same {V} (d : PyDict.t V) k v :
  PyDict.get (PyDict.set d k v) k = Some v.
Proof.
  induction d as [|[k' v'] r IH]; simpl.
  - now rewrite String.eqb_refl.
  - destruct (String.eqb k' k) eqn:E; simpl.
    + now rewrite String.eqb_refl.
    + now rewrite E.
Qed.

Lemma get_set_other {V} (d : PyDict.t V) k k' v :
  k <> k' -> PyDict.get (PyDict.set d k v) k' = PyDict.get d k'.
Proof.
  intros N. induction d as [|[k0 v0] r IH]; simpl.
  - destruct (String.eqb k k') eqn:E; [apply String.eqb_eq in E; contradiction|reflexivity].
  - destruct (String.eqb k0 k) eqn:E; simpl.
    + apply String.eqb_eq in E; subst k0.
      destruct (String.eqb k k') eqn:E'; [apply String.eqb_eq in E'; contradiction|reflexivity].
    + destruct (String.eqb k0 k'); [reflexivity|exact IH].
Qed.

Lemma get_none_not_in {V} (d : PyDict.t V) k :
  ~ In k (PyDict.keys d) -> PyDict.get d k = None.
Proof.
  induction d as [|[k' v'] r IH]; simpl; intros N; [reflexivity|].
  destruct (String.eqb k' k) eqn:E.
  - apply String.eqb_eq in E. exfalso. apply N. now left.
  - apply IH. intros I. apply N. now right.
Qed.

Lemma keys_set {V} (d : PyDict.t V) k v x :
  In x (PyDict.keys (PyDict.set d k v)) <-> x = k \/ In x (PyDict.keys d).
Proof.
  induction d as [|[k' v'] r IH]; simpl.
  - intuition.
  - destruct (String.eqb k' k) eqn:E; simpl.
    + apply String.eqb_eq in E; subst. intuition.
    + rewrite IH. intuition.
Qed.

Lemma nodup_keys_set {V} (d : PyDict.t V) k v :
  NoDup (PyDict.keys d) -> NoDup (PyDict.keys (PyDict.set d k v)).
Proof.
  induction d as [|[k' v'] r IH]; simpl; intros N.
  - constructor; [intros []|constructor].
  - inversion N as [|? ? NI N']; subst.
    destruct (String.eqb k' k) eqn:E; simpl.
    + apply String.eqb_eq in E; subst. now constructor.
    + constructor; [|auto].
      intros I. apply keys_set in I. destruct I as [I|I]; [|contradiction].
      subst. now rewrite String.eqb_refl in E.
Qed.

(** [update] lets the entries of a well-formed [e] win over those of [d]. *)
Lemma get_update {V} (e d : PyDict.t V) k :
  NoDup (PyDict.keys e) ->
  PyDict.get (PyDict.update d e) k =
    match PyDict.get e k with
    | Some v => Some v
    | None => PyDict.get d k
    end.
Proof.
  unfold PyDict.update. revert d.
  induction e as [|[k' v'] r IH]; simpl; intros d N; [reflexivity|].
  inversion N as [|? ? NI N']; subst.
  rewrite IH by assumption.
  destruct (String.eqb k' k) eqn:E.
  - apply String.eqb_eq in E; subst.
    rewrite (get_none_not_in r k NI). apply get_set_same.
  - destruct (PyDict.get r k); [reflexivity|].
    apply get_set_other. intros ->. now rewrite String.eqb_refl in E.
Qed.

Lemma nth_error_list_set_same {A} (l : list A) i x y :
  nth_error l i = Some y -> nth_error (list_set i x l) i = Some x.
Proof.
  revert i. induction l as [|a r IH]; intros [|i]; simpl; try discriminate; auto.
Qed.

Lemma nth_error_list_set_other {A} (l : list A) i j x :
  i <> j -> nth_error (list_set i x l) j = nth_error l j.
Proof.
  revert i j. induction l as [|a r IH]; intros [|i] [|j] N; simpl; auto.
  contradiction.
Qed.

Lemma list_set_twice {A} (l : list A) i x y :
  list_set i x (list_set i y l) = list_set i x l.
Proof.
  revert i. induction l as [|a r IH]; intros [|i]; simpl; auto. now rewrite IH.
Qed.

Lemma list_set_unchanged {A} (l : list A) i x :
  nth_error l i = Some x -> list_set i x l = l.
Proof.
  revert i. induction l as [|a r IH]; intros [|i]; simpl; try discriminate.
  - now intros [= ->].
  - intros H. now rewrite IH.
Qed.

Lemma length_list_set {A} (l : list A) i x : length (list_set i x l) = length l.
Proof.
  revert i. induction l as [|a r IH]; intros [|i]; simpl; auto.
Qed.

(** ** Executable lookup *)

Lemma find_append {A} (f : A -> bool) (l1 l2 : list A) :
  find f (l1 ++ l2)%list =
    match find f l1 with
    | Some x => Some x
    | None => find f l2
    end.
Proof.
  induction l1 as [|a r IH]; simpl; [reflexivity|].
  now destruct (f a).
Qed.

Section FindExecutableFacts.

Variable P : ospath.
Variable exists_ : string -> bool.

Lemma find_in_directory_is_find directory base extensions :
  find_in_directory P exists_ directory base extensions =
    find exists_ (map (fun e => path_join P directory (base ++ e)) extensions).
Proof.
  induction extensions as [|e r IH]; simpl; [reflexivity|].
  now destruct (exists_ (path_join P directory (base ++ e))).
Qed.

Lemma find_in_directories_is_find dirs base extensions :
  find_in_directories P exists_ dirs base extensions =
    find exists_
         (flat_map (fun d => map (fun e => path_join P d (base ++ e)) extensions)
                   dirs).
Proof.
  induction dirs as [|d r IH]; simpl; [reflexivity|].
  rewrite find_append, find_in_directory_is_find, IH. reflexivity.
Qed.

Lemma default_extension_alone : split (pathsep P) ".EXE" = [".EXE"].
Proof. unfold pathsep. now destruct (semicolon_pathsep P). Qed.

End FindExecutableFacts.

(** C8.  [win_find_executable] returns a name that has a directory part
    unchanged; otherwise it returns the first existing file among the
    candidates taken in order, PATH directory by PATH directory and, within a
    directory, extension by extension (the name's own extension alone when it
    has one, else those of PATHEXT, else .EXE), and [None] when no candidate
    exists.  With PATH=/usr/bin, PATHEXT=.EXE and /usr/bin/python.EXE on disk,
    looking up python gives /usr/bin/python.EXE. *)
Theorem win_find_executable_first_existing :
  (forall (P : ospath) (exists_ : string -> bool) (executable : string) (env : dict),
      win_find_executable P exists_ executable env =
        first_existing_candidate P exists_ executable env)
  /\ win_find_executable posixpath (String.eqb "/usr/bin/python.EXE") "python"
                         [("PATH", "/usr/bin"); ("PATHEXT", ".EXE")]
     = Some "/usr/bin/python.EXE".
Proof.
  split; [|reflexivity].
  intros P exists_ executable env.
  unfold win_find_executable, first_existing_candidate, search_candidates,
    search_extensions.
  destruct (nonempty (dirname P executable)); [reflexivity|].
  destruct (splitext P executable) as [base ext]; simpl.
  rewrite find_in_directories_is_find.
  destruct (nonempty ext); [reflexivity|].
  destruct (PyDict.get env "PATHEXT") as [e|].
  - destruct (nonempty e); [reflexivity|].
    now rewrite default_extension_alone.
  - now rewrite default_extension_alone.
Qed.

(** ** Reading bytes *)

Lemma read_skipping_cr_spec (stream : bytes) :
  exists k,
    stream = cr_run k ++ fst (read_skipping_cr stream) ++ snd (read_skipping_cr stream)
    /\ ((fst (read_skipping_cr stream) = EmptyString
         /\ snd (read_skipping_cr stream) = EmptyString)
        \/ exists c, fst (read_skipping_cr stream) = str1 c /\ c <> CR).
Proof.
  induction stream as [|byte rest IH]; simpl.
  - exists 0. simpl. auto.
  - destruct (Ascii.eqb byte CR) eqn:E.
    + apply Ascii.eqb_eq in E; subst byte.
      destruct IH as [k [Hs Hc]]. exists (S k). simpl. split; [now f_equal|exact Hc].
    + exists 0. simpl. split; [reflexivity|].
      right. exists byte. split; [reflexivity|].
      intros ->. now rewrite Ascii.eqb_refl in E.
Qed.

(** C9.  On a host that is not POSIX, [read_bytes] consumes the carriage
    returns at the head of the stream and returns the byte that follows them,
    which is not a carriage return; when nothing follows them (the stream is
    closed) it returns the empty byte string, and it raises nothing. *)
Theorem read_bytes_skips_carriage_returns (h : host) (s : session) (p : proc) :
  POSIX h = false ->
  nth_error (procs (os s)) (filt (self s)) = Some p ->
  exists (k : nat) (byte rest : bytes),
    stdout_pending p = cr_run k ++ byte ++ rest
    /\ ((byte = EmptyString /\ rest = EmptyString)
        \/ exists c, byte = str1 c /\ c <> CR)
    /\ fst (read_bytes h s) = Ok byte
    /\ self (snd (read_bytes h s)) = self s
    /\ nth_error (procs (os (snd (read_bytes h s)))) (filt (self s))
       = Some {| exited := exited p;
                 stdin_received := stdin_received p;
                 stdout_pending := rest |}.
Proof.
  intros HP Hp.
  destruct (read_skipping_cr_spec (stdout_pending p)) as [k [Hs Hc]].
  exists k, (fst (read_skipping_cr (stdout_pending p))),
    (snd (read_skipping_cr (stdout_pending p))).
  split; [exact Hs|]. split; [exact Hc|].
  unfold read_bytes. rewrite HP.
  unfold bind, gets, in_world, get_proc, put_proc, modify, ret. simpl.
  rewrite Hp.
  destruct (read_skipping_cr (stdout_pending p)) as [byte rest]; simpl.
  repeat split.
  eapply nth_error_list_set_same; eassumption.
Qed.

Lemma read_bytes_skips_carriage_returns_witness :
  exists (k : nat) (byte rest : bytes),
    stdout_pending Sample.crlf_proc = cr_run k ++ byte ++ rest
    /\ ((byte = EmptyString /\ rest = EmptyString)
        \/ exists c, byte = str1 c /\ c <> CR)
    /\ fst (read_bytes Sample.windows_host Sample.reading_session) = Ok byte
    /\ self (snd (read_bytes Sample.windows_host Sample.reading_session))
       = self Sample.reading_session
    /\ nth_error (procs (os (snd (read_bytes Sample.windows_host
                                             Sample.reading_session))))
                 (filt (self Sample.reading_session))
       = Some {| exited := exited Sample.crlf_proc;
                 stdin_received := stdin_received Sample.crlf_proc;
                 stdout_pending := rest |}.
Proof.
  exact (read_bytes_skips_carriage_returns
           Sample.windows_host Sample.reading_session Sample.crlf_proc
           eq_refl eq_refl).
Defined.

(** ** The placeholder command *)

(** C5.  A command list that starts with "[unsupported]" makes the
    constructor raise [Unsupported] with the rest of the list as its
    messages, and the world is left as it was: nothing has been spawned. *)
Theorem unsupported_command_raises_before_spawn
        (h : host) (st : settings) (reasons : list string)
        (env_arg : option loc) (cwd_arg : option string) (extend_env : option loc)
        (soft_quit : string) (autocomplete_server filt_warns : bool) (w : world) :
  SubprocessRepl_init h st (CmdList ("[unsupported]" :: reasons)) env_arg cwd_arg
                      extend_env soft_quit autocomplete_server filt_warns w
  = (Raise (Unsupported reasons), w).
Proof. reflexivity. Qed.

(** ** Environment dumps *)

Lemma pairs_of_lines_rejects (lines : list string) (line : string) :
  In line lines -> snd (split1 "=" line) = None ->
  pairs_of_lines lines = Raise ValueError.
Proof.
  induction lines as [|l r IH]; simpl; intros I N; [contradiction|].
  destruct (split1 "=" l) as [key [value|]] eqn:E; [|reflexivity].
  destruct I as [->|I].
  - rewrite E in N. discriminate.
  - now rewrite (IH I N).
Qed.

Lemma sanitize_folds_line (rest : list (string * option string))
      (done : list (string * string)) (key value piece : string) :
  sanitize_kw_pairs ((piece, None) :: rest) (done ++ [(key, value)])%list
  = sanitize_kw_pairs rest (done ++ [(key, (value ++ str1 LF ++ piece)%string)])%list.
Proof.
  simpl.
  assert (A : forall text, append_to_last (done ++ [(key, value)])%list text
                           = Some (done ++ [(key, (value ++ text)%string)])%list).
  { intros text. induction done as [|[k v] r IH]; simpl; [reflexivity|].
    rewrite IH. destruct (r ++ [(key, value)])%list eqn:E; [|reflexivity].
    now destruct r. }
  now rewrite A.
Qed.

(** C7.  [getenv] folds a dump line without '=' into the value of the key
    before it, so that FOO=bar / baz / QUX=1 gives FOO the two-line value and
    QUX the value 1; [shell_source] splits every line in two and builds the
    dict from the pieces, so the same dump makes it raise [ValueError]. *)
Theorem shell_source_rejects_line_without_equals :
  parse_getenv_output Sample.multiline_dump
  = Ok [("FOO", "bar" ++ str1 LF ++ "baz"); ("QUX", "1")]
  /\ parse_source_output Sample.multiline_dump = Raise ValueError
  /\ fst (shell_source (Sample.printing Sample.one_env_host Sample.multiline_dump)
                       "/home/sam/envs/py3/bin/activate" "py3"
                       (Sample.world_of []))
     = Raise ValueError.
Proof. repeat split. Qed.

(** ** Encoding the environment *)

Lemma encode_items_drops_decode_error enc k v rest acc :
  enc k = Raise UnicodeDecodeError ->
  encode_items enc ((k, v) :: rest) acc = encode_items enc rest acc.
Proof. intros H. simpl. now rewrite H. Qed.

Lemma encode_items_propagates_encode_error enc k v rest acc :
  enc k = Raise UnicodeEncodeError \/
  (exists ek, enc k = Ok ek /\ enc v = Raise UnicodeEncodeError) ->
  encode_items enc ((k, v) :: rest) acc = Raise UnicodeEncodeError.
Proof.
  intros [H|[ek [H1 H2]]]; simpl.
  - now rewrite H.
  - now rewrite H1, H2.
Qed.

(** C6.  The loop of [env] catches [UnicodeDecodeError] only.  With the
    ASCII encoder, the pair BAD=caf\xe9 cannot be encoded; the encoder raises
    [UnicodeEncodeError], which leaves [env] instead of dropping the pair and
    keeping NAME=sam. *)
Theorem env_encode_error_escapes :
  fst (env Sample.one_env_host (Sample.sample_settings false) (Some 0) None
           (Sample.world_of [[("NAME", "sam"); ("BAD", "caf" ++ str1 (chr 233))]]))
  = Raise UnicodeEncodeError.
Proof. reflexivity. Qed.

(** ** Interpolation *)

Lemma all_chars_app (p : ascii -> bool) (a b : string) :
  all_chars p (a ++ b) = all_chars p a && all_chars p b.
Proof.
  induction a as [|c r IH]; simpl; [reflexivity|].
  now rewrite IH, andb_assoc.
Qed.

(** Inside a field, a plain name is read up to the closing brace; the field
    is then replaced by its value and the scan goes on after the brace. *)
Lemma format_from_field (env : dict) (name read rest : string) :
  plain_name name = true ->
  format_from env (Some read) (name ++ String "}" rest) =
    rbind (format_field env (read ++ name)) (fun v =>
    rbind (format_from env None rest) (fun out => Ok (v ++ out))).
Proof.
  revert read. induction name as [|c r IH]; intros read PN.
  - simpl. now rewrite append_nil_r.
  - simpl in PN. apply andb_true_iff in PN. destruct PN as [Pc Pr].
    apply negb_true_iff, orb_false_iff in Pc. destruct Pc as [Sc Bc].
    simpl. rewrite Bc, Sc, (IH _ Pr).
    now rewrite append_assoc.
Qed.

(** No re-expansion: the value of a field is copied to the output as it is,
    whatever braces it holds; only the rest of the template is scanned. *)
Lemma format_substitutes_verbatim (env : dict) (name v rest : string) :
  plain_name name = true ->
  all_chars is_digit name = false ->
  PyDict.get env name = Some v ->
  format ("{" ++ name ++ String "}" rest) env =
    rbind (format rest env) (fun out => Ok (v ++ out)).
Proof.
  intros PN ND G. unfold format.
  assert (F : format_from env None (String "{" (name ++ String "}" rest))
              = format_from env (Some EmptyString) (name ++ String "}" rest)).
  { destruct name as [|c r]; [reflexivity|].
    simpl in PN. apply andb_true_iff in PN. destruct PN as [Pc _].
    apply negb_true_iff, orb_false_iff in Pc. destruct Pc as [Sc _].
    unfold is_field_special in Sc.
    repeat (apply orb_false_iff in Sc; destruct Sc as [Sc ?]).
    cbn [format_from append]. rewrite Ascii.eqb_refl.
    now rewrite Sc. }
  change ("{" ++ name ++ String "}" rest) with (String "{" (name ++ String "}" rest)).
  rewrite F, format_from_field by assumption.
  unfold format_field. simpl. now rewrite ND, G.
Qed.

Lemma interpolate_items_nodup (env : dict) items (acc n : dict) :
  NoDup (PyDict.keys acc) ->
  interpolate_items env items acc = Ok n ->
  NoDup (PyDict.keys n).
Proof.
  revert acc. induction items as [|[key val] r IH]; simpl; intros acc N H.
  - now inversion H; subst.
  - destruct (format val env) as [text|e]; simpl in H; [|discriminate].
    eapply IH; [|exact H]. now apply nodup_keys_set.
Qed.

Lemma interpolate_nodup (env e n : dict) :
  interpolate_extend_env env e = Ok n -> NoDup (PyDict.keys n).
Proof. apply interpolate_items_nodup. constructor. Qed.

(** Every template is resolved against the same [env]: the entries built
    earlier in the loop go to [new_env], which the templates do not see. *)
Lemma interpolate_items_get (env : dict) items (acc n : dict) :
  NoDup (PyDict.keys items) ->
  interpolate_items env items acc = Ok n ->
  forall k,
    match PyDict.get items k with
    | Some template => exists v, format template env = Ok v /\ PyDict.get n k = Some v
    | None => PyDict.get n k = PyDict.get acc k
    end.
Proof.
  revert acc. induction items as [|[key val] r IH]; simpl; intros acc N H k.
  - now inversion H; subst.
  - inversion N as [|? ? NI N']; subst.
    destruct (format val env) as [text|e] eqn:F; simpl in H; [|discriminate].
    specialize (IH _ N' H k).
    destruct (String.eqb key k) eqn:E.
    + apply String.eqb_eq in E; subst key.
      rewrite (get_none_not_in r k NI) in IH.
      exists text. split; [exact F|]. rewrite IH. apply get_set_same.
    + destruct (PyDict.get r k); [exact IH|].
      rewrite IH. apply get_set_other. intros ->. now rewrite String.eqb_refl in E.
Qed.

Lemma interpolate_get (env e n : dict) :
  NoDup (PyDict.keys e) ->
  interpolate_extend_env env e = Ok n ->
  forall k,
    match PyDict.get e k with
    | Some template => exists v, format template env = Ok v /\ PyDict.get n k = Some v
    | None => PyDict.get n k = None
    end.
Proof.
  intros N H k. exact (interpolate_items_get env e [] n N H k).
Qed.

(** one phase seen from outside: the keys of the templates get the
    interpolated text, the other keys keep their value *)
Lemma update_interpolated_get (env e n d : dict) :
  NoDup (PyDict.keys e) ->
  interpolate_extend_env env e = Ok n ->
  forall k,
    match PyDict.get e k with
    | Some template =>
        exists v, format template env = Ok v /\ PyDict.get (PyDict.update d n) k = Some v
    | None => PyDict.get (PyDict.update d n) k = PyDict.get d k
    end.
Proof.
  intros N H k.
  rewrite (get_update n d k (interpolate_nodup _ _ _ H)).
  pose proof (interpolate_get env e n N H k) as G.
  destruct (PyDict.get e k).
  - destruct G as [v [F G]]. exists v. now rewrite G.
  - now rewrite G.
Qed.

(** ** Running the environment build *)

Lemma set_heap_same (w : world) : set_heap (heap w) w = w.
Proof. now destruct w. Qed.

Lemma set_heap_unchanged (w : world) (l : loc) (d : dict) :
  nth_error (heap w) l = Some d -> set_heap (list_set l d (heap w)) w = w.
Proof. intros H. now rewrite (list_set_unchanged _ _ _ H), set_heap_same. Qed.

Lemma deref_run (l : loc) (d : dict) (w : world) :
  nth_error (heap w) l = Some d -> deref l w = (Ok d, w).
Proof. intros H. unfold deref. now rewrite H. Qed.

Lemma update_in_place_run (l : loc) (d e : dict) (w : world) :
  nth_error (heap w) l = Some d ->
  update_in_place l e w
  = (Ok tt, set_heap (list_set l (PyDict.update d e) (heap w)) w).
Proof.
  intros H. unfold update_in_place, bind. now rewrite (deref_run _ _ _ H).
Qed.

Lemma setitem_run (l : loc) (d : dict) (k v : string) (w : world) :
  nth_error (heap w) l = Some d ->
  setitem l k v w = (Ok tt, set_heap (list_set l (PyDict.set d k v) (heap w)) w).
Proof.
  intros H. unfold setitem, bind. now rewrite (deref_run _ _ _ H).
Qed.

Lemma base_env_supplied (h : host) (st : settings) (l : loc) (d : dict) (w : world) :
  nth_error (heap w) l = Some d -> PyDict.truthy d = true ->
  base_env h st (Some l) w = (Ok l, w).
Proof.
  intros H T. unfold base_env, truthy_arg, bind, ret.
  now rewrite (deref_run _ _ _ H), T.
Qed.

(** the two phases of [env] on a supplied base, as one store update *)
Lemma extend_in_place_run (st : settings) (w : world) (lb le : loc)
      (base ext n1 n2 : dict) :
  nth_error (heap w) lb = Some base ->
  nth_error (heap w) le = Some ext ->
  lb <> le ->
  interpolate_extend_env base (default_extend_env st) = Ok n1 ->
  interpolate_extend_env (PyDict.update base n1) ext = Ok n2 ->
  extend_in_place st lb (Some le) w
  = (Ok tt,
     set_heap (list_set lb (PyDict.update (PyDict.update base n1) n2) (heap w)) w).
Proof.
  intros Hb He N I1 I2.
  set (b1 := PyDict.update base n1) in *.
  (* the state after the phase of the defaults *)
  assert (P1 : exists w1,
             (if PyDict.truthy (default_extend_env st)
              then bind (deref lb) (fun d =>
                   bind (lift (interpolate_extend_env d (default_extend_env st)))
                        (fun new_env => update_in_place lb new_env))
              else ret tt) w = (Ok tt, w1)
             /\ w1 = set_heap (list_set lb b1 (heap w)) w).
  { destruct (PyDict.truthy (default_extend_env st)) eqn:T.
    - eexists. split; [|reflexivity].
      unfold bind at 1. rewrite (deref_run _ _ _ Hb).
      unfold bind at 1, lift. rewrite I1.
      now rewrite (update_in_place_run _ _ _ _ Hb).
    - destruct (default_extend_env st); [|discriminate].
      inversion I1; subst n1. subst b1.
      change (PyDict.update base PyDict.empty) with base.
      exists w. split; [reflexivity|].
      symmetry. now apply set_heap_unchanged. }
  destruct P1 as [w1 [R1 W1]].
  assert (Hb1 : nth_error (heap w1) lb = Some b1).
  { subst w1. simpl. eapply nth_error_list_set_same; eassumption. }
  assert (He1 : nth_error (heap w1) le = Some ext).
  { subst w1. simpl. now rewrite nth_error_list_set_other. }
  unfold extend_in_place. unfold bind at 1. rewrite R1.
  unfold bind at 1, truthy_arg, bind at 1. rewrite (deref_run _ _ _ He1).
  unfold ret at 1.
  destruct (PyDict.truthy ext) eqn:T.
  - unfold bind at 1. rewrite (deref_run _ _ _ Hb1).
    unfold bind at 1. rewrite (deref_run _ _ _ He1).
    unfold bind at 1, lift. rewrite I2.
    rewrite (update_in_place_run _ _ _ _ Hb1). subst w1. simpl.
    now rewrite list_set_twice.
  - destruct ext; [|discriminate]. inversion I2; subst n2.
    change (PyDict.update b1 PyDict.empty) with b1. unfold ret. now subst w1.
Qed.

Lemma env_run (h : host) (st : settings) (env_arg : option loc) (w w0 : world)
      (lb le : loc) (base ext n1 n2 : dict) :
  base_env h st env_arg w = (Ok lb, w0) ->
  nth_error (heap w0) lb = Some base ->
  nth_error (heap w0) le = Some ext ->
  lb <> le ->
  interpolate_extend_env base (default_extend_env st) = Ok n1 ->
  interpolate_extend_env (PyDict.update base n1) ext = Ok n2 ->
  env h st env_arg (Some le) w
  = (encode_items (encoder h)
                  (PyDict.items (PyDict.update (PyDict.update base n1) n2))
                  PyDict.empty,
     set_heap (list_set lb (PyDict.update (PyDict.update base n1) n2) (heap w0)) w0).
Proof.
  intros HB Hb He N I1 I2.
  unfold env. unfold bind at 1. rewrite HB.
  unfold bind at 1. rewrite (extend_in_place_run _ _ _ _ _ _ _ _ Hb He N I1 I2).
  unfold bind at 1.
  rewrite (deref_run lb (PyDict.update (PyDict.update base n1) n2)).
  - reflexivity.
  - simpl. eapply nth_error_list_set_same; eassumption.
Qed.

(** C1.  [env] works on the supplied base, or on the one [getenv] gives
    when none is supplied.  It first merges the default templates, each
    interpolated against the base, and then the caller's templates, each
    interpolated against the base as the defaults left it; a key of a later
    phase overrides the earlier value.  Interpolation is one pass: the value
    put in place of a field is copied as it is.  What [env] returns is the
    encoding of the environment so built; with the templates
    GREETING = "hi {NAME}" over the base NAME = sam it maps NAME to sam and
    GREETING to "hi sam". *)
Theorem env_applies_defaults_then_extensions
        (h : host) (st : settings) (env_arg : option loc) (w w0 : world)
        (lb le : loc) (base ext n1 n2 : dict) :
  base_env h st env_arg w = (Ok lb, w0) ->
  nth_error (heap w0) lb = Some base ->
  nth_error (heap w0) le = Some ext ->
  lb <> le ->
  NoDup (PyDict.keys (default_extend_env st)) ->
  NoDup (PyDict.keys ext) ->
  interpolate_extend_env base (default_extend_env st) = Ok n1 ->
  interpolate_extend_env (PyDict.update base n1) ext = Ok n2 ->
  let after_defaults := PyDict.update base n1 in
  let final := PyDict.update after_defaults n2 in
  fst (env h st env_arg (Some le) w)
  = encode_items (encoder h) (PyDict.items final) PyDict.empty
  /\ (forall k,
         match PyDict.get (default_extend_env st) k with
         | Some template =>
             exists v, format template base = Ok v
                       /\ PyDict.get after_defaults k = Some v
         | None => PyDict.get after_defaults k = PyDict.get base k
         end)
  /\ (forall k,
         match PyDict.get ext k with
         | Some template =>
             exists v, format template after_defaults = Ok v
                       /\ PyDict.get final k = Some v
         | None => PyDict.get final k = PyDict.get after_defaults k
         end)
  /\ (forall (env0 : dict) (name v rest : string),
         plain_name name = true ->
         all_chars is_digit name = false ->
         PyDict.get env0 name = Some v ->
         format ("{" ++ name ++ String "}" rest) env0
         = rbind (format rest env0) (fun out => Ok (v ++ out)))
  /\ fst (env Sample.one_env_host (Sample.sample_settings false) (Some 0) (Some 1)
              Sample.greeting_world)
     = Ok [("NAME", "sam"); ("GREETING", "hi sam")].
Proof.
  intros HB Hb He N ND1 ND2 I1 I2 after_defaults final.
  split; [|split; [|split; [|split]]].
  - unfold final, after_defaults.
    now rewrite (env_run h st env_arg w w0 lb le base ext n1 n2).
  - intros k. exact (update_interpolated_get base _ n1 base ND1 I1 k).
  - intros k. exact (update_interpolated_get after_defaults _ n2 after_defaults ND2 I2 k).
  - intros env0 name v rest. apply format_substitutes_verbatim.
  - reflexivity.
Qed.

(** With defaults A = "{HOME}/a" and caller templates B = "{A}:{B}" over the
    base HOME = /h, B = old: the caller's template sees the A that the
    defaults made and the B of the base, not its own. *)
Lemma env_applies_defaults_then_extensions_witness :
  fst (env Sample.one_env_host Sample.settings_with_defaults (Some 0) (Some 1)
           Sample.phases_world)
  = Ok [("HOME", "/h"); ("B", "/h/a:old"); ("A", "/h/a")].
Proof.
  refine (proj1 (env_applies_defaults_then_extensions
                   Sample.one_env_host Sample.settings_with_defaults (Some 0)
                   Sample.phases_world Sample.phases_world 0 1
                   [("HOME", "/h"); ("B", "old")] [("B", "{A}:{B}")]
                   [("A", "/h/a")] [("B", "/h/a:old")]
                   eq_refl eq_refl eq_refl _ _ _ eq_refl eq_refl)).
  - discriminate.
  - constructor; [intros []|constructor].
  - constructor; [intros []|constructor].
Defined.

(** ** Splitting and joining PATH *)

Lemma split_not_nil (sep : ascii) (s : string) : split sep s <> [].
Proof.
  destruct s as [|c r]; simpl; [discriminate|].
  destruct (Ascii.eqb c sep); [discriminate|].
  destruct (split sep r); discriminate.
Qed.

Lemma join_cons (sep p : string) (ps : list string) :
  ps <> [] -> join sep (p :: ps) = p ++ sep ++ join sep ps.
Proof. destruct ps; [contradiction|reflexivity]. Qed.

Lemma join_split (sep : ascii) (s : string) : join (str1 sep) (split sep s) = s.
Proof.
  induction s as [|c r IH]; simpl; [reflexivity|].
  destruct (Ascii.eqb c sep) eqn:E.
  - apply Ascii.eqb_eq in E; subst c.
    rewrite join_cons by apply split_not_nil. simpl. now rewrite IH.
  - pose proof (split_not_nil sep r) as NN.
    destruct (split sep r) as [|p ps]; [contradiction|].
    destruct ps as [|q qs].
    + simpl in *. now rewrite IH.
    + change (join (str1 sep) (String c p :: q :: qs))
        with (String c (join (str1 sep) (p :: q :: qs))).
      now rewrite IH.
Qed.

(** ** The virtual-environment defaults *)

Lemma mem_get {V} (d : PyDict.t V) (k : string) :
  PyDict.mem d k = match PyDict.get d k with Some _ => true | None => false end.
Proof. reflexivity. Qed.

Lemma default_extend_keys_run (le : loc) (ext : dict) (w : world) :
  nth_error (heap w) le = Some ext ->
  default_extend_keys le w
  = (Ok (requested_version ext),
     set_heap (list_set le (with_venv_defaults ext) (heap w)) w).
Proof.
  intros He.
  set (e1 := if PyDict.mem ext "PY_VERSION" then ext
             else PyDict.set ext "PY_VERSION" "py3").
  (* after the first default *)
  assert (S1 : exists w1,
             (if PyDict.mem ext "PY_VERSION" then ret tt
              else setitem le "PY_VERSION" "py3") w = (Ok tt, w1)
             /\ w1 = set_heap (list_set le e1 (heap w)) w).
  { subst e1. destruct (PyDict.mem ext "PY_VERSION").
    - exists w. split; [reflexivity|]. symmetry. now apply set_heap_unchanged.
    - eexists. split; [|reflexivity]. now apply setitem_run. }
  destruct S1 as [w1 [R1 W1]].
  assert (He1 : nth_error (heap w1) le = Some e1).
  { subst w1. simpl. eapply nth_error_list_set_same; eassumption. }
  (* after the second default *)
  assert (S2 : exists w2,
             (if PyDict.mem e1 "PYTHONIOENCODING" then ret tt
              else setitem le "PYTHONIOENCODING" "utf-8") w1 = (Ok tt, w2)
             /\ w2 = set_heap (list_set le (with_venv_defaults ext) (heap w)) w).
  { unfold with_venv_defaults. fold e1.
    destruct (PyDict.mem e1 "PYTHONIOENCODING").
    - exists w1. split; [reflexivity|]. now subst w1.
    - eexists. split; [apply (setitem_run _ _ _ _ _ He1)|].
      subst w1. simpl. now rewrite list_set_twice. }
  destruct S2 as [w2 [R2 W2]].
  assert (He2 : nth_error (heap w2) le = Some (with_venv_defaults ext)).
  { subst w2. simpl. eapply nth_error_list_set_same; eassumption. }
  unfold default_extend_keys.
  unfold bind at 1. rewrite (deref_run _ _ _ He).
  unfold bind at 1. rewrite R1.
  unfold bind at 1. rewrite (deref_run _ _ _ He1).
  unfold bind at 1. rewrite R2.
  unfold bind at 1. rewrite (deref_run _ _ _ He2).
  unfold lift. rewrite <- W2. f_equal.
  (* the tag read back *)
  unfold getitem, with_venv_defaults, requested_version. fold e1.
  assert (G1 : PyDict.get e1 "PY_VERSION"
               = Some (match PyDict.get ext "PY_VERSION" with
                       | Some v => v
                       | None => "py3"
                       end)).
  { subst e1. rewrite mem_get.
    destruct (PyDict.get ext "PY_VERSION") eqn:G; [exact G|apply get_set_same]. }
  destruct (PyDict.mem e1 "PYTHONIOENCODING").
  - now rewrite G1.
  - rewrite get_set_other by discriminate. now rewrite G1.
Qed.

Lemma wrappers_dir_get (h : host) (st : settings) (t : string) :
  PyDict.get (wrappers_dir h st) t
  = option_map (fun b => path_join (os_path h) b "wrappers/conda")
               (PyDict.get (venvs_bin_dir h st) t).
Proof.
  unfold wrappers_dir, PyDict.items.
  induction (venvs_bin_dir h st) as [|[k v] r IH]; simpl; [reflexivity|].
  now destruct (String.eqb k t).
Qed.

(** C3.  With [use_wrapped] set, for a discovered tag whose wrapper
    directory is there, the resolution puts the wrapper directory and then
    the binary directory of the environment in front of PATH in the base
    environment, and returns; the trace of subprocesses, the cache and the
    processes are as they were once the base environment was at hand. *)
Theorem wrapper_strategy_prepends_and_spawns_nothing
        (h : host) (st : settings) (env_arg : option loc) (w w0 : world)
        (lb le : loc) (base ext : dict) (b old_path : string) :
  base_env h st env_arg w = (Ok lb, w0) ->
  nth_error (heap w0) lb = Some base ->
  nth_error (heap w0) le = Some ext ->
  lb <> le ->
  use_wrapped st = true ->
  PyDict.get (venvs_bin_dir h st) (requested_version ext) = Some b ->
  option_truthy (PyDict.get (wrappers_dir h st) (requested_version ext)) = true ->
  PyDict.get base "PATH" = Some old_path ->
  let wrapper := path_join (os_path h) b "wrappers/conda" in
  let w' := snd (SubprocessReplVenv_resolve h st env_arg (Some le) w) in
  fst (SubprocessReplVenv_resolve h st env_arg (Some le) w) = Ok lb
  /\ nth_error (heap w') lb
     = Some (PyDict.set base "PATH" (wrapper ++ ":" ++ b ++ ":" ++ old_path))
  /\ events w' = events w0
  /\ subprocess_count w' = subprocess_count w0
  /\ VENVS_ENVIRON w' = VENVS_ENVIRON w0
  /\ procs w' = procs w0.
Proof.
  intros HB Hb He N UW Gb GW GP wrapper w'.
  assert (R : SubprocessReplVenv_resolve h st env_arg (Some le) w
              = (Ok lb,
                 set_heap (list_set lb
                             (PyDict.set base "PATH"
                                (wrapper ++ ":" ++ b ++ ":" ++ old_path))
                             (list_set le (with_venv_defaults ext) (heap w0))) w0)).
  { unfold SubprocessReplVenv_resolve.
    unfold bind at 1. rewrite HB.
    unfold bind at 1. rewrite (default_extend_keys_run _ _ _ He).
    rewrite UW, GW. simpl andb. cbv iota.
    set (w1 := set_heap (list_set le (with_venv_defaults ext) (heap w0)) w0).
    assert (Hb1 : nth_error (heap w1) lb = Some base).
    { subst w1. simpl. rewrite nth_error_list_set_other; auto. }
    unfold bind at 1, prepend_wrappers.
    unfold bind at 1. rewrite (deref_run _ _ _ Hb1).
    unfold bind at 1, lift at 1, getitem at 1. rewrite GP.
    unfold bind at 1, lift at 1, getitem at 1.
    rewrite wrappers_dir_get, Gb. simpl option_map. cbv iota.
    unfold bind at 1, lift at 1, getitem at 1. rewrite Gb.
    rewrite (setitem_run _ _ _ _ _ Hb1). unfold ret. fold wrapper.
    assert (J : join ":" (list_insert 1 b
                            (list_insert 0 wrapper (split ":" old_path)))
                = wrapper ++ ":" ++ b ++ ":" ++ old_path).
    { change (list_insert 1 b (list_insert 0 wrapper (split ":" old_path)))
        with (wrapper :: b :: split ":" old_path).
      rewrite join_cons by discriminate.
      rewrite join_cons by apply split_not_nil.
      pose proof (join_split ":" old_path) as JS. unfold str1 in JS.
      now rewrite JS. }
    rewrite J. reflexivity. }
  subst w'. rewrite R. simpl.
  repeat split.
  eapply nth_error_list_set_same.
  rewrite nth_error_list_set_other by auto. eassumption.
Qed.

Lemma wrapper_strategy_prepends_and_spawns_nothing_witness :
  let w' := snd (SubprocessReplVenv_resolve Sample.two_env_host
                   (Sample.sample_settings true) (Some 0) (Some 1)
                   Sample.venv_world) in
  fst (SubprocessReplVenv_resolve Sample.two_env_host
         (Sample.sample_settings true) (Some 0) (Some 1) Sample.venv_world)
  = Ok 0
  /\ nth_error (heap w') 0
     = Some [("PATH",
              "/home/sam/envs/py3/bin/wrappers/conda:/home/sam/envs/py3/bin:/usr/bin")]
  /\ events w' = []
  /\ subprocess_count w' = 0
  /\ VENVS_ENVIRON w' = []
  /\ procs w' = [].
Proof.
  refine (wrapper_strategy_prepends_and_spawns_nothing
            Sample.two_env_host (Sample.sample_settings true) (Some 0)
            Sample.venv_world Sample.venv_world
            0 1 [("PATH", "/usr/bin")] [("PY_VERSION", "py3")]
            "/home/sam/envs/py3/bin" "/usr/bin"
            eq_refl eq_refl eq_refl _ eq_refl eq_refl eq_refl eq_refl).
  discriminate.
Defined.

(** ** Killing the REPL *)

Lemma session_eta (s : session) : {| self := self s; os := os s |} = s.
Proof. now destruct s. Qed.

Lemma get_proc_run (pid : nat) (p : proc) (w : world) :
  nth_error (procs w) pid = Some p -> get_proc pid w = (Ok p, w).
Proof. intros H. unfold get_proc. now rewrite H. Qed.

Lemma proc_kill_run (pid : nat) (p : proc) (w : world) :
  nth_error (procs w) pid = Some p ->
  proc_kill pid w = (Ok tt, set_procs (list_set pid (mark_exited p) (procs w)) w).
Proof.
  intros H. unfold proc_kill, bind. now rewrite (get_proc_run _ _ _ H).
Qed.

Lemma write_bytes_run (data : bytes) (s : session) (p : proc) :
  nth_error (procs (os s)) (popen (self s)) = Some p ->
  write_bytes data s
  = if nonempty data then
      if exited p then (Raise BrokenPipeError, s)
      else (Ok tt,
            {| self := self s;
               os := set_procs (list_set (popen (self s)) (receive p data)
                                         (procs (os s))) (os s) |})
    else (Ok tt, s).
Proof.
  intros H. unfold write_bytes, bind, gets, in_world.
  rewrite (get_proc_run _ _ _ H).
  destruct (nonempty data); [destruct (exited p)|];
    unfold raise, put_proc, modify, ret; now rewrite ?session_eta.
Qed.

(** [write] on a session whose primary is in the table: the payload
    reaches a running primary, and nothing happens otherwise *)
Lemma write_run (h : host) (s : session) (p : proc) (text : string) (data : bytes) :
  nth_error (procs (os s)) (popen (self s)) = Some p ->
  encoder h text = Ok data ->
  write h text s
  = (Ok tt,
     if nonempty data && negb (exited p)
     then {| self := self s;
             os := set_procs (list_set (popen (self s)) (receive p data)
                                       (procs (os s))) (os s) |}
     else s).
Proof.
  intros Hp He. unfold write, bind, lift. rewrite He.
  unfold ignoring_write_errors. rewrite (write_bytes_run data s p Hp).
  destruct (nonempty data); [destruct (exited p)|]; reflexivity.
Qed.

(** [kill] on a session whose two handles are in the table: both processes
    of the chain are marked as exited *)
Lemma kill_run (h : host) (s : session) (p f : proc) (data : bytes) :
  nth_error (procs (os s)) (popen (self s)) = Some p ->
  nth_error (procs (os s)) (filt (self s)) = Some f ->
  encoder h (_soft_quit (self s)) = Ok data ->
  let p1 := if nonempty data && negb (exited p) then receive p data else p in
  let ps1 := list_set (popen (self s)) (mark_exited p1) (procs (os s)) in
  kill h s
  = (Ok tt,
     {| self := self (flagged s);
        os := if _filt_warns (self s) then
                match nth_error ps1 (filt (self s)) with
                | Some f1 =>
                    set_procs (list_set (filt (self s)) (mark_exited f1) ps1) (os s)
                | None => set_procs ps1 (os s)
                end
              else set_procs ps1 (os s) |}).
Proof.
  intros Hp Hf He p1 ps1.
  unfold kill, bind at 1. unfold set_killed at 1, modify.
  unfold bind at 1, gets. unfold bind at 1.
  set (s0 := {| self := _; os := os s |}).
  assert (Hp0 : nth_error (procs (os s0)) (popen (self s0)) = Some p) by exact Hp.
  assert (He0 : encoder h (_soft_quit (self s0)) = Ok data) by exact He.
  rewrite (write_run h s0 p _ data Hp0 He0).
  assert (W : exists s1,
             (if nonempty data && negb (exited p)
              then {| self := self s0;
                      os := set_procs (list_set (popen (self s0))
                                                (receive p data)
                                                (procs (os s0))) (os s0) |}
              else s0) = s1
             /\ self s1 = self s0
             /\ nth_error (procs (os s1)) (popen (self s)) = Some p1
             /\ list_set (popen (self s)) (mark_exited p1) (procs (os s1)) = ps1
             /\ set_procs ps1 (os s1) = set_procs ps1 (os s)).
  { subst p1 ps1. destruct (nonempty data && negb (exited p)).
    - eexists. split; [reflexivity|]. simpl. repeat split.
      + eapply nth_error_list_set_same; eassumption.
      + apply list_set_twice.
    - exists s0. split; [reflexivity|]. now repeat split. }
  destruct W as [s1 [-> [S1 [P1 [L1 O1]]]]].
  unfold bind at 1, in_world at 1. simpl popen.
  rewrite (proc_kill_run _ _ _ P1). rewrite L1, O1.
  simpl _filt_warns.
  destruct (_filt_warns (self s)) eqn:FW.
  - unfold in_world. simpl self. simpl filt. simpl os.
    unfold proc_kill, bind, get_proc, put_proc, modify. simpl.
    destruct (nth_error ps1 (filt (self s))) as [f1|] eqn:F1.
    + rewrite S1. unfold flagged. simpl. now rewrite FW.
    + exfalso. apply nth_error_None in F1. subst ps1.
      rewrite length_list_set in F1.
      assert (filt (self s) < length (procs (os s)))
        by (apply nth_error_Some; now rewrite Hf).
      lia.
  - unfold ret. simpl. rewrite S1. unfold flagged. simpl. now rewrite FW.
Qed.

Lemma nth_error_list_set_defined {A} (l : list A) (i j : nat) (x y : A) :
  nth_error l i = Some y -> exists z, nth_error (list_set j x l) i = Some z.
Proof.
  intros H.
  destruct (nth_error (list_set j x l) i) as [z|] eqn:E; [eauto|].
  apply nth_error_None in E. rewrite length_list_set in E.
  assert (i < length l) by (apply nth_error_Some; now rewrite H). lia.
Qed.

Lemma keeps_self_bind {A B} (m : M session A) (k : A -> M session B) :
  keeps_self m -> (forall a, keeps_self (k a)) -> keeps_self (bind m k).
Proof.
  intros Hm Hk s. unfold bind. specialize (Hm s).
  destruct (m s) as [[a|e] s1]; simpl in *; [|exact Hm].
  now rewrite Hk.
Qed.

Lemma keeps_self_in_world {A} (m : M world A) : keeps_self (in_world m).
Proof. intros s. unfold in_world. now destruct (m (os s)). Qed.

Lemma keeps_self_write (h : host) (text : string) : keeps_self (write h text).
Proof.
  unfold write. apply keeps_self_bind; [now intros s|].
  intros data s. unfold ignoring_write_errors.
  assert (K : keeps_self (write_bytes data)).
  { unfold write_bytes. apply keeps_self_bind; [now intros s0|].
    intros r. apply keeps_self_in_world. }
  specialize (K s). destruct (write_bytes data s) as [[a|e] s1]; [exact K|].
  now destruct (is_write_error e).
Qed.

(** whatever happens to the write and to the processes, the flag is set *)
Lemma kill_keeps_flag (h : host) (s : session) :
  _killed (self (snd (kill h s))) = true.
Proof.
  assert (K : keeps_self
                (bind (gets self) (fun r =>
                 bind (write h (_soft_quit r)) (fun _ =>
                 bind (in_world (proc_kill (popen r))) (fun _ =>
                 if _filt_warns r then in_world (proc_kill (filt r))
                 else ret tt))))).
  { apply keeps_self_bind; [now intros s0|]. intros r.
    apply keeps_self_bind; [apply keeps_self_write|]. intros _.
    apply keeps_self_bind; [apply keeps_self_in_world|]. intros _.
    destruct (_filt_warns r); [apply keeps_self_in_world|now intros s0]. }
  unfold kill, bind at 1. unfold set_killed at 1, modify.
  now rewrite K.
Qed.

(** C4.  [kill] returns in every state of the chain.  It sets the killed
    flag; the soft-quit payload reaches a primary that is still running, and
    the error of writing to a primary that has exited is ignored; the
    primary is then killed, and so is the filter when the filter stage is
    enabled; no other process is touched.  A second call returns as well,
    and the flag is still set. *)
Theorem kill_sets_flag_writes_best_effort_and_kills
        (h : host) (s : session) (p f : proc) (data : bytes) :
  nth_error (procs (os s)) (popen (self s)) = Some p ->
  nth_error (procs (os s)) (filt (self s)) = Some f ->
  encoder h (_soft_quit (self s)) = Ok data ->
  let s' := snd (kill h s) in
  fst (kill h s) = Ok tt
  /\ _killed (self s') = true
  /\ (exists p', nth_error (procs (os s')) (popen (self s)) = Some p'
                 /\ exited p' = true
                 /\ stdin_received p'
                    = if exited p then stdin_received p
                      else stdin_received p ++ data)
  /\ (_filt_warns (self s) = true ->
      exists f', nth_error (procs (os s')) (filt (self s)) = Some f'
                 /\ exited f' = true)
  /\ (forall j, j <> popen (self s) ->
                (_filt_warns (self s) = false \/ j <> filt (self s)) ->
                nth_error (procs (os s')) j = nth_error (procs (os s)) j)
  /\ fst (kill h s') = Ok tt
  /\ _killed (self (snd (kill h s'))) = true.
Proof.
  intros Hp Hf He s'.
  pose proof (kill_run h s p f data Hp Hf He) as K. cbv zeta in K.
  set (p1 := if nonempty data && negb (exited p) then receive p data else p) in *.
  set (ps1 := list_set (popen (self s)) (mark_exited p1) (procs (os s))) in *.
  assert (E1 : nth_error ps1 (popen (self s)) = Some (mark_exited p1)).
  { subst ps1. eapply nth_error_list_set_same; eassumption. }
  assert (D1 : stdin_received (mark_exited p1)
               = if exited p then stdin_received p else stdin_received p ++ data).
  { subst p1. destruct (nonempty data) eqn:Hn; destruct (exited p); simpl;
      try reflexivity.
    destruct data; [|discriminate]. now rewrite append_nil_r. }
  destruct (nth_error_list_set_defined (procs (os s)) (filt (self s))
              (popen (self s)) (mark_exited p1) f Hf) as [f1 F1].
  fold ps1 in F1.
  (* the processes after the call *)
  assert (S' : self s' = self (flagged s)
               /\ (exists p', nth_error (procs (os s')) (popen (self s)) = Some p'
                              /\ exited p' = true
                              /\ stdin_received p'
                                 = if exited p then stdin_received p
                                   else stdin_received p ++ data)
               /\ (_filt_warns (self s) = true ->
                   exists f', nth_error (procs (os s')) (filt (self s)) = Some f'
                              /\ exited f' = true)
               /\ (forall j, j <> popen (self s) ->
                             (_filt_warns (self s) = false \/ j <> filt (self s)) ->
                             nth_error (procs (os s')) j = nth_error (procs (os s)) j)
               /\ exists f2, nth_error (procs (os s')) (filt (self s)) = Some f2).
  { subst s'. rewrite K. simpl. rewrite F1.
    split; [reflexivity|].
    assert (O : forall j, j <> popen (self s) ->
                          nth_error ps1 j = nth_error (procs (os s)) j).
    { intros j J. subst ps1. now apply nth_error_list_set_other. }
    destruct (_filt_warns (self s)); simpl.
    - destruct (Nat.eq_dec (filt (self s)) (popen (self s))) as [Q|Q].
      + rewrite Q in *. rewrite E1 in F1. inversion F1; subst f1.
        rewrite (nth_error_list_set_same _ _ _ _ E1).
        split; [eexists; split; [reflexivity|]; split; [reflexivity|exact D1]|].
        split; [intros _; eexists; split; reflexivity|].
        split; [|eauto].
        intros j J _. rewrite nth_error_list_set_other by congruence. now apply O.
      + rewrite nth_error_list_set_other by exact Q.
        rewrite (nth_error_list_set_same _ _ _ _ F1).
        split; [eexists; split; [exact E1|]; split; [reflexivity|exact D1]|].
        split; [intros _; eexists; split; reflexivity|].
        split; [|eauto].
        intros j J [B|B]; [discriminate|].
        rewrite nth_error_list_set_other by congruence. now apply O.
    - split; [eexists; split; [exact E1|]; split; [reflexivity|exact D1]|].
      split; [discriminate|]. split; [|eauto].
      intros j J _. now apply O. }
  destruct S' as [SS [[p' [Pp' [Xp' Rp']]] [Ff' [Fr [f2 Ff2]]]]].
  split; [subst s'; now rewrite K|].
  split; [apply kill_keeps_flag|].
  split; [eauto|]. split; [exact Ff'|]. split; [exact Fr|].
  split; [|apply kill_keeps_flag].
  assert (Pq : nth_error (procs (os s')) (popen (self s')) = Some p')
    by (rewrite SS; exact Pp').
  assert (Fq : nth_error (procs (os s')) (filt (self s')) = Some f2)
    by (rewrite SS; exact Ff2).
  assert (He' : encoder h (_soft_quit (self s')) = Ok data)
    by (rewrite SS; exact He).
  now rewrite (kill_run h s' p' f2 data Pq Fq He').
Qed.

Lemma kill_sets_flag_writes_best_effort_and_kills_witness :
  let s := Sample.running_session "quit" true in
  let s' := snd (kill Sample.one_env_host s) in
  fst (kill Sample.one_env_host s) = Ok tt
  /\ _killed (self s') = true
  /\ (exists p', nth_error (procs (os s')) 0 = Some p'
                 /\ exited p' = true /\ stdin_received p' = "quit")
  /\ (exists f', nth_error (procs (os s')) 1 = Some f' /\ exited f' = true)
  /\ fst (kill Sample.one_env_host s') = Ok tt
  /\ _killed (self (snd (kill Sample.one_env_host s'))) = true.
Proof.
  cbv zeta.
  destruct (kill_sets_flag_writes_best_effort_and_kills
              Sample.one_env_host (Sample.running_session "quit" true)
              {| exited := false; stdin_received := EmptyString;
                 stdout_pending := EmptyString |}
              {| exited := false; stdin_received := EmptyString;
                 stdout_pending := EmptyString |}
              "quit" eq_refl eq_refl eq_refl)
    as [R1 [K1 [P1 [F1 [_ [R2 K2]]]]]].
  split; [exact R1|]. split; [exact K1|]. split; [exact P1|].
  split; [exact (F1 eq_refl)|]. split; [exact R2|exact K2].
Defined.

(** ** What the build writes to *)

Lemma writes_within_ret {A} (ls : list loc) (a : A) : writes_within ls (ret a).
Proof. intros w. now split. Qed.

Lemma writes_within_raise {A} (ls : list loc) (e : exn) :
  writes_within ls (@raise world A e).
Proof. intros w. now split. Qed.

Lemma writes_within_lift {A} (ls : list loc) (r : result A) :
  writes_within ls (lift r).
Proof. intros w. now split. Qed.

Lemma writes_within_gets {A} (ls : list loc) (f : world -> A) :
  writes_within ls (gets f).
Proof. intros w. now split. Qed.

Lemma writes_within_bind {A B} (ls : list loc) (m : M world A) (k : A -> M world B) :
  writes_within ls m -> (forall a, writes_within ls (k a)) ->
  writes_within ls (bind m k).
Proof.
  intros Hm Hk w. unfold bind. specialize (Hm w).
  destruct (m w) as [[a|e] w1]; simpl in *; [|exact Hm].
  destruct Hm as [L F]. destruct (Hk a w1) as [L' F'].
  split; [congruence|]. intros j J. now rewrite F', F.
Qed.

Lemma writes_within_deref (ls : list loc) (l : loc) : writes_within ls (deref l).
Proof. intros w. unfold deref. now destruct (nth_error (heap w) l). Qed.

Lemma writes_within_store (ls : list loc) (l : loc) (d : dict) :
  In l ls -> writes_within ls (store l d).
Proof.
  intros I w. unfold store, modify. simpl. split; [apply length_list_set|].
  intros j J. apply nth_error_list_set_other. intros ->. contradiction.
Qed.

Lemma writes_within_setitem (ls : list loc) (l : loc) (k v : string) :
  In l ls -> writes_within ls (setitem l k v).
Proof.
  intros I. apply writes_within_bind; [apply writes_within_deref|].
  intros d. now apply writes_within_store.
Qed.

Lemma writes_within_update_in_place (ls : list loc) (l : loc) (e : dict) :
  In l ls -> writes_within ls (update_in_place l e).
Proof.
  intros I. apply writes_within_bind; [apply writes_within_deref|].
  intros d. now apply writes_within_store.
Qed.

Lemma writes_within_emit (ls : list loc) (e : event) : writes_within ls (emit e).
Proof. intros w. now split. Qed.

Lemma writes_within_truthy_arg (ls : list loc) (a : option loc) :
  writes_within ls (truthy_arg a).
Proof.
  destruct a as [l|]; simpl; [|apply writes_within_ret].
  apply writes_within_bind; [apply writes_within_deref|].
  intros d. apply writes_within_ret.
Qed.

Lemma writes_within_try_except {A} (ls : list loc) (m handler : M world A) :
  writes_within ls m -> writes_within ls handler ->
  writes_within ls (try_except m handler).
Proof.
  intros Hm Hh w. unfold try_except. specialize (Hm w).
  destruct (m w) as [[a|e] w1]; simpl in *; [exact Hm|].
  destruct Hm as [L F].
  assert (G : length (heap (snd (handler w1))) = length (heap w)
              /\ forall j, ~ In j ls ->
                           nth_error (heap (snd (handler w1))) j = nth_error (heap w) j).
  { destruct (Hh w1) as [L' F']. split; [congruence|].
    intros j J. now rewrite F', F. }
  destruct e; simpl; auto.
Qed.

Lemma writes_within_for_each {A} (ls : list loc) (xs : list A)
      (body : A -> M world unit) :
  (forall x, writes_within ls (body x)) -> writes_within ls (for_each xs body).
Proof.
  intros Hb. induction xs as [|x r IH]; simpl; [apply writes_within_ret|].
  apply writes_within_bind; [apply Hb|]. intros _. exact IH.
Qed.

(** [getenv] reads and reports, and always comes back with an environment *)
Lemma writes_within_getenv (h : host) (st : settings) :
  writes_within [] (getenv h st).
Proof.
  unfold getenv.
  destruct (list_truthy (getenv_command st) && POSIX h); [|apply writes_within_ret].
  apply writes_within_try_except.
  - apply writes_within_bind; [apply writes_within_emit|]. intros _.
    destruct (getenv_output h (getenv_command st));
      [apply writes_within_lift|apply writes_within_raise].
  - apply writes_within_bind; [apply writes_within_emit|]. intros _.
    apply writes_within_ret.
Qed.

Lemma getenv_returns (h : host) (st : settings) (w : world) :
  exists d, fst (getenv h st w) = Ok d.
Proof.
  unfold getenv.
  destruct (list_truthy (getenv_command st) && POSIX h);
    [|now exists (os_environ h)].
  unfold try_except, bind, emit, modify, lift, raise, ret. simpl.
  destruct (getenv_output h (getenv_command st)) as [output|]; simpl; [|eauto].
  destruct (parse_getenv_output output) as [d|e] eqn:E; simpl; [eauto|].
  unfold parse_getenv_output in E.
  destruct (sanitize_kw_pairs (map (split1 "=") (splitlines output)) []) as [ps|e'] eqn:S;
    simpl in E; [discriminate|].
  inversion E; subst e'. clear E.
  assert (I : forall kw acc e0, sanitize_kw_pairs kw acc = Raise e0 -> e0 = IndexError).
  { induction kw as [|[a [b|]] r IH]; simpl; intros acc e0 H; [discriminate|eauto|].
    match type of H with
    | context [append_to_last ?x ?y] => destruct (append_to_last x y)
    end; [eauto|now inversion H]. }
  rewrite (I _ _ _ S). simpl. eauto.
Qed.

Lemma writes_within_extend_in_place (st : settings) (l : loc) (ext : option loc) :
  writes_within [l] (extend_in_place st l ext).
Proof.
  unfold extend_in_place.
  apply writes_within_bind.
  - destruct (PyDict.truthy (default_extend_env st)); [|apply writes_within_ret].
    apply writes_within_bind; [apply writes_within_deref|]. intros d.
    apply writes_within_bind; [apply writes_within_lift|]. intros n.
    apply writes_within_update_in_place. now left.
  - intros _. apply writes_within_bind; [apply writes_within_truthy_arg|].
    intros [|]; destruct ext as [le|]; try apply writes_within_ret.
    apply writes_within_bind; [apply writes_within_deref|]. intros d.
    apply writes_within_bind; [apply writes_within_deref|]. intros e.
    apply writes_within_bind; [apply writes_within_lift|]. intros n.
    apply writes_within_update_in_place. now left.
Qed.

Lemma writes_within_source_version (h : host) (st : settings) (version : string) :
  writes_within [] (source_version h st version).
Proof.
  unfold source_version.
  apply writes_within_bind; [apply writes_within_lift|]. intros dir.
  apply writes_within_bind.
  - unfold shell_source. apply writes_within_bind; [apply writes_within_emit|].
    intros _. apply writes_within_lift.
  - intros d w. now split.
Qed.

Lemma writes_within_fill_cache (h : host) (st : settings) (py_ver : string) :
  writes_within [] (fill_cache h st py_ver).
Proof.
  unfold fill_cache.
  apply writes_within_bind; [apply writes_within_gets|]. intros cache.
  destruct (PyDict.get cache py_ver); [destruct (force_source st)|];
    try apply writes_within_ret;
    apply writes_within_for_each; intros x; apply writes_within_source_version.
Qed.

Lemma writes_within_weaken {A} (ls : list loc) (m : M world A) :
  writes_within [] m -> writes_within ls m.
Proof.
  intros H w. destruct (H w) as [L F]. split; [exact L|].
  intros j _. apply F. intros [].
Qed.

Lemma writes_within_merge_cached (l : loc) (py_ver : string) :
  writes_within [l] (merge_cached l py_ver).
Proof.
  unfold merge_cached.
  apply writes_within_bind; [apply writes_within_gets|]. intros cache.
  apply writes_within_bind; [apply writes_within_lift|]. intros delta.
  apply writes_within_bind; [apply writes_within_deref|]. intros ce.
  apply writes_within_bind; [apply writes_within_lift|]. intros n.
  apply writes_within_update_in_place. now left.
Qed.

Lemma writes_within_prepend_wrappers (h : host) (st : settings) (l : loc)
      (py_ver : string) :
  writes_within [l] (prepend_wrappers h st l py_ver).
Proof.
  unfold prepend_wrappers.
  apply writes_within_bind; [apply writes_within_deref|]. intros ce.
  apply writes_within_bind; [apply writes_within_lift|]. intros old.
  apply writes_within_bind; [apply writes_within_lift|]. intros wd.
  apply writes_within_bind; [apply writes_within_lift|]. intros b.
  apply writes_within_setitem. now left.
Qed.

(** the part of the resolution that comes after the defaults *)
Lemma writes_within_strategy (h : host) (st : settings) (l : loc) (py_ver : string) :
  writes_within [l]
    (if use_wrapped st && option_truthy (PyDict.get (wrappers_dir h st) py_ver)
     then prepend_wrappers h st l py_ver
     else if negb (is_root_or_base py_ver) then
            bind (fill_cache h st py_ver) (fun _ => merge_cached l py_ver)
          else ret tt).
Proof.
  destruct (use_wrapped st && option_truthy (PyDict.get (wrappers_dir h st) py_ver)).
  - apply writes_within_prepend_wrappers.
  - destruct (negb (is_root_or_base py_ver)); [|apply writes_within_ret].
    apply writes_within_bind.
    + apply writes_within_weaken, writes_within_fill_cache.
    + intros _. apply writes_within_merge_cached.
Qed.

Lemma heap_unchanged {A} (m : M world A) (w : world) :
  writes_within [] m -> heap (snd (m w)) = heap w.
Proof.
  intros H. destruct (H w) as [_ F].
  apply nth_error_ext. intros j. apply F. intros [].
Qed.

(** [env if env else self.getenv(settings)] when the argument is falsy: a
    new object holds what [getenv] returned, and the old ones are as before *)
Lemma base_env_fresh (h : host) (st : settings) (a : option loc) (w : world) :
  truthy_arg a w = (Ok false, w) ->
  exists d w0,
    heap w0 = heap w
    /\ base_env h st a w = (Ok (length (heap w)), set_heap (heap w ++ [d])%list w0).
Proof.
  intros T. unfold base_env. unfold bind at 1. rewrite T.
  assert (G : exists d w0, heap w0 = heap w
                           /\ bind (getenv h st) alloc w
                              = (Ok (length (heap w)),
                                 set_heap (heap w ++ [d])%list w0)).
  { destruct (getenv_returns h st w) as [d D].
    pose proof (heap_unchanged (getenv h st) w (writes_within_getenv h st)) as U.
    unfold bind. destruct (getenv h st w) as [r w0]. simpl in D, U. subst r.
    exists d, w0. split; [exact U|]. unfold alloc. now rewrite U. }
  destruct a; exact G.
Qed.

Lemma truthy_arg_falsy (l : loc) (w : world) :
  nth_error (heap w) l = Some [] -> truthy_arg (Some l) w = (Ok false, w).
Proof.
  intros H. unfold truthy_arg, bind. now rewrite (deref_run _ _ _ H).
Qed.

Lemma nth_error_old {A} (l : list A) (x : A) (j : nat) (y : A) :
  nth_error l j = Some y -> nth_error (l ++ [x])%list j = Some y.
Proof.
  intros H. rewrite nth_error_app1; [exact H|].
  apply nth_error_Some. now rewrite H.
Qed.

Lemma nth_error_below {A} (l : list A) (j : nat) (y : A) :
  nth_error l j = Some y -> j <> length l.
Proof.
  intros H E. subst j.
  assert (length l < length l) by (apply nth_error_Some; now rewrite H). lia.
Qed.

(** what [env] does once it has its base object *)
Lemma writes_within_env_body (h : host) (st : settings) (l : loc) (ext : option loc) :
  writes_within [l]
    (bind (extend_in_place st l ext) (fun _ =>
     bind (deref l) (fun d =>
     lift (encode_items (encoder h) (PyDict.items d) PyDict.empty)))).
Proof.
  apply writes_within_bind; [apply writes_within_extend_in_place|]. intros _.
  apply writes_within_bind; [apply writes_within_deref|]. intros d.
  apply writes_within_lift.
Qed.

(** what the resolution does once it has its base object *)
Lemma writes_within_resolve_body (h : host) (st : settings) (l le : loc) :
  writes_within [l; le]
    (bind (default_extend_keys le) (fun py_ver =>
     bind (if use_wrapped st
              && option_truthy (PyDict.get (wrappers_dir h st) py_ver)
           then prepend_wrappers h st l py_ver
           else if negb (is_root_or_base py_ver) then
                  bind (fill_cache h st py_ver) (fun _ => merge_cached l py_ver)
                else ret tt)
          (fun _ => ret l))).
Proof.
  apply writes_within_bind.
  - unfold default_extend_keys.
    apply writes_within_bind; [apply writes_within_deref|]. intros e.
    apply writes_within_bind.
    { destruct (PyDict.mem e "PY_VERSION"); [apply writes_within_ret|].
      apply writes_within_setitem. right. now left. }
    intros _. apply writes_within_bind; [apply writes_within_deref|]. intros e1.
    apply writes_within_bind.
    { destruct (PyDict.mem e1 "PYTHONIOENCODING"); [apply writes_within_ret|].
      apply writes_within_setitem. right. now left. }
    intros _. apply writes_within_bind; [apply writes_within_deref|]. intros e2.
    apply writes_within_lift.
  - intros py_ver. apply writes_within_bind; [|intros _; apply writes_within_ret].
    intros w. destruct (writes_within_strategy h st l py_ver w) as [L F].
    split; [exact L|]. intros j J. apply F. intros [<-|[]]. apply J. now left.
Qed.

(** the sourcing branch, when it returns: the delta of the tag, as cached
    after the call, has been interpolated against the base and merged into
    the base object *)
Lemma resolve_merges_into_base (h : host) (st : settings) (w : world)
      (lb le : loc) (base ext : dict) (l : loc) :
  nth_error (heap w) lb = Some base ->
  PyDict.truthy base = true ->
  nth_error (heap w) le = Some ext ->
  lb <> le ->
  use_wrapped st = false ->
  is_root_or_base (requested_version ext) = false ->
  fst (SubprocessReplVenv_resolve h st (Some lb) (Some le) w) = Ok l ->
  let w' := snd (SubprocessReplVenv_resolve h st (Some lb) (Some le) w) in
  l = lb
  /\ exists delta new_env,
      PyDict.get (VENVS_ENVIRON w') (requested_version ext) = Some delta
      /\ interpolate_extend_env base delta = Ok new_env
      /\ nth_error (heap w') lb = Some (PyDict.update base new_env).
Proof.
  intros Hb T He N UW RB.
  destruct (SubprocessReplVenv_resolve h st (Some lb) (Some le) w) as [r w'] eqn:R.
  simpl. intros ->.
  unfold SubprocessReplVenv_resolve in R.
  unfold bind at 1 in R. rewrite (base_env_supplied _ _ _ _ _ Hb T) in R.
  unfold bind at 1 in R. rewrite (default_extend_keys_run _ _ _ He) in R.
  rewrite UW, RB in R. simpl andb in R. simpl negb in R. cbv iota in R.
  set (w1 := set_heap (list_set le (with_venv_defaults ext) (heap w)) w) in R.
  assert (Hb1 : nth_error (heap w1) lb = Some base).
  { subst w1. simpl. rewrite nth_error_list_set_other; auto. }
  unfold bind at 1 in R. unfold bind at 1 in R.
  pose proof (heap_unchanged (fill_cache h st (requested_version ext)) w1
                (writes_within_fill_cache h st _)) as U.
  destruct (fill_cache h st (requested_version ext) w1) as [[u|e] w2];
    simpl in U; [|discriminate].
  assert (Hb2 : nth_error (heap w2) lb = Some base) by (rewrite U; exact Hb1).
  unfold merge_cached in R. unfold bind at 1, gets in R.
  unfold bind at 1, lift at 1, getitem in R.
  destruct (PyDict.get (VENVS_ENVIRON w2) (requested_version ext)) as [delta|] eqn:G;
    [|discriminate].
  unfold bind at 1 in R. rewrite (deref_run _ _ _ Hb2) in R.
  unfold bind at 1, lift in R.
  destruct (interpolate_extend_env base delta) as [new_env|e] eqn:I; [|discriminate].
  rewrite (update_in_place_run _ _ _ _ Hb2) in R. unfold ret in R.
  inversion R; subst. split; [reflexivity|].
  exists delta, new_env. split; [exact G|]. split; [exact I|].
  simpl. eapply nth_error_list_set_same; eassumption.
Qed.

Lemma env_on_fresh_base (h : host) (st : settings) (a : option loc) (le : loc)
      (w : world) :
  truthy_arg a w = (Ok false, w) ->
  let we := snd (env h st a (Some le) w) in
  length (heap we) = S (length (heap w))
  /\ forall j y, nth_error (heap w) j = Some y -> nth_error (heap we) j = Some y.
Proof.
  intros T. destruct (base_env_fresh h st a w T) as [d [w0 [U B]]].
  assert (E : env h st a (Some le) w
              = bind (extend_in_place st (length (heap w)) (Some le)) (fun _ =>
                bind (deref (length (heap w))) (fun d0 =>
                lift (encode_items (encoder h) (PyDict.items d0) PyDict.empty)))
                  (set_heap (heap w ++ [d])%list w0)).
  { unfold env. unfold bind at 1. now rewrite B. }
  cbv zeta. rewrite E.
  destruct (writes_within_env_body h st (length (heap w)) (Some le)
              (set_heap (heap w ++ [d])%list w0)) as [L F].
  split.
  - rewrite L. simpl. rewrite length_app. simpl. lia.
  - intros j y Hj. rewrite F.
    + simpl. now apply nth_error_old.
    + intros [Q|[]]. now apply (nth_error_below _ _ _ Hj).
Qed.

Lemma resolve_on_fresh_base (h : host) (st : settings) (a : option loc) (le : loc)
      (w : world) :
  truthy_arg a w = (Ok false, w) ->
  let wv := snd (SubprocessReplVenv_resolve h st a (Some le) w) in
  length (heap wv) = S (length (heap w))
  /\ forall j y, j <> le -> nth_error (heap w) j = Some y ->
                 nth_error (heap wv) j = Some y.
Proof.
  intros T. destruct (base_env_fresh h st a w T) as [d [w0 [U B]]].
  pose proof (writes_within_resolve_body h st (length (heap w)) le
                (set_heap (heap w ++ [d])%list w0)) as LF.
  assert (E : SubprocessReplVenv_resolve h st a (Some le) w
              = bind (default_extend_keys le) (fun py_ver =>
                bind (if use_wrapped st
                         && option_truthy (PyDict.get (wrappers_dir h st) py_ver)
                      then prepend_wrappers h st (length (heap w)) py_ver
                      else if negb (is_root_or_base py_ver) then
                             bind (fill_cache h st py_ver)
                                  (fun _ => merge_cached (length (heap w)) py_ver)
                           else ret tt)
                     (fun _ => ret (length (heap w))))
                  (set_heap (heap w ++ [d])%list w0)).
  { unfold SubprocessReplVenv_resolve. unfold bind at 1. now rewrite B. }
  cbv zeta. rewrite E. destruct LF as [L F].
  split.
  - etransitivity; [exact L|]. simpl. rewrite length_app. simpl. lia.
  - intros j y Nj Hj. etransitivity.
    + apply F.
      intros [Q|[Q|[]]]; [now apply (nth_error_below _ _ _ Hj)|now apply Nj].
    + simpl. now apply nth_error_old.
Qed.

Lemma resolve_on_supplied_base (h : host) (st : settings) (w : world)
      (lb le : loc) (base ext : dict) :
  nth_error (heap w) lb = Some base ->
  PyDict.truthy base = true ->
  nth_error (heap w) le = Some ext ->
  lb <> le ->
  let wv := snd (SubprocessReplVenv_resolve h st (Some lb) (Some le) w) in
  nth_error (heap wv) le = Some (with_venv_defaults ext)
  /\ length (heap wv) = length (heap w).
Proof.
  intros Hb T He N.
  set (w1 := set_heap (list_set le (with_venv_defaults ext) (heap w)) w).
  assert (E : SubprocessReplVenv_resolve h st (Some lb) (Some le) w
              = bind (if use_wrapped st
                         && option_truthy (PyDict.get (wrappers_dir h st)
                                                      (requested_version ext))
                      then prepend_wrappers h st lb (requested_version ext)
                      else if negb (is_root_or_base (requested_version ext)) then
                             bind (fill_cache h st (requested_version ext))
                                  (fun _ => merge_cached lb (requested_version ext))
                           else ret tt)
                     (fun _ => ret lb) w1).
  { unfold SubprocessReplVenv_resolve.
    unfold bind at 1. rewrite (base_env_supplied _ _ _ _ _ Hb T).
    unfold bind at 1. now rewrite (default_extend_keys_run _ _ _ He). }
  cbv zeta. rewrite E.
  assert (S : writes_within [lb]
                (bind (if use_wrapped st
                          && option_truthy (PyDict.get (wrappers_dir h st)
                                                       (requested_version ext))
                       then prepend_wrappers h st lb (requested_version ext)
                       else if negb (is_root_or_base (requested_version ext)) then
                              bind (fill_cache h st (requested_version ext))
                                   (fun _ => merge_cached lb (requested_version ext))
                            else ret tt)
                      (fun _ => ret lb))).
  { apply writes_within_bind; [apply writes_within_strategy|].
    intros _. apply writes_within_ret. }
  destruct (S w1) as [L F]. split.
  - etransitivity; [apply F; intros [Q|[]]; now apply N|].
    subst w1. simpl. eapply nth_error_list_set_same; eassumption.
  - etransitivity; [exact L|]. subst w1. simpl. apply length_list_set.
Qed.

Lemma truthy_false_empty {V} (d : PyDict.t V) : PyDict.truthy d = false -> d = [].
Proof. destruct d; [reflexivity|discriminate]. Qed.

(** C10, as the code has it.  A supplied base that is not empty is the
    object the build works on: [env] leaves in it the base updated with the
    interpolated entries and allocates nothing, and the virtualenv
    constructor writes the missing PY_VERSION and PYTHONIOENCODING defaults
    into the supplied [extend_env] and, when it sources, merges the
    interpolated delta of the tag into the supplied base.  A supplied base
    that is empty is treated as no base at all: a new object is allocated for
    the snapshot and the supplied one is left as it was. *)
Theorem build_mutates_supplied_nonempty_base
        (h : host) (st : settings) (w : world) (lb le : loc) (base ext : dict) :
  nth_error (heap w) lb = Some base ->
  nth_error (heap w) le = Some ext ->
  lb <> le ->
  let we := snd (env h st (Some lb) (Some le) w) in
  let wv := snd (SubprocessReplVenv_resolve h st (Some lb) (Some le) w) in
  (PyDict.truthy base = true ->
     (forall n1 n2,
         interpolate_extend_env base (default_extend_env st) = Ok n1 ->
         interpolate_extend_env (PyDict.update base n1) ext = Ok n2 ->
         heap we = list_set lb (PyDict.update (PyDict.update base n1) n2) (heap w))
     /\ length (heap we) = length (heap w)
     /\ nth_error (heap wv) le = Some (with_venv_defaults ext)
     /\ length (heap wv) = length (heap w)
     /\ (use_wrapped st = false ->
         is_root_or_base (requested_version ext) = false ->
         forall l,
           fst (SubprocessReplVenv_resolve h st (Some lb) (Some le) w) = Ok l ->
           l = lb
           /\ exists delta new_env,
               PyDict.get (VENVS_ENVIRON wv) (requested_version ext) = Some delta
               /\ interpolate_extend_env base delta = Ok new_env
               /\ nth_error (heap wv) lb = Some (PyDict.update base new_env)))
  /\ (PyDict.truthy base = false ->
      nth_error (heap we) lb = Some base
      /\ length (heap we) = S (length (heap w))
      /\ nth_error (heap wv) lb = Some base
      /\ length (heap wv) = S (length (heap w)))
  /\ length (heap (snd (env h st None (Some le) w))) = S (length (heap w)).
Proof.
  intros Hb He N we wv. split; [|split].
  - intros T. split; [|split; [|split; [|split]]].
    + intros n1 n2 I1 I2. subst we.
      now rewrite (env_run h st (Some lb) w w lb le base ext n1 n2
                     (base_env_supplied _ _ _ _ _ Hb T) Hb He N I1 I2).
    + subst we. unfold env. unfold bind at 1.
      rewrite (base_env_supplied _ _ _ _ _ Hb T).
      apply (writes_within_env_body h st lb (Some le) w).
    + apply (resolve_on_supplied_base h st w lb le base ext Hb T He N).
    + apply (resolve_on_supplied_base h st w lb le base ext Hb T He N).
    + intros UW RB l R.
      exact (resolve_merges_into_base h st w lb le base ext l Hb T He N UW RB R).
  - intros T. pose proof (truthy_false_empty _ T) as E. subst base.
    pose proof (truthy_arg_falsy lb w Hb) as TA.
    destruct (env_on_fresh_base h st (Some lb) le w TA) as [L1 F1].
    destruct (resolve_on_fresh_base h st (Some lb) le w TA) as [L2 F2].
    repeat split; auto.
  - now destruct (env_on_fresh_base h st None le w eq_refl).
Qed.

Lemma build_mutates_supplied_nonempty_base_witness :
  let w := Sample.venv_world in
  let we := snd (env Sample.one_env_host (Sample.sample_settings false)
                     (Some 0) (Some 1) w) in
  let wv := snd (SubprocessReplVenv_resolve Sample.one_env_host
                   (Sample.sample_settings false) (Some 0) (Some 1) w) in
  nth_error (heap we) 0 = Some [("PATH", "/usr/bin"); ("PY_VERSION", "py3")]
  /\ length (heap we) = 2
  /\ nth_error (heap wv) 1 = Some [("PY_VERSION", "py3"); ("PYTHONIOENCODING", "utf-8")]
  /\ nth_error (heap wv) 0
     = Some [("PATH", "/home/sam/envs/py3/bin:/usr/bin");
             ("VIRTUAL_ENV", "/home/sam/envs/py3")].
Proof.
  pose proof (build_mutates_supplied_nonempty_base
                Sample.one_env_host (Sample.sample_settings false)
                Sample.venv_world 0 1
                [("PATH", "/usr/bin")] [("PY_VERSION", "py3")]
                eq_refl eq_refl (fun E : 0 = 1 => O_S 0 E)) as [H _].
  destruct (H eq_refl) as [A [B [C [_ D]]]].
  destruct (D eq_refl eq_refl 0 eq_refl) as [_ [delta [new_env [G [I M]]]]].
  cbv zeta. split; [|split; [exact B|split; [exact C|]]].
  - exact (f_equal (fun hp => nth_error hp 0)
                   (A [] [("PY_VERSION", "py3")] eq_refl eq_refl)).
  - etransitivity; [exact M|]. f_equal.
    vm_compute in G. inversion G; subst delta.
    vm_compute in I. inversion I; subst new_env. reflexivity.
Defined.

(** C10, as stated, fails: the caller supplies an empty dict as base (at
    location 0) and the templates A = x; after [env] the supplied dict is
    still empty, and the entries are in a new object, the snapshot of the
    inherited environment. *)
Lemma env_leaves_supplied_empty_base_alone :
  let w := Sample.world_of [[]; [("A", "x")]] in
  let we := snd (env Sample.one_env_host (Sample.sample_settings false)
                     (Some 0) (Some 1) w) in
  nth_error (heap w) 0 = Some []
  /\ nth_error (heap we) 0 = Some []
  /\ nth_error (heap we) 2
     = Some [("PATH", "/usr/bin"); ("HOME", "/home/sam"); ("A", "x")]
  /\ length (heap we) = 3.
Proof. repeat split. Qed.

(** ** Sourcing and the cache *)

Lemma sourcing_count_emit (e : event) (w : world) :
  sourcing_count (snd (emit e w))
  = sourcing_count w + (if is_source e then 1 else 0).
Proof.
  unfold sourcing_count, emit, modify. simpl.
  rewrite filter_app, length_app. simpl. now destruct (is_source e).
Qed.

Lemma no_sourcing_ret {A} (a : A) : no_sourcing (ret a).
Proof. intros w. now split. Qed.

Lemma no_sourcing_raise {A} (e : exn) : no_sourcing (@raise world A e).
Proof. intros w. now split. Qed.

Lemma no_sourcing_lift {A} (r : result A) : no_sourcing (lift r).
Proof. intros w. now split. Qed.

Lemma no_sourcing_gets {A} (f : world -> A) : no_sourcing (gets f).
Proof. intros w. now split. Qed.

Lemma no_sourcing_bind {A B} (m : M world A) (k : A -> M world B) :
  no_sourcing m -> (forall a, no_sourcing (k a)) -> no_sourcing (bind m k).
Proof.
  intros Hm Hk w. unfold bind. specialize (Hm w).
  destruct (m w) as [[a|e] w1]; simpl in *; [|exact Hm].
  destruct Hm as [C V]. destruct (Hk a w1) as [C' V'].
  split; congruence.
Qed.

Lemma no_sourcing_deref (l : loc) : no_sourcing (deref l).
Proof. intros w. unfold deref. now destruct (nth_error (heap w) l). Qed.

Lemma no_sourcing_store (l : loc) (d : dict) : no_sourcing (store l d).
Proof. intros w. now split. Qed.

Lemma no_sourcing_alloc (d : dict) : no_sourcing (alloc d).
Proof. intros w. now split. Qed.

Lemma no_sourcing_update_in_place (l : loc) (e : dict) :
  no_sourcing (update_in_place l e).
Proof.
  apply no_sourcing_bind; [apply no_sourcing_deref|].
  intros d. apply no_sourcing_store.
Qed.

Lemma no_sourcing_emit (e : event) : is_source e = false -> no_sourcing (emit e).
Proof.
  intros H w. split; [|reflexivity].
  rewrite sourcing_count_emit, H. lia.
Qed.

Lemma no_sourcing_try_except {A} (m handler : M world A) :
  no_sourcing m -> no_sourcing handler -> no_sourcing (try_except m handler).
Proof.
  intros Hm Hh w. unfold try_except. specialize (Hm w).
  destruct (m w) as [[a|e] w1]; simpl in *; [exact Hm|].
  destruct Hm as [C V].
  assert (G : sourcing_count (snd (handler w1)) = sourcing_count w
              /\ VENVS_ENVIRON (snd (handler w1)) = VENVS_ENVIRON w).
  { destruct (Hh w1) as [C' V']. split; congruence. }
  destruct e; simpl; auto.
Qed.

Lemma no_sourcing_getenv (h : host) (st : settings) : no_sourcing (getenv h st).
Proof.
  unfold getenv.
  destruct (list_truthy (getenv_command st) && POSIX h); [|apply no_sourcing_ret].
  apply no_sourcing_try_except.
  - apply no_sourcing_bind; [now apply no_sourcing_emit|]. intros _.
    destruct (getenv_output h (getenv_command st));
      [apply no_sourcing_lift|apply no_sourcing_raise].
  - apply no_sourcing_bind; [now apply no_sourcing_emit|]. intros _.
    apply no_sourcing_ret.
Qed.

Lemma no_sourcing_base_env (h : host) (st : settings) (a : option loc) :
  no_sourcing (base_env h st a).
Proof.
  unfold base_env. apply no_sourcing_bind.
  - destruct a as [l|]; simpl; [|apply no_sourcing_ret].
    apply no_sourcing_bind; [apply no_sourcing_deref|].
    intros d. apply no_sourcing_ret.
  - intros supplied.
    assert (G : no_sourcing (bind (getenv h st) alloc)).
    { apply no_sourcing_bind; [apply no_sourcing_getenv|].
      intros d. apply no_sourcing_alloc. }
    destruct a as [l|]; [destruct supplied|]; auto using no_sourcing_ret.
Qed.

Lemma no_sourcing_merge_cached (l : loc) (py_ver : string) :
  no_sourcing (merge_cached l py_ver).
Proof.
  unfold merge_cached.
  apply no_sourcing_bind; [apply no_sourcing_gets|]. intros cache.
  apply no_sourcing_bind; [apply no_sourcing_lift|]. intros delta.
  apply no_sourcing_bind; [apply no_sourcing_deref|]. intros ce.
  apply no_sourcing_bind; [apply no_sourcing_lift|]. intros n.
  apply no_sourcing_update_in_place.
Qed.

(** one turn of the loop: one login shell, one cache entry *)
Lemma source_version_run (h : host) (st : settings) (version dir : string)
      (d : dict) (w : world) :
  activate_dir h st version = Ok dir ->
  parse_source_output
    (source_stdout h (path_join (os_path h) dir "activate") version) = Ok d ->
  source_version h st version w
  = (Ok tt,
     set_cache (PyDict.set (VENVS_ENVIRON w) version d)
       (set_events
          (events w ++ [RanSource (path_join (os_path h) dir "activate") version])%list
          w)).
Proof.
  intros HA HP. unfold source_version, bind at 1, lift at 1. rewrite HA.
  unfold bind at 1, shell_source, bind at 1, emit, modify, lift. rewrite HP.
  reflexivity.
Qed.

(** the loop over the discovered tags: as many login shells as tags, and an
    entry for every tag afterwards *)
Lemma for_each_source_version (h : host) (st : settings) (tags : list string) :
  forall w,
    (forall v, In v tags -> sources_cleanly h st v) ->
    exists w',
      for_each tags (source_version h st) w = (Ok tt, w')
      /\ sourcing_count w' = sourcing_count w + length tags
      /\ (forall v, In v tags -> exists d, PyDict.get (VENVS_ENVIRON w') v = Some d)
      /\ (forall v d, PyDict.get (VENVS_ENVIRON w) v = Some d ->
                      exists d', PyDict.get (VENVS_ENVIRON w') v = Some d').
Proof.
  induction tags as [|t r IH]; intros w HS.
  - exists w. simpl. repeat split; [lia|contradiction|eauto].
  - destruct (HS t (or_introl eq_refl)) as [dir [d [HA HP]]].
    set (w1 := set_cache (PyDict.set (VENVS_ENVIRON w) t d)
                 (set_events
                    (events w ++ [RanSource (path_join (os_path h) dir "activate") t])%list
                    w)).
    destruct (IH w1 (fun v I => HS v (or_intror I))) as [w' [R [C [K1 K2]]]].
    exists w'. simpl. unfold bind.
    rewrite (source_version_run h st t dir d w HA HP). fold w1.
    split; [exact R|].
    assert (C1 : sourcing_count w1 = sourcing_count w + 1).
    { unfold w1, sourcing_count. simpl. rewrite filter_app, length_app.
      reflexivity. }
    assert (G1 : PyDict.get (VENVS_ENVIRON w1) t = Some d)
      by apply get_set_same.
    split; [lia|]. split.
    + intros v [<-|I]; [exact (K2 _ _ G1)|auto].
    + intros v d0 G. destruct (String.eqb t v) eqn:E.
      * apply String.eqb_eq in E; subst v. exact (K2 _ _ G1).
      * apply (K2 v d0). unfold w1. simpl.
        rewrite get_set_other; [exact G|].
        intros ->. now rewrite String.eqb_refl in E.
Qed.

(** the sourcing path when the tag is cached: nothing is sourced *)
Lemma resolve_cached (h : host) (st : settings) (env_arg : option loc)
      (w w0 : world) (lb le : loc) (ext cached : dict) :
  base_env h st env_arg w = (Ok lb, w0) ->
  nth_error (heap w0) le = Some ext ->
  use_wrapped st
  && option_truthy (PyDict.get (wrappers_dir h st) (requested_version ext)) = false ->
  is_root_or_base (requested_version ext) = false ->
  force_source st = false ->
  PyDict.get (VENVS_ENVIRON w0) (requested_version ext) = Some cached ->
  let w' := snd (SubprocessReplVenv_resolve h st env_arg (Some le) w) in
  sourcing_count w' = sourcing_count w0
  /\ VENVS_ENVIRON w' = VENVS_ENVIRON w0.
Proof.
  intros HB He NW RB FS G.
  set (w1 := set_heap (list_set le (with_venv_defaults ext) (heap w0)) w0).
  assert (E : SubprocessReplVenv_resolve h st env_arg (Some le) w
              = bind (merge_cached lb (requested_version ext))
                     (fun _ => ret lb) w1).
  { unfold SubprocessReplVenv_resolve.
    unfold bind at 1. rewrite HB.
    unfold bind at 1. rewrite (default_extend_keys_run _ _ _ He).
    rewrite NW, RB. simpl negb. cbv iota. fold w1.
    unfold bind at 1. unfold bind at 1.
    unfold fill_cache, bind at 1, gets.
    change (VENVS_ENVIRON w1) with (VENVS_ENVIRON w0). rewrite G, FS.
    unfold ret at 1. reflexivity. }
  cbv zeta. rewrite E.
  assert (S : no_sourcing (bind (merge_cached lb (requested_version ext))
                                (fun _ => ret lb))).
  { apply no_sourcing_bind; [apply no_sourcing_merge_cached|].
    intros _. apply no_sourcing_ret. }
  destruct (S w1) as [C V]. split.
  - etransitivity; [exact C|reflexivity].
  - etransitivity; [exact V|reflexivity].
Qed.

(** the sourcing path when the tag is not cached: every discovered tag is
    sourced, each by its own login shell *)
Lemma resolve_sources_every_tag (h : host) (st : settings) (env_arg : option loc)
      (w w0 : world) (lb le : loc) (ext : dict) :
  base_env h st env_arg w = (Ok lb, w0) ->
  nth_error (heap w0) le = Some ext ->
  use_wrapped st
  && option_truthy (PyDict.get (wrappers_dir h st) (requested_version ext)) = false ->
  is_root_or_base (requested_version ext) = false ->
  PyDict.get (VENVS_ENVIRON w0) (requested_version ext) = None ->
  (forall v, In v (PyDict.keys (venvs_bin_dir h st)) -> sources_cleanly h st v) ->
  let w' := snd (SubprocessReplVenv_resolve h st env_arg (Some le) w) in
  sourcing_count w' = sourcing_count w0 + length (PyDict.keys (venvs_bin_dir h st))
  /\ forall v, In v (PyDict.keys (venvs_bin_dir h st)) ->
               exists d, PyDict.get (VENVS_ENVIRON w') v = Some d.
Proof.
  intros HB He NW RB G HS.
  set (w1 := set_heap (list_set le (with_venv_defaults ext) (heap w0)) w0).
  destruct (for_each_source_version h st (PyDict.keys (venvs_bin_dir h st)) w1 HS)
    as [w2 [R [C [K _]]]].
  assert (E : SubprocessReplVenv_resolve h st env_arg (Some le) w
              = bind (merge_cached lb (requested_version ext))
                     (fun _ => ret lb) w2).
  { unfold SubprocessReplVenv_resolve.
    unfold bind at 1. rewrite HB.
    unfold bind at 1. rewrite (default_extend_keys_run _ _ _ He).
    rewrite NW, RB. simpl negb. cbv iota. fold w1.
    unfold bind at 1. unfold bind at 1.
    unfold fill_cache, bind at 1, gets.
    change (VENVS_ENVIRON w1) with (VENVS_ENVIRON w0). rewrite G, R.
    reflexivity. }
  cbv zeta. rewrite E.
  assert (S : no_sourcing (bind (merge_cached lb (requested_version ext))
                                (fun _ => ret lb))).
  { apply no_sourcing_bind; [apply no_sourcing_merge_cached|].
    intros _. apply no_sourcing_ret. }
  destruct (S w2) as [C2 V2]. split.
  - etransitivity; [exact C2|]. exact C.
  - intros v I. destruct (K v I) as [d D]. exists d.
    etransitivity; [|exact D]. f_equal. exact V2.
Qed.

(** C2, as the code has it.  For a tag that is neither root nor base,
    without forced re-sourcing and when the wrapper branch is not taken: a
    cached tag is resolved without any sourcing and leaves the cache as it is;
    a tag that is not cached makes the loop source every discovered tag, one
    login shell per tag, after which every discovered tag is cached, so that
    a second resolution of a discovered tag sources nothing more. *)
Theorem sourcing_runs_once_per_discovered_tag
        (h : host) (st : settings) (env_arg : option loc) (w w0 : world)
        (lb le : loc) (ext : dict) :
  base_env h st env_arg w = (Ok lb, w0) ->
  nth_error (heap w0) le = Some ext ->
  use_wrapped st
  && option_truthy (PyDict.get (wrappers_dir h st) (requested_version ext)) = false ->
  is_root_or_base (requested_version ext) = false ->
  force_source st = false ->
  let t := requested_version ext in
  let tags := PyDict.keys (venvs_bin_dir h st) in
  let w' := snd (SubprocessReplVenv_resolve h st env_arg (Some le) w) in
  (forall cached,
      PyDict.get (VENVS_ENVIRON w0) t = Some cached ->
      sourcing_count w' = sourcing_count w0
      /\ VENVS_ENVIRON w' = VENVS_ENVIRON w0)
  /\ (PyDict.get (VENVS_ENVIRON w0) t = None ->
      (forall v, In v tags -> sources_cleanly h st v) ->
      sourcing_count w' = sourcing_count w0 + length tags
      /\ (forall v, In v tags -> exists d, PyDict.get (VENVS_ENVIRON w') v = Some d)
      /\ (In t tags ->
          forall (env_arg2 : option loc) (lb2 le2 : loc) (w2 : world) (ext2 : dict),
            base_env h st env_arg2 w' = (Ok lb2, w2) ->
            nth_error (heap w2) le2 = Some ext2 ->
            requested_version ext2 = t ->
            sourcing_count (snd (SubprocessReplVenv_resolve h st env_arg2
                                   (Some le2) w'))
            = sourcing_count w')).
Proof.
  intros HB He NW RB FS t tags w'. split.
  - intros cached G.
    exact (resolve_cached h st env_arg w w0 lb le ext cached HB He NW RB FS G).
  - intros G HS.
    destruct (resolve_sources_every_tag h st env_arg w w0 lb le ext
                HB He NW RB G HS) as [C K].
    split; [exact C|]. split; [exact K|].
    intros I env_arg2 lb2 le2 w2 ext2 HB2 He2 RV.
    destruct (K t I) as [d D].
    destruct (no_sourcing_base_env h st env_arg2 w') as [C2 V2].
    rewrite HB2 in C2, V2. simpl in C2, V2.
    assert (D2 : PyDict.get (VENVS_ENVIRON w2) (requested_version ext2) = Some d).
    { rewrite RV, V2. exact D. }
    assert (NW2 : use_wrapped st
                  && option_truthy (PyDict.get (wrappers_dir h st)
                                               (requested_version ext2)) = false)
      by (rewrite RV; exact NW).
    assert (RB2 : is_root_or_base (requested_version ext2) = false)
      by (rewrite RV; exact RB).
    destruct (resolve_cached h st env_arg2 w' w2 lb2 le2 ext2 d
                HB2 He2 NW2 RB2 FS D2) as [C3 _].
    etransitivity; [exact C3|exact C2].
Qed.

(** the scenario of one environment, py3, under ~/envs: the first resolution
    sources once and the second not at all *)
Lemma sourcing_runs_once_per_discovered_tag_witness :
  let h := Sample.one_env_host in
  let st := Sample.sample_settings false in
  let w' := snd (SubprocessReplVenv_resolve h st (Some 0) (Some 1)
                   Sample.venv_world) in
  let w'' := snd (SubprocessReplVenv_resolve h st (Some 0) (Some 1) w') in
  sourcing_count Sample.venv_world = 0
  /\ sourcing_count w' = 1
  /\ (exists d, PyDict.get (VENVS_ENVIRON w') "py3" = Some d)
  /\ sourcing_count w'' = sourcing_count w'.
Proof.
  intros h st w' w''.
  pose proof (sourcing_runs_once_per_discovered_tag
                h st (Some 0) Sample.venv_world Sample.venv_world 0 1
                [("PY_VERSION", "py3")]
                eq_refl eq_refl eq_refl eq_refl eq_refl) as [_ H].
  assert (HS : forall v, In v (PyDict.keys (venvs_bin_dir h st)) ->
                         sources_cleanly h st v).
  { intros v [<-|[]].
    exists "/home/sam/envs/py3/bin",
      [("VIRTUAL_ENV", "/home/sam/envs/py3");
       ("PATH", "/home/sam/envs/py3/bin:/usr/bin")].
    split; reflexivity. }
  destruct (H eq_refl HS) as [C [K S2]].
  split; [reflexivity|]. split; [exact C|]. split.
  - exact (K "py3" (or_introl eq_refl)).
  - exact (S2 (or_introl eq_refl) (Some 0) 0 1 w'
              [("PY_VERSION", "py3"); ("PYTHONIOENCODING", "utf-8")]
              eq_refl eq_refl eq_refl).
Defined.

(** C2, as stated, fails: with two environments on disk, py2 and py3, and
    an empty cache, resolving py3 starts two login shells, one for each
    discovered tag, not one for the batch. *)
Lemma two_environments_are_sourced_by_two_shells :
  let w := Sample.venv_world in
  let w' := snd (SubprocessReplVenv_resolve Sample.two_env_host
                   (Sample.sample_settings false) (Some 0) (Some 1) w) in
  PyDict.get (VENVS_ENVIRON w) "py3" = None
  /\ sourcing_count w = 0
  /\ events w' = [RanSource "/home/sam/envs/py2/bin/activate" "py2";
                  RanSource "/home/sam/envs/py3/bin/activate" "py3"]
  /\ sourcing_count w' = 2.
Proof. repeat split. Qed.

(** * Further properties *)

(** ** The login-shell environment *)

Lemma sanitize_raises_index_error kw acc e :
  sanitize_kw_pairs kw acc = Raise e -> e = IndexError.
Proof.
  revert acc. induction kw as [|[a [b|]] r IH]; simpl; intros acc H;
    [discriminate|eauto|].
  match type of H with
  | context [append_to_last ?x ?y] => destruct (append_to_last x y)
  end; [eauto|now inversion H].
Qed.

(** X1.  [getenv] always returns an environment: the parsed dump when the
    command is configured, the host is POSIX, the command runs and its dump
    parses, and the inherited environment in every other case; a failure is
    reported once and never raised.  It touches neither the store, nor the
    cache, nor the processes. *)
Theorem getenv_always_returns (h : host) (st : settings) (w : world) :
  let asked := list_truthy (getenv_command st) && POSIX h in
  let parsed := match getenv_output h (getenv_command st) with
                | Some output =>
                    match parse_getenv_output output with
                    | Ok d => Some d
                    | Raise _ => None
                    end
                | None => None
                end in
  fst (getenv h st w)
  = Ok (if asked then match parsed with Some d => d | None => os_environ h end
        else os_environ h)
  /\ events (snd (getenv h st w))
     = (events w ++ (if asked
                     then RanGetenv (getenv_command st)
                          :: match parsed with Some _ => [] | None => [ShowedError] end
                     else []))%list
  /\ heap (snd (getenv h st w)) = heap w
  /\ VENVS_ENVIRON (snd (getenv h st w)) = VENVS_ENVIRON w
  /\ procs (snd (getenv h st w)) = procs w.
Proof.
  cbv zeta. unfold getenv.
  destruct (list_truthy (getenv_command st) && POSIX h).
  - unfold try_except, bind, emit, modify, lift, raise, ret. simpl.
    destruct (getenv_output h (getenv_command st)) as [output|]; simpl.
    + destruct (parse_getenv_output output) as [d|e] eqn:E; simpl.
      * repeat split.
      * assert (e = IndexError).
        { unfold parse_getenv_output in E.
          destruct (sanitize_kw_pairs (map (split1 "=") (splitlines output)) [])
            as [ps|e'] eqn:S; simpl in E; [discriminate|].
          inversion E; subst e'. exact (sanitize_raises_index_error _ _ _ S). }
        subst e. simpl. rewrite <- app_assoc. repeat split.
    + rewrite <- app_assoc. repeat split.
  - simpl. rewrite app_nil_r. repeat split.
Qed.

Lemma append_to_last_some (pairs : list (string * string)) (text : string) :
  pairs <> [] ->
  exists pairs', append_to_last pairs text = Some pairs' /\ pairs' <> [].
Proof.
  induction pairs as [|[k v] r IH]; intros N; [contradiction|].
  destruct r as [|p r'].
  - simpl. eexists. split; [reflexivity|discriminate].
  - destruct IH as [ps [E _]]; [discriminate|].
    change (append_to_last ((k, v) :: p :: r') text)
      with (option_map (cons (k, v)) (append_to_last (p :: r') text)).
    rewrite E. simpl. eexists. split; [reflexivity|discriminate].
Qed.

Lemma sanitize_after_first_pair kw acc :
  acc <> [] -> exists pairs, sanitize_kw_pairs kw acc = Ok pairs.
Proof.
  revert acc. induction kw as [|[a [b|]] r IH]; simpl; intros acc N.
  - eauto.
  - apply IH. now destruct acc.
  - destruct (append_to_last_some acc (String LF a) N) as [ps [E N']].
    change (str1 LF ++ a) with (String LF a). rewrite E. now apply IH.
Qed.

(** X2.  The dump parser of [getenv] fails in one case only: the first
    line has no equals sign, so that there is no previous pair to fold it
    into; the failure is an [IndexError].  An empty dump gives the empty
    environment, and a dump whose first line has an equals sign always
    parses. *)
Theorem getenv_dump_fails_only_on_first_line (output : string) :
  match splitlines output with
  | [] => parse_getenv_output output = Ok []
  | first :: _ =>
      if has_equals first
      then exists d, parse_getenv_output output = Ok d
      else parse_getenv_output output = Raise IndexError
  end.
Proof.
  unfold parse_getenv_output, has_equals.
  destruct (splitlines output) as [|first rest]; [reflexivity|].
  simpl map. destruct (split1 "=" first) as [a [b|]]; simpl.
  - destruct (sanitize_after_first_pair (map (split1 "=") rest) [(a, b)])
      as [pairs E]; [discriminate|].
    rewrite E. simpl. eauto.
  - reflexivity.
Qed.

(** X3.  The dump parser of [shell_source] succeeds exactly when every
    line of the dump has an equals sign; one line without it makes the
    whole call raise [ValueError]. *)
Theorem source_dump_parses_iff_every_line_has_equals (output : string) :
  if forallb has_equals (splitlines output)
  then exists d, parse_source_output output = Ok d
  else parse_source_output output = Raise ValueError.
Proof.
  unfold parse_source_output.
  assert (P : forall lines,
             if forallb has_equals lines
             then exists pairs, pairs_of_lines lines = Ok pairs
             else pairs_of_lines lines = Raise ValueError).
  { induction lines as [|line r IH]; simpl; [eauto|].
    unfold has_equals at 1.
    destruct (split1 "=" line) as [key [value|]]; simpl; [|reflexivity].
    destruct (forallb has_equals r).
    - destruct IH as [pairs E]. rewrite E. simpl. eauto.
    - now rewrite IH. }
  specialize (P (splitlines output)).
  destruct (forallb has_equals (splitlines output)).
  - destruct P as [pairs E]. rewrite E. simpl. eauto.
  - now rewrite P.
Qed.

(** ** Failing templates and the shape of an interpolation *)

(** X4.  Each phase of [env] is applied as a whole or not at all.  When a
    default template cannot be interpolated, the error leaves [env] and the
    base is as it was; when a caller's template cannot be, the error leaves
    [env] and the base holds the defaults and none of the caller's
    entries. *)
Theorem failed_template_leaves_phase_unapplied
        (h : host) (st : settings) (env_arg : option loc) (w w0 : world)
        (lb le : loc) (base ext : dict) (e : exn) :
  base_env h st env_arg w = (Ok lb, w0) ->
  nth_error (heap w0) lb = Some base ->
  nth_error (heap w0) le = Some ext ->
  lb <> le ->
  (interpolate_extend_env base (default_extend_env st) = Raise e ->
   env h st env_arg (Some le) w = (Raise e, w0))
  /\ (forall n1,
         interpolate_extend_env base (default_extend_env st) = Ok n1 ->
         interpolate_extend_env (PyDict.update base n1) ext = Raise e ->
         env h st env_arg (Some le) w
         = (Raise e,
            set_heap (list_set lb (PyDict.update base n1) (heap w0)) w0)).
Proof.
  intros HB Hb He N. split.
  - intros I1. unfold env. unfold bind at 1. rewrite HB.
    unfold bind at 1, extend_in_place. unfold bind at 1.
    destruct (PyDict.truthy (default_extend_env st)) eqn:T.
    + unfold bind at 1. rewrite (deref_run _ _ _ Hb).
      unfold bind at 1, lift. now rewrite I1.
    + destruct (default_extend_env st); discriminate.
  - intros n1 I1 I2.
    set (b1 := PyDict.update base n1) in *.
    assert (P1 : (if PyDict.truthy (default_extend_env st)
                  then bind (deref lb) (fun d =>
                       bind (lift (interpolate_extend_env d (default_extend_env st)))
                            (fun new_env => update_in_place lb new_env))
                  else ret tt) w0
                 = (Ok tt, set_heap (list_set lb b1 (heap w0)) w0)).
    { destruct (PyDict.truthy (default_extend_env st)) eqn:T.
      - unfold bind at 1. rewrite (deref_run _ _ _ Hb).
        unfold bind at 1, lift. rewrite I1.
        now rewrite (update_in_place_run _ _ _ _ Hb).
      - destruct (default_extend_env st); [|discriminate].
        inversion I1; subst n1. subst b1.
        change (PyDict.update base PyDict.empty) with base.
        unfold ret. f_equal. symmetry. now apply set_heap_unchanged. }
    set (w1 := set_heap (list_set lb b1 (heap w0)) w0) in *.
    assert (Hb1 : nth_error (heap w1) lb = Some b1).
    { subst w1. simpl. eapply nth_error_list_set_same; eassumption. }
    assert (He1 : nth_error (heap w1) le = Some ext).
    { subst w1. simpl. now rewrite nth_error_list_set_other. }
    assert (T : PyDict.truthy ext = true).
    { destruct ext; [discriminate|reflexivity]. }
    unfold env. unfold bind at 1. rewrite HB.
    unfold bind at 1, extend_in_place. unfold bind at 1. rewrite P1.
    unfold bind at 1, truthy_arg, bind at 1. rewrite (deref_run _ _ _ He1).
    unfold ret at 1. rewrite T.
    unfold bind at 1. rewrite (deref_run _ _ _ Hb1).
    unfold bind at 1. rewrite (deref_run _ _ _ He1).
    unfold bind at 1, lift. now rewrite I2.
Qed.

Lemma failed_template_leaves_phase_unapplied_witness :
  env Sample.one_env_host Sample.settings_with_defaults (Some 0) (Some 1)
      Case.missing_name_world
  = (Raise (KeyError "MISSING"),
     Sample.world_of [[("HOME", "/h"); ("A", "/h/a")]; [("B", "{MISSING}")]]).
Proof.
  refine (proj2 (failed_template_leaves_phase_unapplied
                   Sample.one_env_host Sample.settings_with_defaults (Some 0)
                   Case.missing_name_world Case.missing_name_world 0 1
                   [("HOME", "/h")] [("B", "{MISSING}")] (KeyError "MISSING")
                   eq_refl eq_refl eq_refl _)
                [("A", "/h/a")] eq_refl eq_refl).
  discriminate.
Defined.

Lemma keys_set_new {V} (d : PyDict.t V) k v :
  ~ In k (PyDict.keys d) ->
  PyDict.keys (PyDict.set d k v) = (PyDict.keys d ++ [k])%list.
Proof.
  induction d as [|[k' v'] r IH]; simpl; intros N; [reflexivity|].
  destruct (String.eqb k' k) eqn:E.
  - apply String.eqb_eq in E. exfalso. apply N. now left.
  - simpl. f_equal. apply IH. intros I. apply N. now right.
Qed.

Lemma interpolate_items_keys (env : dict) items (acc n : dict) :
  NoDup (PyDict.keys acc ++ PyDict.keys items)%list ->
  interpolate_items env items acc = Ok n ->
  PyDict.keys n = (PyDict.keys acc ++ PyDict.keys items)%list.
Proof.
  revert acc. induction items as [|[key val] r IH]; simpl; intros acc N H.
  - inversion H; subst. now rewrite app_nil_r.
  - destruct (format val env) as [text|e]; simpl in H; [|discriminate].
    assert (NI : ~ In key (PyDict.keys acc)).
    { intros I. apply NoDup_remove_2 in N. apply N, in_or_app. now left. }
    assert (E : (PyDict.keys (PyDict.set acc key text) ++ PyDict.keys r
                 = PyDict.keys acc ++ key :: PyDict.keys r)%list).
    { rewrite (keys_set_new acc key text NI), <- app_assoc. reflexivity. }
    rewrite (IH (PyDict.set acc key text)); [exact E| |exact H].
    unfold PyDict.keys in *. rewrite E. exact N.
Qed.

(** X5.  When it returns, [interpolate_extend_env] returns a dict with the
    keys of the templates, in their order: no key is lost, added or
    renamed. *)
Theorem interpolation_keeps_the_keys (env extend_env new_env : dict) :
  NoDup (PyDict.keys extend_env) ->
  interpolate_extend_env env extend_env = Ok new_env ->
  PyDict.keys new_env = PyDict.keys extend_env.
Proof.
  intros N H.
  exact (interpolate_items_keys env extend_env [] new_env N H).
Qed.

Lemma interpolation_keeps_the_keys_witness :
  PyDict.keys [("B", "/h/a:old"); ("A", "x")] = ["B"; "A"].
Proof.
  refine (interpolation_keeps_the_keys
            [("HOME", "/h"); ("B", "old"); ("A", "/h/a")]
            [("B", "{A}:{B}"); ("A", "x")]
            [("B", "/h/a:old"); ("A", "x")] _ eq_refl).
  constructor; [intros [E|[]]; discriminate|].
  constructor; [intros []|constructor].
Defined.

(** ** Pairs that cannot be encoded *)

(** X6.  When the encoder either answers or fails with
    [UnicodeDecodeError] on every key and value, the loop of [env] returns,
    and what it returns is made of exactly the pairs whose key and value both
    encode, in their order: a pair that fails is dropped and the build goes
    on. *)
Theorem env_loop_drops_pairs_that_raise_decode_error
        (enc : string -> result bytes) (items : list (string * string))
        (bytes_env : dict) :
  (forall k v, In (k, v) items ->
               encodes_or_decode_error enc k /\ encodes_or_decode_error enc v) ->
  encode_items enc items bytes_env
  = Ok (PyDict.update bytes_env (encoded_pairs enc items)).
Proof.
  revert bytes_env. induction items as [|[k v] r IH]; intros acc H.
  - reflexivity.
  - destruct (H k v (or_introl eq_refl)) as [Hk Hv].
    assert (IH' := fun acc' => IH acc' (fun k' v' I => H k' v' (or_intror I))).
    unfold encodes_or_decode_error in Hk, Hv.
    unfold encoded_pairs. simpl.
    destruct (enc k) as [ek|[]]; try contradiction; simpl; [|apply IH'].
    destruct (enc v) as [ev|[]]; try contradiction; simpl; [|apply IH'].
    rewrite IH'. reflexivity.
Qed.

Lemma env_loop_drops_pairs_that_raise_decode_error_witness :
  encode_items Case.strict_bytes_encoder
               [("A", "1"); ("BAD", "caf" ++ str1 (chr 233)); ("C", "3")] []
  = Ok [("A", "1"); ("C", "3")].
Proof.
  refine (env_loop_drops_pairs_that_raise_decode_error
            Case.strict_bytes_encoder
            [("A", "1"); ("BAD", "caf" ++ str1 (chr 233)); ("C", "3")] [] _).
  intros k v [E|[E|[E|[]]]]; inversion E; subst; split; exact I.
Defined.

(** ** Liveness, signals and the end of the chain *)

Lemma is_alive_run (s : session) (p f : proc) :
  nth_error (procs (os s)) (popen (self s)) = Some p ->
  nth_error (procs (os s)) (filt (self s)) = Some f ->
  is_alive s
  = (Ok (negb (exited p)
         && (if _filt_warns (self s) then negb (exited f) else true)), s).
Proof.
  intros Hp Hf. unfold is_alive, bind, gets, in_world.
  rewrite (get_proc_run _ _ _ Hp). rewrite session_eta.
  destruct (_filt_warns (self s)).
  - rewrite (get_proc_run _ _ _ Hf). unfold ret. now rewrite session_eta.
  - reflexivity.
Qed.

(** X8.  [send_signal] sets the killed flag for SIGTERM and for no other
    signal, whether or not anything is delivered.  The signal goes to the
    primary and, when there is a filter, to the filter next, but only when
    [is_alive] holds; to a chain that is not alive nothing is delivered. *)
Theorem send_signal_reaches_only_a_live_chain
        (sig : nat) (st : signalling) (p f : proc) :
  let s := target st in
  nth_error (procs (os s)) (popen (self s)) = Some p ->
  nth_error (procs (os s)) (filt (self s)) = Some f ->
  let alive := negb (exited p)
               && (if _filt_warns (self s) then negb (exited f) else true) in
  send_signal sig st
  = (Ok tt,
     {| target := if Nat.eqb sig SIGTERM then flagged s else s;
        delivered :=
          (delivered st
           ++ (if alive
               then (popen (self s), sig)
                    :: (if _filt_warns (self s) then [(filt (self s), sig)] else [])
               else []))%list |}).
Proof.
  intros s Hp Hf alive.
  set (s1 := if Nat.eqb sig SIGTERM then flagged s else s).
  assert (E1 : (if Nat.eqb sig SIGTERM then in_session (set_killed true) else ret tt) st
               = (Ok tt, {| target := s1; delivered := delivered st |})).
  { subst s1 s. destruct (Nat.eqb sig SIGTERM); [reflexivity|].
    unfold ret. now destruct st. }
  assert (A : is_alive s1 = (Ok alive, s1)).
  { subst s1. destruct (Nat.eqb sig SIGTERM).
    - exact (is_alive_run (flagged s) p f Hp Hf).
    - exact (is_alive_run s p f Hp Hf). }
  assert (R : self s1 = self s \/ self s1 = self (flagged s)).
  { subst s1. destruct (Nat.eqb sig SIGTERM); auto. }
  unfold send_signal. unfold bind at 1. rewrite E1.
  unfold bind at 1, in_session at 1. simpl target. rewrite A. simpl delivered.
  destruct alive.
  - unfold bind, gets, deliver, modify, ret. simpl.
    destruct R as [-> | ->]; simpl;
      destruct (_filt_warns (self s)); simpl; rewrite <- ?app_assoc; reflexivity.
  - unfold ret. now rewrite app_nil_r.
Qed.

Lemma send_signal_reaches_only_a_live_chain_witness :
  send_signal SIGTERM Case.quiet_signalling
  = (Ok tt,
     {| target := flagged (Sample.running_session "quit" true);
        delivered := [(0, 15); (1, 15)] |}).
Proof.
  exact (send_signal_reaches_only_a_live_chain
           SIGTERM Case.quiet_signalling
           {| exited := false; stdin_received := EmptyString;
              stdout_pending := EmptyString |}
           {| exited := false; stdin_received := EmptyString;
              stdout_pending := EmptyString |}
           eq_refl eq_refl).
Defined.

(** ** Reading to the end *)

Lemma read_bytes_run (h : host) (s : session) (p : proc) :
  POSIX h = false ->
  nth_error (procs (os s)) (filt (self s)) = Some p ->
  read_bytes h s
  = (Ok (fst (read_skipping_cr (stdout_pending p))),
     {| self := self s;
        os := set_procs
                (list_set (filt (self s))
                          {| exited := exited p;
                             stdin_received := stdin_received p;
                             stdout_pending := snd (read_skipping_cr (stdout_pending p)) |}
                          (procs (os s)))
                (os s) |}).
Proof.
  intros HP Hp. unfold read_bytes. rewrite HP.
  unfold bind, gets, in_world, get_proc, put_proc, modify, ret. simpl.
  rewrite Hp. now destruct (read_skipping_cr (stdout_pending p)).
Qed.

Lemma read_skipping_cr_progress (stream : bytes) :
  let (byte, rest) := read_skipping_cr stream in
  if nonempty byte
  then remove_cr stream = byte ++ remove_cr rest
       /\ String.length rest < String.length stream
  else remove_cr stream = EmptyString.
Proof.
  induction stream as [|c r IH]; simpl; [reflexivity|].
  destruct (Ascii.eqb c CR).
  - destruct (read_skipping_cr r) as [byte rest].
    destruct (nonempty byte); [|exact IH].
    destruct IH as [E L]. split; [exact E|lia].
  - simpl. split; [reflexivity|lia].
Qed.

(** X9.  Calling [read_bytes] on a host that is not POSIX until it returns
    the empty byte string hands over, piece by piece, the output of the
    process with every carriage return taken out and nothing else changed;
    one call more than the output has bytes is enough. *)
Theorem reading_to_the_end_removes_carriage_returns
        (h : host) (n : nat) (s : session) (p : proc) :
  POSIX h = false ->
  nth_error (procs (os s)) (filt (self s)) = Some p ->
  String.length (stdout_pending p) < n ->
  fst (read_many h n s) = Ok (remove_cr (stdout_pending p)).
Proof.
  intros HP. revert s p.
  induction n as [|k IH]; intros s p Hp L; [lia|].
  simpl. unfold bind at 1. rewrite (read_bytes_run h s p HP Hp).
  pose proof (read_skipping_cr_progress (stdout_pending p)) as G.
  destruct (read_skipping_cr (stdout_pending p)) as [byte rest]. simpl fst. simpl snd.
  destruct (nonempty byte).
  - destruct G as [E L'].
    set (s1 := {| self := self s; os := _ |}).
    assert (Hp1 : nth_error (procs (os s1)) (filt (self s1))
                  = Some {| exited := exited p;
                            stdin_received := stdin_received p;
                            stdout_pending := rest |}).
    { subst s1. simpl. eapply nth_error_list_set_same; eassumption. }
    specialize (IH s1 _ Hp1). simpl stdout_pending in IH.
    unfold bind. destruct (read_many h k s1) as [r s2]. simpl in IH.
    rewrite IH by lia. simpl. now rewrite E.
  - simpl. now rewrite G.
Qed.

Lemma reading_to_the_end_removes_carriage_returns_witness :
  fst (read_many Sample.windows_host 5 Sample.reading_session)
  = Ok (String LF "ok").
Proof.
  refine (reading_to_the_end_removes_carriage_returns
            Sample.windows_host 5 Sample.reading_session Sample.crlf_proc
            eq_refl eq_refl _).
  simpl. lia.
Defined.

(** ** Discovery of the environments *)

Lemma ltb_flip (x y : string) :
  String.ltb x y = false -> String.eqb x y = false -> String.ltb y x = true.
Proof.
  unfold String.ltb. intros L E.
  rewrite String.compare_antisym.
  destruct (String.compare x y) eqn:C; simpl; [|discriminate|reflexivity].
  apply String.compare_eq_iff in C. subst.
  now rewrite String.eqb_refl in E.
Qed.

Lemma insert_unique_in (x z : string) (l : list string) :
  In z (insert_unique x l) <-> z = x \/ In z l.
Proof.
  induction l as [|y r IH]; simpl; [intuition|].
  destruct (String.eqb x y) eqn:E.
  - apply String.eqb_eq in E. subst. simpl. intuition.
  - destruct (String.ltb x y); simpl; [intuition|].
    rewrite IH. intuition.
Qed.

Lemma insert_unique_ascending (x : string) (l : list string) :
  ascending l -> ascending (insert_unique x l).
Proof.
  induction l as [|y r IH]; intros A; [simpl; auto|].
  simpl insert_unique.
  destruct (String.eqb x y) eqn:E; [exact A|].
  destruct (String.ltb x y) eqn:L; [simpl; auto|].
  pose proof (ltb_flip x y L E) as F.
  destruct A as [H A]. specialize (IH A).
  change (match insert_unique x r with
          | [] => True
          | z :: _ => String.ltb y z = true
          end /\ ascending (insert_unique x r)).
  split; [|exact IH].
  destruct r as [|y2 r2]; [exact F|].
  simpl insert_unique.
  destruct (String.eqb x y2); [exact H|].
  destruct (String.ltb x y2); [exact F|exact H].
Qed.

Lemma sorted_set_ascending (xs : list string) : ascending (sorted_set xs).
Proof.
  induction xs as [|x r IH]; simpl; [exact I|].
  now apply insert_unique_ascending.
Qed.

Lemma sorted_set_in (xs : list string) (z : string) :
  In z (sorted_set xs) <-> In z xs.
Proof.
  induction xs as [|x r IH]; simpl; [reflexivity|].
  rewrite insert_unique_in, IH. intuition.
Qed.

(** X10.  [scan_for_virtualenvs] returns the directories that the glob
    patterns of the roots match, each of them and nothing else, in strictly
    ascending order, so that a directory matched through two roots comes
    once; without roots it returns the empty list. *)
Theorem scan_is_ascending_and_complete
        (h : host) (venv_paths : list string) (conda_min : nat) :
  ascending (scan_for_virtualenvs h venv_paths conda_min)
  /\ (forall d,
         In d (scan_for_virtualenvs h venv_paths conda_min)
         <-> exists venv_path,
               In venv_path venv_paths
               /\ In d (globbed_dirs h conda_min venv_path))
  /\ scan_for_virtualenvs h [] conda_min = [].
Proof.
  assert (E : scan_for_virtualenvs h venv_paths conda_min
              = sorted_set (flat_map (globbed_dirs h conda_min) venv_paths))
    by reflexivity.
  split; [|split; [|reflexivity]].
  - rewrite E. apply sorted_set_ascending.
  - intros d. rewrite E, sorted_set_in, in_flat_map. reflexivity.
Qed.

Lemma get_update_not_in {V} (e d : PyDict.t V) (k : string) :
  ~ In k (PyDict.keys e) -> PyDict.get (PyDict.update d e) k = PyDict.get d k.
Proof.
  unfold PyDict.update. revert d.
  induction e as [|[k' v'] r IH]; simpl; intros d N; [reflexivity|].
  rewrite IH by (intros I; apply N; now right).
  apply get_set_other. intros ->. apply N. now left.
Qed.

Lemma of_pairs_last_wins {V} (l1 l2 : list (string * V)) (k : string) (v : V) :
  ~ In k (PyDict.keys l2) ->
  PyDict.get (PyDict.of_pairs (l1 ++ (k, v) :: l2)%list) k = Some v.
Proof.
  intros N. unfold PyDict.of_pairs, PyDict.update.
  rewrite fold_left_app. simpl.
  change (PyDict.get
            (PyDict.update
               (PyDict.set
                  (fold_left (fun acc kv => PyDict.set acc (fst kv) (snd kv))
                             l1 PyDict.empty) k v) l2) k = Some v).
  rewrite (get_update_not_in l2 _ k N). apply get_set_same.
Qed.

(** X11.  Two binary directories whose parent directories have the same
    name get the same tag, and the tag then stands for the one that comes
    last in the scan: the entry of the earlier one is overwritten. *)
Theorem later_directory_wins_the_tag
        (h : host) (st : settings) (before after : list string) (d : string) :
  scan_for_virtualenvs h (python_virtualenv_paths st) 4
  = (before ++ d :: after)%list ->
  (forall d', In d' after -> tag_of h d' <> tag_of h d) ->
  PyDict.get (venvs_bin_dir h st) (tag_of h d) = Some d.
Proof.
  intros S N. unfold venvs_bin_dir. rewrite S, map_app. simpl map.
  apply (of_pairs_last_wins
           (map (fun d0 => (basename (os_path h) (dirname (os_path h) d0), d0)) before)
           (map (fun d0 => (basename (os_path h) (dirname (os_path h) d0), d0)) after)).
  unfold PyDict.keys. rewrite map_map. simpl.
  intros I. apply in_map_iff in I. destruct I as [d' [E I]].
  exact (N d' I E).
Qed.

Lemma later_directory_wins_the_tag_witness :
  PyDict.get (venvs_bin_dir Case.two_roots_host Case.two_roots_settings) "py3"
  = Some "/home/sam/other/py3/bin".
Proof.
  refine (later_directory_wins_the_tag
            Case.two_roots_host Case.two_roots_settings
            ["/home/sam/envs/py2/bin"; "/home/sam/envs/py3/bin"] []
            "/home/sam/other/py3/bin" eq_refl _).
  intros d' [].
Defined.

(** ** The other paths of the resolution *)

(** X12.  For the tags root and base, when the wrapper branch is not taken,
    the resolution does nothing but fill in the two defaults of
    [extend_env]: it returns the base object, and the trace, the cache and
    the processes are as they were. *)
Theorem root_and_base_are_passed_through
        (h : host) (st : settings) (env_arg : option loc) (w w0 : world)
        (lb le : loc) (ext : dict) :
  base_env h st env_arg w = (Ok lb, w0) ->
  nth_error (heap w0) le = Some ext ->
  use_wrapped st
  && option_truthy (PyDict.get (wrappers_dir h st) (requested_version ext)) = false ->
  is_root_or_base (requested_version ext) = true ->
  SubprocessReplVenv_resolve h st env_arg (Some le) w
  = (Ok lb, set_heap (list_set le (with_venv_defaults ext) (heap w0)) w0).
Proof.
  intros HB He NW RB. unfold SubprocessReplVenv_resolve.
  unfold bind at 1. rewrite HB.
  unfold bind at 1. rewrite (default_extend_keys_run _ _ _ He).
  rewrite NW, RB. reflexivity.
Qed.

Lemma root_and_base_are_passed_through_witness :
  SubprocessReplVenv_resolve Sample.one_env_host (Sample.sample_settings true)
                             (Some 0) (Some 1) Case.pathless_root_world
  = (Ok 0,
     Sample.world_of [[("HOME", "/h")];
                      [("PY_VERSION", "root"); ("PYTHONIOENCODING", "utf-8")]]).
Proof.
  exact (root_and_base_are_passed_through
           Sample.one_env_host (Sample.sample_settings true) (Some 0)
           Case.pathless_root_world Case.pathless_root_world 0 1
           [("PY_VERSION", "root")] eq_refl eq_refl eq_refl eq_refl).
Defined.

(** one turn of the sourcing loop leaves the cache as it is or adds the
    entry of its tag *)
Lemma source_version_cache (h : host) (st : settings) (version : string) (w : world) :
  VENVS_ENVIRON (snd (source_version h st version w)) = VENVS_ENVIRON w
  \/ exists d, VENVS_ENVIRON (snd (source_version h st version w))
               = PyDict.set (VENVS_ENVIRON w) version d.
Proof.
  destruct (activate_dir h st version) as [dir|e] eqn:A.
  - destruct (parse_source_output
                (source_stdout h (path_join (os_path h) dir "activate") version))
      as [d|e] eqn:P.
    + right. exists d. now rewrite (source_version_run h st version dir d w A P).
    + left. unfold source_version, shell_source, bind, emit, modify, lift.
      rewrite A. simpl. now rewrite P.
  - left. unfold source_version, bind, lift. now rewrite A.
Qed.

Lemma for_each_keeps_other_tags (h : host) (st : settings) (tags : list string)
      (v : string) :
  ~ In v tags ->
  forall w,
    PyDict.get (VENVS_ENVIRON (snd (for_each tags (source_version h st) w))) v
    = PyDict.get (VENVS_ENVIRON w) v.
Proof.
  induction tags as [|t r IH]; intros N w; [reflexivity|].
  simpl. unfold bind.
  assert (G : PyDict.get (VENVS_ENVIRON (snd (source_version h st t w))) v
              = PyDict.get (VENVS_ENVIRON w) v).
  { destruct (source_version_cache h st t w) as [E|[d E]]; rewrite E;
      [reflexivity|].
    apply get_set_other. intros ->. apply N. now left. }
  destruct (source_version h st t w) as [[u|e] w1]; simpl in *; [|exact G].
  rewrite IH; [exact G|]. intros I. apply N. now right.
Qed.

(** X13.  A tag that is neither cached nor among the discovered ones (nor
    root or base) makes the resolution raise [KeyError] with that tag, after
    every discovered tag has been sourced; the base environment is not
    changed. *)
Theorem undiscovered_tag_raises_key_error
        (h : host) (st : settings) (env_arg : option loc) (w w0 : world)
        (lb le : loc) (ext : dict) :
  base_env h st env_arg w = (Ok lb, w0) ->
  nth_error (heap w0) le = Some ext ->
  ~ In (requested_version ext) (PyDict.keys (venvs_bin_dir h st)) ->
  is_root_or_base (requested_version ext) = false ->
  PyDict.get (VENVS_ENVIRON w0) (requested_version ext) = None ->
  (forall v, In v (PyDict.keys (venvs_bin_dir h st)) -> sources_cleanly h st v) ->
  let w' := snd (SubprocessReplVenv_resolve h st env_arg (Some le) w) in
  fst (SubprocessReplVenv_resolve h st env_arg (Some le) w)
  = Raise (KeyError (requested_version ext))
  /\ sourcing_count w'
     = sourcing_count w0 + length (PyDict.keys (venvs_bin_dir h st))
  /\ heap w' = list_set le (with_venv_defaults ext) (heap w0).
Proof.
  intros HB He NI RB G HS.
  set (t := requested_version ext) in *.
  set (w1 := set_heap (list_set le (with_venv_defaults ext) (heap w0)) w0).
  assert (NW : use_wrapped st
               && option_truthy (PyDict.get (wrappers_dir h st) t) = false).
  { rewrite wrappers_dir_get, (get_none_not_in _ _ NI). simpl.
    apply andb_false_r. }
  destruct (for_each_source_version h st (PyDict.keys (venvs_bin_dir h st)) w1 HS)
    as [w2 [R [C _]]].
  pose proof (for_each_keeps_other_tags h st _ t NI w1) as K.
  pose proof (heap_unchanged (for_each (PyDict.keys (venvs_bin_dir h st))
                                        (source_version h st)) w1
                (writes_within_for_each [] _ _
                   (writes_within_source_version h st))) as U.
  rewrite R in K, U. simpl in K, U.
  assert (E : SubprocessReplVenv_resolve h st env_arg (Some le) w
              = (Raise (KeyError t), w2)).
  { unfold SubprocessReplVenv_resolve.
    unfold bind at 1. rewrite HB.
    unfold bind at 1. rewrite (default_extend_keys_run _ _ _ He).
    fold t. rewrite NW, RB. simpl negb. cbv iota. fold w1.
    unfold bind at 1. unfold bind at 1.
    unfold fill_cache, bind at 1, gets.
    change (VENVS_ENVIRON w1) with (VENVS_ENVIRON w0). rewrite G, R.
    unfold merge_cached, bind at 1, gets.
    unfold bind at 1, lift, getitem.
    change (VENVS_ENVIRON w1) with (VENVS_ENVIRON w0) in K.
    rewrite K, G. reflexivity. }
  cbv zeta. rewrite E. simpl. repeat split; [exact C|exact U].
Qed.

Lemma undiscovered_tag_raises_key_error_witness :
  let r := SubprocessReplVenv_resolve Sample.one_env_host
             (Sample.sample_settings false) (Some 0) (Some 1)
             Case.unknown_tag_world in
  fst r = Raise (KeyError "py9")
  /\ sourcing_count (snd r) = 1
  /\ heap (snd r)
     = [[("PATH", "/usr/bin")];
        [("PY_VERSION", "py9"); ("PYTHONIOENCODING", "utf-8")]].
Proof.
  refine (undiscovered_tag_raises_key_error
            Sample.one_env_host (Sample.sample_settings false) (Some 0)
            Case.unknown_tag_world Case.unknown_tag_world 0 1
            [("PY_VERSION", "py9")] eq_refl eq_refl _ eq_refl eq_refl _).
  - intros [E|[]]. discriminate.
  - intros v [<-|[]].
    exists "/home/sam/envs/py3/bin",
      [("VIRTUAL_ENV", "/home/sam/envs/py3");
       ("PATH", "/home/sam/envs/py3/bin:/usr/bin")].
    split; reflexivity.
Defined.

Lemma nodup_keys_of_pairs {V} (pairs : list (string * V)) :
  NoDup (PyDict.keys (PyDict.of_pairs pairs)).
Proof.
  unfold PyDict.of_pairs, PyDict.update.
  assert (G : forall (acc : PyDict.t V),
             NoDup (PyDict.keys acc) ->
             NoDup (PyDict.keys
                      (fold_left (fun a kv => PyDict.set a (fst kv) (snd kv))
                                 pairs acc))).
  { induction pairs as [|[k v] r IH]; simpl; intros acc N; [exact N|].
    apply IH. now apply nodup_keys_set. }
  apply G. constructor.
Qed.

(** after the loop, a tag holds the dump that its own sourcing printed *)
Lemma for_each_sources_fresh (h : host) (st : settings) (tags : list string) :
  NoDup tags ->
  forall w,
    (forall v, In v tags -> sources_cleanly h st v) ->
    forall v dir d,
      In v tags ->
      activate_dir h st v = Ok dir ->
      parse_source_output
        (source_stdout h (path_join (os_path h) dir "activate") v) = Ok d ->
      PyDict.get (VENVS_ENVIRON (snd (for_each tags (source_version h st) w))) v
      = Some d.
Proof.
  induction tags as [|t r IH]; intros ND w HS v dir d I A P; [contradiction|].
  inversion ND as [|? ? NI ND']; subst.
  destruct (HS t (or_introl eq_refl)) as [dir0 [d0 [A0 P0]]].
  simpl. unfold bind.
  rewrite (source_version_run h st t dir0 d0 w A0 P0).
  set (w1 := set_cache _ _).
  destruct I as [<-|I].
  - rewrite A0 in A. inversion A; subst dir0.
    rewrite P0 in P. inversion P; subst d0.
    rewrite (for_each_keeps_other_tags h st r t NI w1).
    subst w1. simpl. apply get_set_same.
  - exact (IH ND' w1 (fun v' I' => HS v' (or_intror I')) v dir d I A P).
Qed.

(** X14.  With [force_source] set, the sourcing path sources every
    discovered tag again even when the requested tag is cached: as many
    login shells as discovered tags are started, and every discovered tag
    then holds the dump of its new sourcing in place of the old entry. *)
Theorem forced_sourcing_replaces_the_cache
        (h : host) (st : settings) (env_arg : option loc) (w w0 : world)
        (lb le : loc) (ext : dict) :
  base_env h st env_arg w = (Ok lb, w0) ->
  nth_error (heap w0) le = Some ext ->
  use_wrapped st
  && option_truthy (PyDict.get (wrappers_dir h st) (requested_version ext)) = false ->
  is_root_or_base (requested_version ext) = false ->
  force_source st = true ->
  (forall v, In v (PyDict.keys (venvs_bin_dir h st)) -> sources_cleanly h st v) ->
  let w' := snd (SubprocessReplVenv_resolve h st env_arg (Some le) w) in
  sourcing_count w'
  = sourcing_count w0 + length (PyDict.keys (venvs_bin_dir h st))
  /\ forall v dir d,
      In v (PyDict.keys (venvs_bin_dir h st)) ->
      activate_dir h st v = Ok dir ->
      parse_source_output
        (source_stdout h (path_join (os_path h) dir "activate") v) = Ok d ->
      PyDict.get (VENVS_ENVIRON w') v = Some d.
Proof.
  intros HB He NW RB FS HS.
  set (t := requested_version ext) in *.
  set (tags := PyDict.keys (venvs_bin_dir h st)) in *.
  set (w1 := set_heap (list_set le (with_venv_defaults ext) (heap w0)) w0).
  destruct (for_each_source_version h st tags w1 HS) as [w2 [R [C _]]].
  pose proof (for_each_sources_fresh h st tags
                (nodup_keys_of_pairs _) w1 HS) as K.
  rewrite R in K. simpl in K.
  assert (E : SubprocessReplVenv_resolve h st env_arg (Some le) w
              = bind (merge_cached lb t) (fun _ => ret lb) w2).
  { unfold SubprocessReplVenv_resolve.
    unfold bind at 1. rewrite HB.
    unfold bind at 1. rewrite (default_extend_keys_run _ _ _ He).
    fold t. rewrite NW, RB. simpl negb. cbv iota. fold w1.
    unfold bind at 1. unfold bind at 1.
    unfold fill_cache, bind at 1, gets. rewrite FS. fold tags.
    destruct (PyDict.get (VENVS_ENVIRON w1) t); now rewrite R. }
  cbv zeta. rewrite E.
  assert (S : no_sourcing (bind (merge_cached lb t) (fun _ => ret lb))).
  { apply no_sourcing_bind; [apply no_sourcing_merge_cached|].
    intros _. apply no_sourcing_ret. }
  destruct (S w2) as [C2 V2]. split.
  - etransitivity; [exact C2|exact C].
  - intros v dir d I A P.
    etransitivity; [|exact (K v dir d I A P)]. f_equal. exact V2.
Qed.

Lemma forced_sourcing_replaces_the_cache_witness :
  let w' := snd (SubprocessReplVenv_resolve Sample.one_env_host
                   Case.forcing_settings (Some 0) (Some 1) Case.cached_world) in
  PyDict.get (VENVS_ENVIRON Case.cached_world) "py3" = Some [("OLD", "1")]
  /\ sourcing_count w' = 1
  /\ PyDict.get (VENVS_ENVIRON w') "py3"
     = Some [("VIRTUAL_ENV", "/home/sam/envs/py3");
             ("PATH", "/home/sam/envs/py3/bin:/usr/bin")].
Proof.
  assert (HS : forall v,
             In v (PyDict.keys (venvs_bin_dir Sample.one_env_host
                                              Case.forcing_settings)) ->
             sources_cleanly Sample.one_env_host Case.forcing_settings v).
  { intros v [<-|[]].
    exists "/home/sam/envs/py3/bin",
      [("VIRTUAL_ENV", "/home/sam/envs/py3");
       ("PATH", "/home/sam/envs/py3/bin:/usr/bin")].
    split; reflexivity. }
  destruct (forced_sourcing_replaces_the_cache
              Sample.one_env_host Case.forcing_settings (Some 0)
              Case.cached_world Case.cached_world 0 1 [("PY_VERSION", "py3")]
              eq_refl eq_refl eq_refl eq_refl eq_refl HS) as [C K].
  split; [reflexivity|]. split; [exact C|].
  exact (K "py3" "/home/sam/envs/py3/bin" _ (or_introl eq_refl) eq_refl eq_refl).
Defined.

(** X15.  The virtualenv constructor reads PATH from the environment that
    the resolution hands on; when that environment has no PATH, the
    constructor raises [KeyError] for PATH and stops there, in the state the
    resolution left: the parent constructor is not reached and no REPL
    process is started. *)
Theorem venv_construction_needs_path
        (h : host) (st : settings) (cmd_arg : command)
        (env_arg : option loc) (cwd_arg : option string) (extend_env : option loc)
        (soft_quit : string) (autocomplete_server filt_warns : bool)
        (w w1 : world) (l : loc) (ce : dict) :
  SubprocessReplVenv_resolve h st env_arg extend_env w = (Ok l, w1) ->
  nth_error (heap w1) l = Some ce ->
  PyDict.get ce "PATH" = None ->
  SubprocessReplVenv_init h st cmd_arg env_arg cwd_arg extend_env soft_quit
                          autocomplete_server filt_warns w
  = (Raise (KeyError "PATH"), w1).
Proof.
  intros R Hl G. unfold SubprocessReplVenv_init.
  unfold bind at 1. rewrite R.
  unfold bind at 1. rewrite (deref_run _ _ _ Hl).
  unfold bind at 1, lift, getitem. now rewrite G.
Qed.

Lemma venv_construction_needs_path_witness :
  let r := SubprocessReplVenv_init Sample.one_env_host (Sample.sample_settings true)
             (CmdList ["python"; "-i"]) (Some 0) None (Some 1) "" false false
             Case.pathless_root_world in
  fst r = Raise (KeyError "PATH") /\ procs (snd r) = [] /\ events (snd r) = [].
Proof.
  cbv zeta.
  rewrite (venv_construction_needs_path
             Sample.one_env_host (Sample.sample_settings true)
             (CmdList ["python"; "-i"]) (Some 0) None (Some 1) "" false false
             Case.pathless_root_world
             (Sample.world_of [[("HOME", "/h")];
                               [("PY_VERSION", "root");
                                ("PYTHONIOENCODING", "utf-8")]])
             0 [("HOME", "/h")] eq_refl eq_refl eq_refl).
  repeat split.
Defined.

(** ** The command line *)

(** X16.  [cmd] never touches the arguments: of a command list it can
    replace the first element only, and it does so only on Windows and only
    by the file that [win_find_executable] found; elsewhere the command is
    returned as it is. *)
Theorem cmd_keeps_the_arguments
        (h : host) (first : string) (rest : list string) (env : dict) :
  exists first',
    cmd h (CmdList (first :: rest)) env = Ok (CmdList (first' :: rest))
    /\ (first' = first
        \/ (NT h = true
            /\ win_find_executable (os_path h) (path_exists h) first env
               = Some first'))
    /\ (if NT h then True else first' = first).
Proof.
  unfold cmd. destruct (NT h); simpl.
  - destruct (win_find_executable (os_path h) (path_exists h) first env)
      as [executable|] eqn:F.
    + destruct (nonempty executable); eauto 6.
    + eauto.
  - eauto.
Qed.

(** ** The defaults of the virtual environment *)

Lemma with_venv_defaults_get (ext : dict) (k : string) :
  PyDict.get (with_venv_defaults ext) k
  = match PyDict.get ext k with
    | Some v => Some v
    | None =>
        if String.eqb k "PY_VERSION" then Some "py3"
        else if String.eqb k "PYTHONIOENCODING" then Some "utf-8"
        else None
    end.
Proof.
  unfold with_venv_defaults.
  set (e1 := if PyDict.mem ext "PY_VERSION" then ext
             else PyDict.set ext "PY_VERSION" "py3").
  assert (G1 : forall k0,
             PyDict.get e1 k0
             = match PyDict.get ext k0 with
               | Some v => Some v
               | None => if String.eqb k0 "PY_VERSION" then Some "py3" else None
               end).
  { intros k0. subst e1. rewrite mem_get.
    destruct (String.eqb_spec k0 "PY_VERSION") as [->|N].
    - destruct (PyDict.get ext "PY_VERSION") eqn:G;
        [exact G|apply get_set_same].
    - destruct (PyDict.get ext "PY_VERSION");
        [|rewrite get_set_other by (intros Q; apply N; now symmetry)];
        now destruct (PyDict.get ext k0). }
  rewrite mem_get.
  destruct (PyDict.get e1 "PYTHONIOENCODING") as [s|] eqn:G.
  - rewrite G1. destruct (PyDict.get ext k) eqn:Gk; [reflexivity|].
    destruct (String.eqb k "PY_VERSION"); [reflexivity|].
    destruct (String.eqb_spec k "PYTHONIOENCODING") as [->|N]; [|reflexivity].
    rewrite G1, Gk in G. discriminate.
  - rewrite G1 in G. simpl String.eqb in G.
    destruct (String.eqb_spec k "PYTHONIOENCODING") as [->|N].
    + rewrite get_set_same.
      destruct (PyDict.get ext "PYTHONIOENCODING"); [discriminate|reflexivity].
    + rewrite get_set_other by (intros Q; apply N; now symmetry).
      rewrite G1. reflexivity.
Qed.

(** X17.  The two defaults go into [extend_env] only where the caller gave
    nothing: every key the caller set keeps its value, PY_VERSION and
    PYTHONIOENCODING get py3 and utf-8 when they are missing, no other key
    appears, and the tag handed on is the caller's PY_VERSION when there is
    one. *)
Theorem venv_defaults_never_override (le : loc) (ext : dict) (w : world) :
  nth_error (heap w) le = Some ext ->
  exists d',
    fst (default_extend_keys le w)
    = Ok (match PyDict.get ext "PY_VERSION" with Some v => v | None => "py3" end)
    /\ nth_error (heap (snd (default_extend_keys le w))) le = Some d'
    /\ forall k,
        PyDict.get d' k
        = match PyDict.get ext k with
          | Some v => Some v
          | None =>
              if String.eqb k "PY_VERSION" then Some "py3"
              else if String.eqb k "PYTHONIOENCODING" then Some "utf-8"
              else None
          end.
Proof.
  intros He. exists (with_venv_defaults ext).
  rewrite (default_extend_keys_run le ext w He). simpl.
  split; [reflexivity|]. split.
  - eapply nth_error_list_set_same; eassumption.
  - apply with_venv_defaults_get.
Qed.

Lemma venv_defaults_never_override_witness :
  exists d',
    fst (default_extend_keys 1 (Sample.world_of [[]; [("PYTHONIOENCODING", "latin-1")]]))
    = Ok "py3"
    /\ nth_error (heap (snd (default_extend_keys 1
                               (Sample.world_of [[]; [("PYTHONIOENCODING", "latin-1")]]))))
                 1 = Some d'
    /\ forall k,
        PyDict.get d' k
        = match PyDict.get [("PYTHONIOENCODING", "latin-1")] k with
          | Some v => Some v
          | None =>
              if String.eqb k "PY_VERSION" then Some "py3"
              else if String.eqb k "PYTHONIOENCODING" then Some "utf-8"
              else None
          end.
Proof.
  exact (venv_defaults_never_override
           1 [("PYTHONIOENCODING", "latin-1")]
           (Sample.world_of [[]; [("PYTHONIOENCODING", "latin-1")]]) eq_refl).
Defined.

(** ** What the lookup can return *)

(** X18.  For a name without directory part, a file that
    [win_find_executable] returns exists and is one of the candidates, and
    [None] is returned only when none of the candidates exists; for a name
    with a directory part the name itself comes back, whether it exists or
    not. *)
Theorem win_find_executable_sound_and_complete
        (P : ospath) (exists_ : string -> bool) (executable : string) (env : dict) :
  match win_find_executable P exists_ executable env with
  | Some f =>
      (nonempty (dirname P executable) = true /\ f = executable)
      \/ (nonempty (dirname P executable) = false
          /\ exists_ f = true
          /\ In f (search_candidates P executable env))
  | None =>
      nonempty (dirname P executable) = false
      /\ forall c, In c (search_candidates P executable env) -> exists_ c = false
  end.
Proof.
  assert (E : win_find_executable P exists_ executable env
              = if nonempty (dirname P executable) then Some executable
                else find exists_ (search_candidates P executable env)).
  { unfold win_find_executable, search_candidates, search_extensions.
    destruct (nonempty (dirname P executable)); [reflexivity|].
    destruct (splitext P executable) as [base ext]; simpl.
    rewrite find_in_directories_is_find.
    destruct (nonempty ext); [reflexivity|].
    destruct (PyDict.get env "PATHEXT") as [e|].
    - destruct (nonempty e); [reflexivity|].
      now rewrite default_extension_alone.
    - now rewrite default_extension_alone. }
  rewrite E. destruct (nonempty (dirname P executable)); [now left|].
  destruct (find exists_ (search_candidates P executable env)) as [f|] eqn:F.
  - right. apply find_some in F. tauto.
  - split; [reflexivity|]. intros c I. exact (find_none _ _ F c I).
Qed.

(** ** The signal names *)

Lemma collect_signals_get {V} (items : list (string * V)) (acc : PyDict.t V)
      (k : string) :
  NoDup (PyDict.keys items) ->
  PyDict.get (collect_signals items acc) k
  = match PyDict.get items k with
    | Some v => if String.prefix "SIG" k then Some v else PyDict.get acc k
    | None => PyDict.get acc k
    end.
Proof.
  revert acc. induction items as [|[k' v'] r IH]; intros acc N; [reflexivity|].
  inversion N as [|? ? NI N']; subst.
  simpl collect_signals. simpl PyDict.get.
  destruct (String.eqb_spec k' k) as [->|D].
  - destruct (String.prefix "SIG" k) eqn:Pk; simpl; rewrite IH by assumption;
      rewrite (get_none_not_in r k NI); [apply get_set_same|reflexivity].
  - destruct (String.prefix "SIG" k') eqn:Pk'; simpl; rewrite IH by assumption;
      [|reflexivity].
    rewrite get_set_other by exact D. reflexivity.
Qed.

(** X19.  [available_signals] returns the entries of the signal module
    whose name starts with SIG, each with its own value, and nothing else. *)
Theorem available_signals_are_the_sig_names
        {V} (signal_dict : PyDict.t V) (k : string) :
  NoDup (PyDict.keys signal_dict) ->
  PyDict.get (available_signals signal_dict) k
  = match PyDict.get signal_dict k with
    | Some v => if String.prefix "SIG" k then Some v else None
    | None => None
    end.
Proof.
  intros N. unfold available_signals.
  rewrite (collect_signals_get (PyDict.items signal_dict) PyDict.empty k N).
  reflexivity.
Qed.

Lemma available_signals_are_the_sig_names_witness :
  PyDict.get (available_signals Case.signal_names) "SIGTERM" = Some 15
  /\ PyDict.get (available_signals Case.signal_names) "Signals" = None.
Proof.
  assert (N : NoDup (PyDict.keys Case.signal_names)).
  { repeat (constructor;
            [simpl; intros I;
             repeat (destruct I as [I|I]; [discriminate|]); exact I|]).
    constructor. }
  split.
  - exact (available_signals_are_the_sig_names Case.signal_names "SIGTERM" N).
  - exact (available_signals_are_the_sig_names Case.signal_names "Signals" N).
Defined.

(** ** From bytes back to text *)

Lemma utf8_decode_two_bytes (b1 b2 : ascii) (rest : bytes) :
  194 <= nat_of_ascii b1 <= 195 ->
  128 <= nat_of_ascii b2 <= 191 ->
  utf8_decode (String b1 (String b2 rest))
  = rbind (utf8_decode rest)
          (fun s => Ok (String (chr ((nat_of_ascii b1 - 192) * 64
                                     + (nat_of_ascii b2 - 128))) s)).
Proof.
  intros H1 H2.
  change (utf8_decode (String b1 (String b2 rest)))
    with (if Nat.ltb (nat_of_ascii b1) 128
          then rbind (utf8_decode (String b2 rest)) (fun s => Ok (String b1 s))
          else if Nat.leb 194 (nat_of_ascii b1) && Nat.leb (nat_of_ascii b1) 195
               then if Nat.leb 128 (nat_of_ascii b2) && Nat.leb (nat_of_ascii b2) 191
                    then rbind (utf8_decode rest)
                               (fun s => Ok (String (chr ((nat_of_ascii b1 - 192) * 64
                                                          + (nat_of_ascii b2 - 128))) s))
                    else Raise UnicodeDecodeError
               else if Nat.leb 196 (nat_of_ascii b1) && Nat.leb (nat_of_ascii b1) 244
                    then Raise OutsideModel
                    else Raise UnicodeDecodeError).
  replace (Nat.ltb (nat_of_ascii b1) 128) with false
    by (symmetry; apply Nat.ltb_ge; lia).
  replace (Nat.leb 194 (nat_of_ascii b1)) with true
    by (symmetry; apply Nat.leb_le; lia).
  replace (Nat.leb (nat_of_ascii b1) 195) with true
    by (symmetry; apply Nat.leb_le; lia).
  replace (Nat.leb 128 (nat_of_ascii b2)) with true
    by (symmetry; apply Nat.leb_le; lia).
  replace (Nat.leb (nat_of_ascii b2) 191) with true
    by (symmetry; apply Nat.leb_le; lia).
  reflexivity.
Qed.

Lemma utf8_round_trip (text : string) : utf8_decode (utf8_encode text) = Ok text.
Proof.
  induction text as [|c r IH]; [reflexivity|].
  change (utf8_encode (String c r))
    with (if Nat.ltb (nat_of_ascii c) 128 then String c (utf8_encode r)
          else String (chr (192 + nat_of_ascii c / 64))
                      (String (chr (128 + nat_of_ascii c mod 64)) (utf8_encode r))).
  pose proof (nat_ascii_bounded c) as B.
  destruct (Nat.ltb (nat_of_ascii c) 128) eqn:L.
  - change (utf8_decode (String c (utf8_encode r)))
      with (if Nat.ltb (nat_of_ascii c) 128
            then rbind (utf8_decode (utf8_encode r)) (fun s => Ok (String c s))
            else if Nat.leb 194 (nat_of_ascii c) && Nat.leb (nat_of_ascii c) 195
                 then match utf8_encode r with
                      | String b2 r' =>
                          if Nat.leb 128 (nat_of_ascii b2) && Nat.leb (nat_of_ascii b2) 191
                          then rbind (utf8_decode r')
                                 (fun s => Ok (String (chr ((nat_of_ascii c - 192) * 64
                                                            + (nat_of_ascii b2 - 128))) s))
                          else Raise UnicodeDecodeError
                      | EmptyString => Raise UnicodeDecodeError
                      end
                 else if Nat.leb 196 (nat_of_ascii c) && Nat.leb (nat_of_ascii c) 244
                      then Raise OutsideModel
                      else Raise UnicodeDecodeError).
    rewrite L, IH. reflexivity.
  - apply Nat.ltb_ge in L.
    set (n := nat_of_ascii c) in *.
    pose proof (Nat.div_mod_eq n 64) as DM.
    pose proof (Nat.mod_upper_bound n 64 ltac:(lia)) as MU.
    assert (D : 2 <= n / 64 <= 3) by lia.
    assert (N1 : nat_of_ascii (chr (192 + n / 64)) = 192 + n / 64)
      by (apply nat_ascii_embedding; lia).
    assert (N2 : nat_of_ascii (chr (128 + n mod 64)) = 128 + n mod 64)
      by (apply nat_ascii_embedding; lia).
    rewrite utf8_decode_two_bytes by (rewrite ?N1, ?N2; lia).
    rewrite IH, N1, N2.
    replace ((192 + n / 64 - 192) * 64 + (128 + n mod 64 - 128)) with n by lia.
    unfold n, chr. now rewrite ascii_nat_embedding.
Qed.

(** X20.  An environment whose keys and values were encoded as UTF-8 goes
    through the Python 3 loop of the constructor without error and comes out
    as the text it was made from, pair by pair. *)
Theorem py3_loop_inverts_utf8 (items : list (string * string)) (strings_env : dict) :
  decode_items (map (fun kv => (utf8_encode (fst kv), utf8_encode (snd kv))) items)
               strings_env
  = Ok (PyDict.update strings_env items).
Proof.
  revert strings_env. induction items as [|[k v] r IH]; intros acc; [reflexivity|].
  simpl. rewrite !utf8_round_trip. simpl. apply IH.
Qed.

(** ** What the constructor starts *)

Lemma bind_ok {S A B} (m : M S A) (k : A -> M S B) (s s' : S) (b : B) :
  bind m k s = (Ok b, s') ->
  exists a s1, m s = (Ok a, s1) /\ k a s1 = (Ok b, s').
Proof.
  unfold bind. destruct (m s) as [[a|e] s1]; intros H; [eauto|discriminate].
Qed.

Section Frames.

Context {X : Type} (part : world -> X).
Hypothesis part_set_heap : forall hp w, part (set_heap hp w) = part w.

Lemma keeps_ret {A} (a : A) : keeps part (ret a).
Proof. now intros w. Qed.

Lemma keeps_lift {A} (r : result A) : keeps part (lift r).
Proof. now intros w. Qed.

Lemma keeps_store (l : loc) (d : dict) : keeps part (store l d).
Proof. intros w. apply part_set_heap. Qed.

Lemma keeps_deref (l : loc) : keeps part (deref l).
Proof. intros w. unfold deref. now destruct (nth_error (heap w) l). Qed.

Lemma keeps_bind {A B} (m : M world A) (k : A -> M world B) :
  keeps part m -> (forall a, keeps part (k a)) -> keeps part (bind m k).
Proof.
  intros Hm Hk w. unfold bind. specialize (Hm w).
  destruct (m w) as [[a|e] w1]; simpl in *; [|exact Hm].
  now rewrite Hk.
Qed.

Lemma keeps_truthy_arg (a : option loc) : keeps part (truthy_arg a).
Proof.
  destruct a as [l|]; simpl; [|apply keeps_ret].
  apply keeps_bind; [apply keeps_deref|].
  intros d. apply keeps_ret.
Qed.

Lemma keeps_update_in_place (l : loc) (e : dict) : keeps part (update_in_place l e).
Proof.
  apply keeps_bind; [apply keeps_deref|].
  intros d. apply keeps_store.
Qed.

Lemma keeps_extend_in_place (st : settings) (l : loc) (extend_env : option loc) :
  keeps part (extend_in_place st l extend_env).
Proof.
  unfold extend_in_place. apply keeps_bind.
  - destruct (PyDict.truthy (default_extend_env st)); [|apply keeps_ret].
    apply keeps_bind; [apply keeps_deref|]. intros d.
    apply keeps_bind; [apply keeps_lift|]. intros n.
    apply keeps_update_in_place.
  - intros _. apply keeps_bind; [apply keeps_truthy_arg|].
    intros [|]; destruct extend_env as [le|]; try apply keeps_ret.
    apply keeps_bind; [apply keeps_deref|]. intros d.
    apply keeps_bind; [apply keeps_deref|]. intros e.
    apply keeps_bind; [apply keeps_lift|]. intros n.
    apply keeps_update_in_place.
Qed.

(** what [env] does once it has its base *)
Lemma keeps_env_tail (h : host) (st : settings) (l : loc) (extend_env : option loc) :
  keeps part (extend_in_place st l extend_env ;;;
         d <- deref l ;;
         lift (encode_items (encoder h) (PyDict.items d) PyDict.empty)).
Proof.
  apply keeps_bind; [apply keeps_extend_in_place|].
  intros _. apply keeps_bind; [apply keeps_deref|].
  intros d. apply keeps_lift.
Qed.

End Frames.

(** [getenv] starts no child of the chain, and records the login shell and
    its failure only *)
Lemma getenv_footprint (h : host) (st : settings) (w : world) :
  procs (snd (getenv h st w)) = procs w
  /\ heap (snd (getenv h st w)) = heap w
  /\ exists shown,
       events (snd (getenv h st w)) = (events w ++ getenv_events h st shown)%list.
Proof.
  unfold getenv, getenv_events.
  destruct (list_truthy (getenv_command st) && POSIX h).
  - unfold try_except, bind, emit, modify, lift, raise, ret. simpl.
    destruct (getenv_output h (getenv_command st)) as [output|]; simpl.
    + destruct (parse_getenv_output output) as [d|e]; simpl.
      * split; [reflexivity|]. split; [reflexivity|]. now exists false.
      * destruct e; simpl; (split; [reflexivity|]; split; [reflexivity|]);
          first [ now exists false
                | exists true; now rewrite <- app_assoc ].
    + split; [reflexivity|]. split; [reflexivity|].
      exists true. now rewrite <- app_assoc.
  - simpl. split; [reflexivity|]. split; [reflexivity|].
    exists false. now rewrite app_nil_r.
Qed.

(** the truth value of an argument depends on the dict objects only *)
Lemma truthy_arg_heap (a : option loc) (w1 w2 : world) :
  heap w1 = heap w2 -> fst (truthy_arg a w1) = fst (truthy_arg a w2).
Proof.
  intros H. destruct a as [l|]; [|reflexivity].
  unfold truthy_arg, bind, deref. rewrite H.
  now destruct (nth_error (heap w2) l).
Qed.

(** what a build that returns has recorded and started: the login shell
    exactly when no dict, or an empty one, was supplied as the base *)
Lemma env_footprint (h : host) (st : settings) (env_arg extend_env : option loc)
      (w w' : world) (e : dict) :
  env h st env_arg extend_env w = (Ok e, w') ->
  procs w' = procs w
  /\ exists supplied shown,
       fst (truthy_arg env_arg w) = Ok supplied
       /\ events w'
          = (events w ++ (if supplied then [] else getenv_events h st shown))%list.
Proof.
  intros H. unfold env in H.
  apply bind_ok in H. destruct H as [l [w1 [B T]]].
  pose proof (keeps_env_tail procs (fun _ _ => eq_refl) h st l extend_env w1) as TP.
  pose proof (keeps_env_tail events (fun _ _ => eq_refl) h st l extend_env w1) as TE.
  rewrite T in TP, TE. simpl in TP, TE. rewrite TP, TE. clear T TP TE.
  unfold base_env in B.
  apply bind_ok in B. destruct B as [supplied [w0 [A B]]].
  assert (W0 : w0 = w).
  { destruct env_arg as [l0|]; simpl in A.
    - unfold bind, deref in A. destruct (nth_error (heap w) l0); now inversion A.
    - now inversion A. }
  subst w0.
  assert (G : forall l1 w2, bind (getenv h st) alloc w = (Ok l1, w2) ->
              procs w2 = procs w
              /\ exists shown,
                   events w2 = (events w ++ getenv_events h st shown)%list).
  { intros l1 w2 R. apply bind_ok in R. destruct R as [d [wg [R1 R2]]].
    destruct (getenv_footprint h st w) as [GP [_ [shown GE]]].
    rewrite R1 in GP, GE. simpl in GP, GE.
    unfold alloc in R2. inversion R2; subst. simpl. eauto. }
  destruct env_arg as [l0|]; [destruct supplied|].
  - unfold ret in B. inversion B; subst. split; [reflexivity|].
    exists true, false. rewrite A. split; [reflexivity|]. now rewrite app_nil_r.
  - destruct (G _ _ B) as [GP [shown GE]]. split; [exact GP|].
    exists false, shown. rewrite A. now split.
  - destruct (G _ _ B) as [GP [shown GE]]. split; [exact GP|].
    assert (supplied = false) by (simpl in A; now inversion A). subst supplied.
    exists false, shown. rewrite A. now split.
Qed.

Lemma spawn_ok (h : host) (c : command) (e : event) (w w' : world) (pid : nat) :
  spawn h c e w = (Ok pid, w') ->
  pid = length (procs w)
  /\ procs w' = (procs w ++ [fresh_proc])%list
  /\ events w' = (events w ++ [e])%list.
Proof.
  unfold spawn. destruct (can_spawn h c); [|discriminate].
  unfold bind, emit, modify. simpl. intros H. inversion H; subst. now repeat split.
Qed.

(** X21.  What a constructor that returns has started, in this order and
    nothing else: the autocomplete server when it is asked for; the login
    shell of [getenv] when a command is configured on POSIX and no dict, or
    an empty one, was supplied as the base, followed by the error message
    when that shell failed; the primary process; and, with the filter stage
    enabled, the filter, in the same directory and with the same
    environment as the primary.  The process table has grown by the primary
    and the filter only; [popen] and [filt] are their handles, and without
    the filter stage [filt] is [popen] itself. *)
Theorem constructor_starts_the_chain
        (h : host) (st : settings) (cmd_arg : command)
        (env_arg : option loc) (cwd_arg : option string) (extend_env : option loc)
        (soft_quit : string) (autocomplete_server filt_warns : bool)
        (w w' : world) (r : repl) :
  SubprocessRepl_init h st cmd_arg env_arg cwd_arg extend_env soft_quit
                      autocomplete_server filt_warns w = (Ok r, w') ->
  _killed r = false
  /\ _soft_quit r = soft_quit
  /\ _filt_warns r = filt_warns
  /\ popen r = length (procs w)
  /\ filt r = (if filt_warns then S (length (procs w)) else popen r)
  /\ procs w'
     = (procs w ++ fresh_proc :: (if filt_warns then [fresh_proc] else []))%list
  /\ exists supplied shown e,
       fst (truthy_arg env_arg w) = Ok supplied
       /\ events w'
          = (events w
             ++ (if autocomplete_server then [StartedAutocomplete] else [])
             ++ (if supplied then [] else getenv_events h st shown)
             ++ Spawned (_cmd r) (cwd h cwd_arg) e
                :: (if filt_warns then [SpawnedFilter (cwd h cwd_arg) e] else []))%list.
Proof.
  intros H. unfold SubprocessRepl_init in H.
  apply bind_ok in H. destruct H as [first [w1 [H1 H]]].
  assert (w1 = w) by (unfold lift in H1; now inversion H1). subst w1.
  destruct (String.eqb first "[unsupported]"); [discriminate|].
  apply bind_ok in H. destruct H as [u [w2 [H2 H]]].
  assert (P2 : procs w2 = procs w /\ heap w2 = heap w
               /\ events w2
                  = (events w
                     ++ (if autocomplete_server then [StartedAutocomplete]
                         else []))%list).
  { destruct autocomplete_server; inversion H2; simpl;
      repeat split; now rewrite ?app_nil_r. }
  destruct P2 as [P2 [Hp2 E2]].
  apply bind_ok in H. destruct H as [e [w3 [H3 H]]].
  destruct (env_footprint _ _ _ _ _ _ _ H3) as [P3 [supplied [shown [T3 E3]]]].
  rewrite (truthy_arg_heap env_arg w2 w Hp2) in T3.
  cbv zeta in H.
  apply bind_ok in H. destruct H as [e' [w4 [H4 H]]].
  assert (w4 = w3).
  { destruct (PY3 h); [unfold lift in H4|unfold ret in H4]; now inversion H4. }
  subst w4.
  apply bind_ok in H. destruct H as [c [w5 [H5 H]]].
  assert (w5 = w3) by (unfold lift in H5; now inversion H5). subst w5.
  apply bind_ok in H. destruct H as [p [w6 [H6 H]]].
  apply spawn_ok in H6. destruct H6 as [Ep [P6 E6]].
  apply bind_ok in H. destruct H as [f [w7 [H7 H]]].
  unfold ret in H. inversion H; subst r w'. clear H. simpl.
  assert (F : f = (if filt_warns then S (length (procs w)) else p)
              /\ procs w7
                 = (procs w ++ fresh_proc
                    :: (if filt_warns then [fresh_proc] else []))%list
              /\ events w7
                 = (events w6
                    ++ (if filt_warns then [SpawnedFilter (cwd h cwd_arg) e']
                        else []))%list).
  { destruct filt_warns.
    - apply spawn_ok in H7. destruct H7 as [Ef [P7 E7]].
      rewrite P6, P3, P2 in Ef, P7. rewrite length_app in Ef. simpl in Ef.
      split; [lia|]. split; [|exact E7]. rewrite P7, <- app_assoc. reflexivity.
    - unfold ret in H7. inversion H7; subst w7.
      split; [reflexivity|]. rewrite P6, P3, P2, app_nil_r. now split. }
  destruct F as [Ef [P7 E7]].
  repeat split; try assumption; try congruence.
  exists supplied, shown, e'. split; [exact T3|].
  rewrite E7, E6, E3, E2. rewrite <- !app_assoc. reflexivity.
Qed.

Lemma constructor_starts_the_chain_witness :
  let r := SubprocessRepl_init Case.login_host Case.login_settings
             (CmdList ["python"; "-i"]) None None None "quit" false true
             (Sample.world_of []) in
  exists repl_object e,
    fst r = Ok repl_object
    /\ popen repl_object = 0
    /\ filt repl_object = 1
    /\ procs (snd r) = [fresh_proc; fresh_proc]
    /\ events (snd r)
       = [RanGetenv ["/bin/bash"; "--login"; "-c"; "env"];
          Spawned (CmdList ["python"; "-i"]) None e;
          SpawnedFilter None e].
Proof.
  cbv zeta.
  destruct (SubprocessRepl_init Case.login_host Case.login_settings
              (CmdList ["python"; "-i"]) None None None "quit" false true
              (Sample.world_of [])) as [[repl_object|x] w'] eqn:E;
    [|vm_compute in E; discriminate].
  destruct (constructor_starts_the_chain _ _ _ _ _ _ _ _ _ _ _ _ E)
    as [_ [_ [_ [Hp [Hf [Hprocs [supplied [shown [e [T Hev]]]]]]]]]].
  assert (C : _cmd repl_object = CmdList ["python"; "-i"]
              /\ length (events w') = 3)
    by (vm_compute in E; inversion E; subst; now split).
  destruct C as [Hc Hl].
  simpl in T. inversion T; subst supplied.
  exists repl_object, e. simpl. repeat split; try assumption.
  rewrite Hev in Hl |- *. rewrite Hc. unfold getenv_events in *. simpl in *.
  destruct shown; [discriminate|reflexivity].
Defined.
